(* ===== verification/_CoqProject ===== *)
-Q . S2P
Prelude.v
Numerics.v
Interp.v
Lstsq.v
PyDict.v
Select.v
Demand.v
Table.v
Plot.v
Developed.v
Pipeline.v
Main.v
Potential.v
Options.v
