(* ===== verification/Prelude.v ===== *)
(** * A verification development for the FUTURES demand and potential scripts

    The repository holds two GRASS GIS Python modules of the FUTURES
    urban-growth model.

    - [src/r.futures/r.futures.demand/r.futures.demand.py] ([main],
      lines 88-236) estimates, per subregion, how many cells will be newly
      developed between consecutive simulation times.  It (1) counts the
      developed cells of every subregion in every development raster by
      parsing the output of [r.univar -gt] (lines 108-125), (2)
      interpolates the population of every subregion at the simulation
      times with [np.interp] over the observed and projected population
      tables (lines 126-132), (3) fits, for every requested method
      (linear, logarithmic, exponential), a line by [np.linalg.lstsq] and
      computes an RMSE with [n - 2] degrees of freedom (lines 147-170), (4)
      selects the method of minimal RMSE with Python's [min] (line 172),
      (5) turns the predictions into per-interval demand with [np.diff],
      clamps negative increments to zero and zeroes the vector when the
      slope [m] is negative (lines 174-183), and (6) writes the demand
      table (lines 217-236).
    - [src/r.futures/r.futures.potential/r.futures.potential.py] ([main],
      lines 126-176, [cleanup], lines 120-123) checks its options, writes
      an R script (lines 70-113) and the attribute table to temporary
      files, runs the script with [Rscript], rewrites the coefficient
      table R writes, and removes its temporary files at exit.

    ** Layout: one file per component, in dependency order

    - [Prelude] (this file): the error monad [res] for Python exceptions
      and [gcore.fatal], Python float values [pyfloat] with [inf] and
      [nan], Python's [<] on them, numpy's division and square root rules
      ([py_div], [py_sqrt]), the interface [FloatLib] of [np.log],
      [np.exp], [np.sqrt], sums, string splitting, joining and
      stripping, Python's [int()] and [float()] of strings, and the
      shared lemmas, tactics ([qbool], [qcase], [vm_in], [vm_absurd]) and
      hint database [futures].
    - [Numerics]: a computable [FloatLib] instance rounding to [1e-12],
      used only to evaluate the examples.
    - [Interp] (Module [Interp]): [np.interp] as numpy computes it, the
      population tables and [population_for_simulated_times]
      (lines 98-103, 126-132).
    - [Lstsq] (Module [Lstsq]): [np.linalg.lstsq] on the two-column
      design as its closed form (the minimum-norm answer when the design
      has rank one), the abstract contract [is_lsq_solution], and the
      per-method fit [fit_method] (lines 147-170).
    - [PyDict] (Module [PyDict]): the Python 2 dictionary with [str]
      keys as CPython 2.7 implements it: the 64-bit string hash
      [str_hash], the probe sequence [probe] of the 8-slot table, the
      store [insert] and the iteration order [dict_keys] (slot order).
    - [Select] (Module [Select]): the dictionaries of the loop over
      methods, the iteration order [rmse_order] of [rmse] under Python 2,
      Python's [min] with a key, the loop over methods [fit_loop] and
      [select_subregion] (lines 143-174).
    - [Demand] (Module [Demand]): [np.diff], the clamping, the slope test
      and the warnings, [subregion_demand] (lines 141-183).
    - [Table] (Module [Table]): the demand file writer [write_demand]
      (lines 217-236), with [int] truncation and [str] of integers.
    - [Plot] (Module [Plot]): what the [plot] option draws (lines 136-139,
      185-215): the grid size [n_plots], the [figure], matplotlib's
      check of the subplot number, [np.min], [np.max], [np.linspace],
      the curve and legend of the selected method, one [subplot] record
      per subregion ([plot_subregion]) with its title and labels.
    - [Developed] (Module [Developed]): parsing the [r.univar] lines and
      building [table_developed] and the sorted ids, [gather_developed]
      (lines 110-125).
    - [Pipeline] (Module [Pipeline]): the [main] of the demand script
      without the plot, [demand_main], composing the components above in
      the order of the script; [r.univar] is a parameter giving each
      raster's output lines.
    - [Potential] (Module [Potential]): the potential script over an
      explicit [world] (files, [g.tempfile] counter, trace of messages and
      commands, the globals [TMP_*]) in a state-and-error monad [io] whose
      failures keep the state; the GRASS library and R are the class
      [GrassEnv]; [run_potential] is [main] followed by the [atexit]
      [cleanup].
    - [Main] (Module [Main]): the whole demand [main] with the [plot]
      option, [demand_main_plot], whose loop [demand_plot_loop] draws
      each subregion into the figure right after computing its demand,
      the figure [savefig] writes being an output of the run; the plain
      [Pipeline.demand_main] is the run without [plot].  The
      specification's demand table is the predicate
      [demand_table_contract].
    - [Options] (Module [Options]): the [#%option] blocks of both scripts
      (demand lines 20-78, potential lines 20-62) as [opt_spec] records,
      the checks [gcore.parser] applies to them (required options,
      [type: integer], [options:] lists, [options: 1-20] ranges, defaults
      from [answer:]), and the [__main__] blocks that run the parser and
      then [main] ([run_demand], [run_potential_process]).

    ** Numbers, bounds and evaluation

    Python floats are exact rationals [Q]: rounding is not modelled, so
    the theorems are statements about the real-number algorithm that the
    float code approximates.  [np.log], [np.exp], [np.sqrt] are the
    operations of [FloatLib]; every theorem holds for every instance.
    IEEE special values are modelled where the model needs them to
    follow the code's control flow, in the RMSE [sqrt(sum / (n - 2))],
    which is a [pyfloat] ([inf] or [nan] with two observations).  They
    are not modelled in the fits: [np.log] of a zero or negative
    population or development count ([-inf], [nan]) and an overflowing
    [np.exp] (lines 151, 153, 161, 164-165) would carry [inf] or [nan]
    into [lstsq] and the predictions, while [FloatLib] is total on [Q];
    the theorems about the logarithmic and exponential fits speak of
    runs where these values stay finite.  Integers ([int] of floats,
    [str] of integers, counts of [r.univar]) are unbounded [Z], as in
    Python; the Python 2 string hash of [PyDict] is kept at 64 bits, as
    the C [long] it is.  Every loop of both scripts is a [for] loop over
    a finite list (there is no [while] loop and no recursion) and is
    modelled by a structural recursion, so every operation of the
    scripts is a total function.  The one unbounded loop the behaviour
    depends on is CPython's probe loop of the dictionary [rmse]: [probe]
    runs on the fuel [probe_fuel = 21] (13 probes until [perturb] is 0,
    then 8 that visit every slot), and the termination theorem of
    [PyDict] proves that this fuel always reaches a free slot.  The one
    process whose end the scripts wait for, [Rscript], is outside the
    model ([GrassEnv]).  The examples are
    evaluated with [vm_compute] using the [Numerics] instance, whose
    series have enough terms for the [1e-12] rounding of their inputs.
    The one place where rounding of [np.sqrt] matters is the grid of the
    plot: [ceil(sqrt(n))] is large enough as long as [sqrt(n)] is not a
    whole unit below the exact root, the hypothesis of the plot theorem;
    the [Numerics] square root of [3] rounds below [sqrt 3] and still
    meets it.

    ** What the theorems show (claims C1-C38 of the manifest, by component)

    - Lstsq: [lstsq] returns a least-squares minimiser (refinement of
      [is_lsq_solution]); the linear fit recovers noise-free data; with
      two observations every RMSE is [inf] or [nan].
    - PyDict: the probe loop of the Python 2 dictionary ends within its
      fuel (termination).
    - Select: no requested method beats the selected one; ties go to the
      method met first in Python 2's iteration order of [rmse], which
      is not the order of the [method] option; a [nan] RMSE of the first
      key in that order is never replaced.
    - Demand: zero when the tested slope is
      negative; plain differences for monotone predictions; when each
      warning is emitted; and line 180 tests the slope of the last
      method, not of the selected one.
    - Interp: exact at the sample times, clamped outside them, within the
      sample bounds, monotone; a missing column fails.
    - Developed: the
      gathered table has distinct keys and the ids are its sorted keys
      (an invariant of every step of the loop); the table gathered from
      uniform [r.univar] outputs; the KeyError for a zone missing from
      the first raster.
    - Table: the line layout of the demand file, and its round trip:
      reading the written file back as integers gives, per simulation
      time, the truncated demand of every header subregion (0 when it
      has none).
    - Pipeline: a successful run writes non-negative demands for the
      sorted ids; its warnings come grouped by subregion in that same
      order, each group a negative-demand warning then an
      inverse-relation warning, either missing; the count check is fatal.
    - Main: refinement of the specification's demand table: the file a
      successful run writes reads back as one row per simulation time
      after the first, with, per header subregion, the truncated
      non-negative entry of its demand vector (one entry per interval) or
      [0].
    - Options: whatever the
      command line, no temporary file of the potential run is left on
      any exit path (the parser, [main] and the [atexit] hook composed);
      the gap between the
      parser's integer check ([sscanf]) and [float()]: a value such as
      [2020x] passes the parser and [main] raises [ValueError]; a method
      that abbreviates no option is rejected by the parser; with
      [max_variables] given, the check of [min_variables] against it
      never fires.
    - Plot and Main: drawing never changes the demand file or the
      warnings, and never makes a successful run fail (with a [sqrt]
      not a whole unit below the exact one and a rectangular population
      table): the saved figure is [5 * n_plots] square, with every
      subplot number in the grid; the simulated
      predictions lie on the drawn curve for each method; [x_pred] runs
      from the smallest observed to the largest simulated population.
    - Potential: the default option check (off by two), the events of a
      run up to the start of R ([v.db.select] into the CSV file, then
      [Rscript] with its argument list), the fatal error when R fails, the output table when
      R succeeds (a round trip through R's [write.table] format), the
      [IndexError] on a one-field first line.

    ** Not modelled, and why

    matplotlib's rendering is not modelled: [Plot] stops at the figure
    record (size, and per subplot its title, labels, points, curve,
    legend and tick rotation) that [savefig] writes; the geometry
    [tight_layout] computes and the image itself are matplotlib's.
    The GRASS parser is modelled only for the option attributes the two
    scripts use (no abbreviations of keys or values, no [--flags], no
    [GRASS_OVERWRITE]).  [r.univar], [v.db.select], [g.tempfile],
    [np.genfromtxt] and the R model fit ([glmer], [dredge]) belong to
    libraries and programs the scripts call: their results enter as
    parameters (the command line, the [r.univar] output lines, the
    parsed population tables, [GrassEnv]); their failures
    ([CalledModuleError] of [v.db.select], a missing [Rscript] binary for
    [Popen], a failing [g.tempfile]) are not modelled.  [np.linalg.lstsq]
    decides the rank of the design by a singular-value cut-off ([rcond]);
    [Lstsq] tests the determinant exactly, which is the same decision in
    exact arithmetic.  The Python 2 dictionary is modelled ([PyDict])
    only for the one dictionary whose iteration order the code depends
    on, [rmse], and only in its initial table of 8 slots (it never holds
    more than the three methods, below the sixth key at which CPython
    grows the table).  The set [subregionIds] (line 113) also iterates in
    hash order; the model keeps insertion order, which [sorted] (line
    125) makes irrelevant ([Developed.sort_strings_order_independent]). *)

From Stdlib Require Import String Ascii QArith Qround List Lia Lqa ZArith Bool.
From Stdlib Require Import Setoid Morphisms DecimalString.
Import ListNotations.

Declare Scope futures_scope.
Delimit Scope futures_scope with fut.
Open Scope Q_scope.

Create HintDb futures.

(** ** Python exceptions and the error monad *)

(** The exceptions the two scripts can raise.  [Fatal] is
    [gcore.fatal]/[gscript.fatal], which exits the program. *)
Inductive exc : Type :=
| Fatal (msg : string)
| KeyError (key : string)
| ValueError (what : string)
| IndexError (what : string)
| LinAlgError (what : string)
| IOError (path : string).

Inductive res (A : Type) : Type :=
| Ok (a : A)
| Err (e : exc).
Arguments Ok {A} a.
Arguments Err {A} e.

Definition bind {A B : Type} (c : res A) (k : A -> res B) : res B :=
  match c with
  | Ok a => k a
  | Err e => Err e
  end.

Notation "x <- c ;; k" := (bind c (fun x => k))
  (at level 61, c at next level, right associativity) : futures_scope.
Notation "' p <- c ;; k" := (bind c (fun '(p) => k))
  (at level 61, p pattern, c at next level, right associativity) : futures_scope.

Open Scope futures_scope.

(** [for x in l: f(x)] collecting the results, stopping at the first
    exception. *)
Fixpoint mapM {A B : Type} (f : A -> res B) (l : list A) : res (list B) :=
  match l with
  | [] => Ok []
  | x :: l' => y <- f x ;; ys <- mapM f l' ;; Ok (y :: ys)
  end.

Lemma bind_Ok {A B} (c : res A) (k : A -> res B) b :
  bind c k = Ok b -> exists a, c = Ok a /\ k a = Ok b.
Proof. destruct c; simpl; [eauto | discriminate]. Qed.

Lemma Ok_inj {A} (a b : A) : Ok a = Ok b -> a = b.
Proof. intros H; now inversion H. Qed.

Lemma mapM_length {A B} (f : A -> res B) l ys :
  mapM f l = Ok ys -> length ys = length l.
Proof.
  revert ys; induction l as [|x l IH]; intros ys H; simpl in H.
  - now inversion H.
  - apply bind_Ok in H as [y [_ H]]. apply bind_Ok in H as [ys' [H H']].
    inversion H'; subst. simpl. now rewrite (IH _ H).
Qed.

Lemma Forall2_mapM {A B} (f : A -> res B) l ys :
  Forall2 (fun x y => f x = Ok y) l ys -> mapM f l = Ok ys.
Proof. induction 1 as [|x y l ys Hxy _ IH]; simpl; [reflexivity|]. now rewrite Hxy, IH. Qed.

Lemma mapM_Forall2 {A B} (f : A -> res B) l ys :
  mapM f l = Ok ys -> Forall2 (fun x y => f x = Ok y) l ys.
Proof.
  revert ys; induction l as [|x l IH]; intros ys H; simpl in H.
  - inversion H; constructor.
  - apply bind_Ok in H as [y [Hy H]]. apply bind_Ok in H as [ys' [H H']].
    inversion H'; subst. constructor; auto.
Qed.

(** ** Boolean comparisons on [Q] *)

(** Python's [a < b] on floats. *)
Definition Qltb (a b : Q) : bool := negb (Qle_bool b a).

Lemma Qltb_true a b : Qltb a b = true <-> a < b.
Proof.
  unfold Qltb. rewrite negb_true_iff. split; intros H.
  - apply Qnot_le_lt. intros H'. apply Qle_bool_iff in H'. congruence.
  - destruct (Qle_bool b a) eqn:E; [|reflexivity].
    apply Qle_bool_iff in E. exfalso. apply (Qlt_not_le _ _ H E).
Qed.

Lemma Qltb_false a b : Qltb a b = false <-> b <= a.
Proof.
  unfold Qltb. rewrite negb_false_iff. apply Qle_bool_iff.
Qed.

Lemma Qle_bool_false a b : Qle_bool a b = false -> b < a.
Proof.
  intros H. apply Qnot_le_lt. intros H'. apply Qle_bool_iff in H'. congruence.
Qed.

#[export] Instance Qltb_proper : Proper (Qeq ==> Qeq ==> eq) Qltb.
Proof.
  intros a a' Ha b b' Hb. destruct (Qltb a' b') eqn:E.
  - apply Qltb_true. apply Qltb_true in E. now rewrite Ha, Hb.
  - apply Qltb_false. apply Qltb_false in E. now rewrite Ha, Hb.
Qed.

(** Turn the boolean comparisons of the hypotheses into propositions. *)
Ltac qbool :=
  repeat match goal with
  | H : Qltb _ _ = true |- _ => apply Qltb_true in H
  | H : Qltb _ _ = false |- _ => apply Qltb_false in H
  | H : Qle_bool _ _ = true |- _ => apply Qle_bool_iff in H
  | H : Qle_bool _ _ = false |- _ => apply Qle_bool_false in H
  | H : Qeq_bool _ _ = true |- _ => apply Qeq_bool_iff in H
  | H : Qeq_bool _ _ = false |- _ => apply Qeq_bool_neq in H
  end.

(** Case on a boolean comparison and record its meaning. *)
Ltac qcase e := let E := fresh "E" in destruct e eqn:E; qbool.

(** Evaluate a hypothesis with the virtual machine.  Reducing the
    hypothesis in place ([vm_compute in H]) leaves no cast in the proof
    term and the kernel re-checks it by slow lazy reduction; moving it to
    the goal first records a VM cast the kernel checks quickly. *)
Ltac vm_in H := revert H; vm_compute; intros H.

(** Refute a hypothesis [e = Err _] (or [e = Ok _]) whose left side
    evaluates to the other constructor; the goal is dropped first so that
    the evaluation does not normalise it. *)
Ltac vm_absurd H := exfalso; revert H; vm_compute; let H' := fresh in intros H'; discriminate H'.

(** ** Python float values *)

(** A float of the RMSE computation: finite, [inf], [-inf] or [nan]. *)
Inductive pyfloat : Type :=
| PFin (q : Q)
| PInf
| PNInf
| PNaN.

(** Python's [<] on floats: every comparison with [nan] is false. *)
Definition py_lt (a b : pyfloat) : bool :=
  match a, b with
  | PFin x, PFin y => Qltb x y
  | PFin _, PInf | PNInf, PFin _ | PNInf, PInf => true
  | _, _ => false
  end.

(** Equality of float values, up to [Qeq] on the finite ones. *)
Definition pfeq (a b : pyfloat) : Prop :=
  match a, b with
  | PFin x, PFin y => x == y
  | PInf, PInf | PNInf, PNInf | PNaN, PNaN => True
  | _, _ => False
  end.

#[export] Instance pfeq_equiv : Equivalence pfeq.
Proof.
  split.
  - intros []; simpl; auto; reflexivity.
  - intros [] []; simpl; auto. intros H; now symmetry.
  - intros [] [] []; simpl; try tauto. intros H1 H2; now rewrite H1.
Qed.

#[export] Instance py_lt_proper : Proper (pfeq ==> pfeq ==> eq) py_lt.
Proof.
  intros [a| | |] [a'| | |] Ha [b| | |] [b'| | |] Hb; simpl in *;
    try contradiction; try reflexivity.
  now rewrite Ha, Hb.
Qed.

Definition is_nan (a : pyfloat) : bool :=
  match a with PNaN => true | _ => false end.

Lemma py_lt_irrefl a : py_lt a a = false.
Proof.
  destruct a; simpl; auto. apply Qltb_false, Qle_refl.
Qed.

(** Without [nan], Python's [<] is a strict total order. *)
Lemma py_lt_trans a b c : py_lt a b = true -> py_lt b c = true -> py_lt a c = true.
Proof.
  destruct a, b, c; simpl; try discriminate; auto.
  intros H1 H2; qbool; apply Qltb_true; eapply Qlt_trans; eauto.
Qed.

Lemma py_lt_total a b :
  is_nan a = false -> is_nan b = false ->
  py_lt a b = false -> py_lt b a = false -> pfeq a b.
Proof.
  destruct a, b; simpl; try discriminate; auto.
  intros _ _ H1 H2; qbool. now apply Qle_antisym.
Qed.

(** [float / int] as numpy evaluates it: dividing by zero gives [nan]
    for [0/0] and a signed infinity otherwise. *)
Definition py_div (s : Q) (d : Z) : pyfloat :=
  if Z.eqb d 0 then
    (if Qeq_bool s 0 then PNaN else if Qltb 0 s then PInf else PNInf)
  else PFin (s / inject_Z d).

(** ** The numpy functions the scripts call *)

(** [np.log], [np.exp] and [np.sqrt] on finite arguments.  The model is
    parametric in them; [py_sqrt] adds numpy's rules for negative and
    special arguments. *)
Class FloatLib := {
  f_log : Q -> Q;
  f_exp : Q -> Q;
  f_sqrt : Q -> Q
}.

(** What the selection theorems need of [np.sqrt]: it respects equality
    and is strictly increasing on the non-negative numbers. *)
Class SqrtLaws `{FloatLib} := {
  sqrt_proper : Proper (Qeq ==> Qeq) f_sqrt;
  sqrt_strict_mono : forall a b, 0 <= a -> a < b -> f_sqrt a < f_sqrt b
}.

Definition py_sqrt `{FloatLib} (x : pyfloat) : pyfloat :=
  match x with
  | PFin q => if Qltb q 0 then PNaN else PFin (f_sqrt q)
  | PInf => PInf
  | PNInf | PNaN => PNaN
  end.

(** ** Sums of lists of rationals *)

Definition qsum (l : list Q) : Q := fold_right Qplus 0 l.

Definition sq (x : Q) : Q := x * x.

#[export] Instance sq_proper : Proper (Qeq ==> Qeq) sq.
Proof. intros a b Hab. unfold sq. now rewrite Hab. Qed.

Lemma qsum_app l1 l2 : qsum (l1 ++ l2) == qsum l1 + qsum l2.
Proof.
  induction l1 as [|x l IH]; simpl.
  - ring.
  - rewrite IH; ring.
Qed.

Lemma qsum_sq_nonneg l : 0 <= qsum (map sq l).
Proof.
  induction l as [|x l IH]; simpl.
  - apply Qle_refl.
  - unfold sq at 1. nra.
Qed.

(** A sum of squares vanishes only when every term does. *)
Lemma qsum_sq_zero l : qsum (map sq l) == 0 -> Forall (fun x => x == 0) l.
Proof.
  induction l as [|x l IH]; simpl; intros H; constructor.
  - pose proof (qsum_sq_nonneg l). unfold sq in *. nra.
  - apply IH. pose proof (qsum_sq_nonneg l). unfold sq in *. nra.
Qed.

Lemma qsum_sq_all_zero l : Forall (fun x => x == 0) l -> qsum (map sq l) == 0.
Proof.
  induction 1 as [|x l Hx _ IH]; simpl.
  - reflexivity.
  - rewrite IH. unfold sq. rewrite Hx. ring.
Qed.

#[export] Hint Resolve qsum_sq_nonneg Qle_refl : futures.

(** ** Lists *)

(** Element-wise combination of two lists of the same length (numpy's
    element-wise arithmetic once the lengths have been checked). *)
Fixpoint map2 {A B C : Type} (f : A -> B -> C) (l1 : list A) (l2 : list B) : list C :=
  match l1, l2 with
  | x :: l1', y :: l2' => f x y :: map2 f l1' l2'
  | _, _ => []
  end.

Lemma length_map2 {A B C} (f : A -> B -> C) l1 l2 :
  length (map2 f l1 l2) = Nat.min (length l1) (length l2).
Proof.
  revert l2; induction l1 as [|x l1 IH]; intros [|y l2]; simpl; auto.
Qed.

Lemma last_default {A} (q : A) l d d' : last (q :: l) d = last (q :: l) d'.
Proof.
  revert q; induction l as [|r l IH]; intros q; [reflexivity|].
  change (last (r :: l) d = last (r :: l) d'). apply IH.
Qed.

Lemma last_in_list {A} (l : list A) d : l <> [] -> In (last l d) l.
Proof.
  induction l as [|x l IH]; intros Hne; [congruence|].
  destruct l as [|y l]; [left; reflexivity|]. right. apply IH. discriminate.
Qed.

(** ** Sortedness checked by a boolean test on adjacent elements *)

Fixpoint adjacent_all {A : Type} (r : A -> A -> bool) (l : list A) : bool :=
  match l with
  | x :: ((y :: _) as t) => r x y && adjacent_all r t
  | _ => true
  end.

From Stdlib Require Import Sorted.

Lemma adjacent_all_Sorted {A} (r : A -> A -> bool) (R : A -> A -> Prop) l :
  (forall a b, r a b = true -> R a b) -> adjacent_all r l = true -> Sorted R l.
Proof.
  intros HR. induction l as [|x l IH]; intros H; [constructor|].
  destruct l as [|y l]; [repeat constructor|].
  simpl in H. apply andb_true_iff in H as [H1 H2].
  constructor; [now apply IH | constructor; now apply HR].
Qed.

(** Sortedness of the first or second components of [combine]. *)
Lemma Sorted_combine_fst {A B} (R : A -> A -> Prop) (l1 : list A) (l2 : list B) :
  Sorted R l1 -> Sorted (fun p q => R (fst p) (fst q)) (combine l1 l2).
Proof.
  revert l2; induction l1 as [|x l1 IH]; intros [|y l2] H; simpl; try constructor.
  - inversion H; subst; auto.
  - destruct l1 as [|x' l1], l2 as [|y' l2]; simpl; constructor.
    inversion H as [|? ? _ Hd]; subst. now inversion Hd.
Qed.

Lemma Sorted_combine_snd {A B} (R : B -> B -> Prop) (l1 : list A) (l2 : list B) :
  Sorted R l2 -> Sorted (fun p q => R (snd p) (snd q)) (combine l1 l2).
Proof.
  revert l2; induction l1 as [|x l1 IH]; intros [|y l2] H; simpl; try constructor.
  - inversion H; subst; auto.
  - destruct l1 as [|x' l1], l2 as [|y' l2]; simpl; constructor.
    inversion H as [|? ? _ Hd]; subst. now inversion Hd.
Qed.

Lemma StronglySorted_head {A} (R : A -> A -> Prop) x l y :
  StronglySorted R (x :: l) -> In y l -> R x y.
Proof.
  intros H Hy. inversion H as [|? ? _ Hall]; subst.
  now apply (proj1 (Forall_forall _ _) Hall).
Qed.

Lemma nth_error_combine {A B} (l1 : list A) (l2 : list B) k a b :
  nth_error l1 k = Some a -> nth_error l2 k = Some b ->
  nth_error (combine l1 l2) k = Some (a, b).
Proof.
  revert l2 k; induction l1 as [|x l1 IH]; intros [|y l2] [|k] H1 H2;
    simpl in *; try discriminate.
  - congruence.
  - now apply IH.
Qed.

Lemma last_combine_snd {A B} (l1 : list A) (l2 : list B) d d' :
  length l1 = length l2 -> l2 <> [] ->
  snd (last (combine l1 l2) d) = last l2 d'.
Proof.
  revert l2; induction l1 as [|x l1 IH]; intros [|y l2] Hl Hne; simpl in *;
    try discriminate; try congruence.
  destruct l1 as [|x' l1], l2 as [|y' l2]; simpl in *; try discriminate; auto.
  apply (IH (y' :: l2)); [simpl; congruence | discriminate].
Qed.

Lemma adjacent_all_map {A B} (r : A -> A -> bool) (r' : B -> B -> bool) (f : A -> B) l :
  (forall a b, r a b = true -> r' (f a) (f b) = true) ->
  adjacent_all r l = true -> adjacent_all r' (map f l) = true.
Proof.
  intros Hf. induction l as [|x l IH]; intros H; [reflexivity|].
  destruct l as [|y l]; [reflexivity|].
  simpl in H. apply andb_true_iff in H as [H1 H2].
  change (r' (f x) (f y) && adjacent_all r' (map f (y :: l)) = true).
  rewrite Hf by exact H1. now apply IH.
Qed.

Lemma Forall_combine_fst {A B} (P : A -> Prop) (l1 : list A) (l2 : list B) :
  Forall P l1 -> Forall (fun p => P (fst p)) (combine l1 l2).
Proof.
  intros H; revert l2; induction H as [|x l Hx _ IH]; intros [|y l']; simpl; constructor; auto.
Qed.

Lemma Forall_combine_snd {A B} (P : B -> Prop) (l1 : list A) (l2 : list B) :
  Forall P l2 -> Forall (fun p => P (snd p)) (combine l1 l2).
Proof.
  intros H; revert l1; induction H as [|y l Hy _ IH]; intros [|x l']; simpl; constructor; auto.
Qed.

Lemma Forall2_in_left {A B} (R : A -> B -> Prop) l1 l2 x :
  Forall2 R l1 l2 -> In x l1 -> exists y, In y l2 /\ R x y.
Proof.
  induction 1 as [|a b l1 l2 Hab _ IH]; intros Hin; [destruct Hin|].
  destruct Hin as [<-|Hin]; [exists b; simpl; auto|].
  destruct (IH Hin) as [y [Hy Hr]]. exists y; simpl; auto.
Qed.

(** [a < b] and [b <= c] give [a < c] when [b] and [c] are not [nan]. *)
Lemma py_lt_le_trans a b c :
  is_nan b = false -> is_nan c = false ->
  py_lt a b = true -> py_lt c b = false -> py_lt a c = true.
Proof.
  destruct a, b, c; simpl; try discriminate; auto.
  intros _ _ H1 H2; qbool. apply Qltb_true. eapply Qlt_le_trans; eauto.
Qed.

(** ** Strings: Python's [str.split(c)], [c.join(l)] and lines *)

Definition tab : ascii := ascii_of_nat 9.
Definition nl : ascii := ascii_of_nat 10.
Definition comma : ascii := ","%char.

(** [s.split(c)]: every occurrence of [c] separates two fields, empty
    fields included. *)
Fixpoint split_on (c : ascii) (s : string) : list string :=
  match s with
  | EmptyString => [EmptyString]
  | String a s' =>
      if Ascii.eqb a c then EmptyString :: split_on c s'
      else match split_on c s' with
           | [] => [String a EmptyString]
           | w :: ws => String a w :: ws
           end
  end.

(** [c.join(l)]. *)
Fixpoint join (c : ascii) (l : list string) : string :=
  match l with
  | [] => EmptyString
  | [w] => w
  | w :: ws => append w (String c (join c ws))
  end.

(** Text written line by line, every line followed by a newline. *)
Definition concat_lines (ls : list string) : string :=
  fold_right (fun l acc => append l (String nl acc)) EmptyString ls.

(** The whitespace [str.strip()] removes: space, tab, newline, vertical
    tab, form feed and carriage return. *)
Definition is_space (c : ascii) : bool :=
  let n := nat_of_ascii c in Nat.eqb n 32 || (Nat.leb 9 n && Nat.leb n 13).

Fixpoint lstrip (p : ascii -> bool) (s : string) : string :=
  match s with
  | EmptyString => EmptyString
  | String c s' => if p c then lstrip p s' else s
  end.

Fixpoint rstrip (p : ascii -> bool) (s : string) : string :=
  match s with
  | EmptyString => EmptyString
  | String c s' =>
      match rstrip p s' with
      | EmptyString => if p c then EmptyString else String c EmptyString
      | r => String c r
      end
  end.

(** [s.strip()] with [p = is_space]; with [p = is_quote] it strips the
    double quotes as line 170 does. *)
Definition strip (p : ascii -> bool) (s : string) : string := rstrip p (lstrip p s).

(** Every character satisfies [p]. *)
Fixpoint all_chars (p : ascii -> bool) (s : string) : bool :=
  match s with
  | EmptyString => true
  | String c s' => p c && all_chars p s'
  end.

(** The value of a decimal digit. *)
Definition digit_value (c : ascii) : option Z :=
  let n := nat_of_ascii c in
  if (Nat.leb 48 n && Nat.leb n 57)%bool then Some (Z.of_nat (n - 48)) else None.

(** The longest run of digits at the front of [s], appended to [acc]:
    the new accumulator, the number of digits read, and the rest. *)
Fixpoint read_digits (s : string) (acc : Z) (n : nat) : Z * nat * string :=
  match s with
  | String c r =>
      match digit_value c with
      | Some d => read_digits r (acc * 10 + d)%Z (S n)
      | None => (acc, n, s)
      end
  | EmptyString => (acc, n, EmptyString)
  end.

(** An optional [+] or [-]: whether it was [-], and the rest. *)
Definition read_sign (s : string) : bool * string :=
  match s with
  | String c r =>
      if Ascii.eqb c "-"%char then (true, r)
      else if Ascii.eqb c "+"%char then (false, r) else (false, s)
  | EmptyString => (false, EmptyString)
  end.

(** [int(s)] on a string without surrounding whitespace: a sign and at
    least one decimal digit, and nothing else. *)
Definition py_int_literal (t : string) : option Z :=
  let '(neg, t1) := read_sign t in
  let '(v, n, rest) := read_digits t1 0 0 in
  match rest with
  | EmptyString => if Nat.eqb n 0 then None else Some (if neg then - v else v)%Z
  | String _ _ => None
  end.

(** [int(s)]: surrounding whitespace is ignored. *)
Definition py_int_of_string (s : string) : res Z :=
  match py_int_literal (strip is_space s) with
  | Some z => Ok z
  | None => Err (ValueError (append "invalid literal for int(): " s))
  end.

(** [float(s)] on a finite decimal literal: a sign, digits with an
    optional point and fraction (at least one digit), an optional
    exponent [e] or [E] with a sign and digits, and nothing else.  The
    literals [inf], [infinity] and [nan], which [float()] also reads, are
    not modelled and give [None]: a value that passed the integer check
    of the GRASS parser starts with a digit or a sign. *)
Definition py_float_literal (t : string) : option Q :=
  let '(neg, t1) := read_sign t in
  let '(ip, ni, t2) := read_digits t1 0 0 in
  let '(mant, nf, t3) :=
    match t2 with
    | String c r => if Ascii.eqb c "."%char then read_digits r ip 0 else (ip, O, t2)
    | EmptyString => (ip, O, t2)
    end in
  let '(ex, ok, t4) :=
    match t3 with
    | String c r =>
        if (Ascii.eqb c "e"%char || Ascii.eqb c "E"%char)%bool then
          let '(eneg, r1) := read_sign r in
          let '(ev, ne, r2) := read_digits r1 0 0 in
          ((if eneg then - ev else ev)%Z, negb (Nat.eqb ne 0), r2)
        else (0%Z, true, t3)
    | EmptyString => (0%Z, true, t3)
    end in
  match t4 with
  | EmptyString =>
      if (ok && negb (Nat.eqb (ni + nf) 0))%bool
      then Some (inject_Z (if neg then - mant else mant)%Z * Qpower 10 (ex - Z.of_nat nf)%Z)
      else None
  | String _ _ => None
  end.

(** [float(s)]: surrounding whitespace is ignored. *)
Definition py_float_of_string (s : string) : res Q :=
  match py_float_literal (strip is_space s) with
  | Some q => Ok q
  | None => Err (ValueError (append "could not convert string to float: " s))
  end.

(** The string does not contain the character. *)
Fixpoint no_char (c : ascii) (s : string) : bool :=
  match s with
  | EmptyString => true
  | String a s' => negb (Ascii.eqb a c) && no_char c s'
  end.

Lemma split_on_no_char c w : no_char c w = true -> split_on c w = [w].
Proof.
  induction w as [|a w IH]; simpl; [reflexivity|].
  intros H. apply andb_true_iff in H as [Ha Hw]. apply negb_true_iff in Ha.
  rewrite Ha, IH by exact Hw. reflexivity.
Qed.

Lemma split_on_append c w s :
  no_char c w = true -> split_on c (append w (String c s)) = w :: split_on c s.
Proof.
  induction w as [|a w IH]; intros H; simpl.
  - rewrite Ascii.eqb_refl. reflexivity.
  - apply andb_true_iff in H as [Ha Hw]. apply negb_true_iff in Ha.
    rewrite Ha, IH by exact Hw. reflexivity.
Qed.

(** Round trip: splitting a join gives the fields back. *)
Lemma split_join c l :
  l <> [] -> Forall (fun w => no_char c w = true) l -> split_on c (join c l) = l.
Proof.
  induction l as [|w l IH]; intros Hne Hall; [congruence|].
  inversion Hall as [|? ? Hw Hl]; subst.
  destruct l as [|w' l]; simpl.
  - now apply split_on_no_char.
  - change (split_on c (append w (String c (join c (w' :: l)))) = w :: w' :: l).
    rewrite split_on_append by exact Hw. f_equal. apply IH; [discriminate|exact Hl].
Qed.

(** Round trip: splitting written lines at newlines gives the lines back,
    followed by the empty text after the last newline. *)
Lemma split_concat_lines ls :
  Forall (fun l => no_char nl l = true) ls -> split_on nl (concat_lines ls) = ls ++ [EmptyString].
Proof.
  induction 1 as [|l ls Hl _ IH]; [reflexivity|].
  simpl. rewrite split_on_append by exact Hl. now rewrite IH.
Qed.

Lemma no_char_append c a b :
  no_char c (append a b) = no_char c a && no_char c b.
Proof.
  induction a as [|x a IH]; simpl; [reflexivity|]. rewrite IH. apply andb_assoc.
Qed.

Lemma no_char_join c d l :
  c <> d -> Forall (fun w => no_char c w = true) l -> no_char c (join d l) = true.
Proof.
  intros Hcd. induction 1 as [|w l Hw _ IH]; [reflexivity|].
  destruct l as [|w' l]; [exact Hw|].
  change (no_char c (append w (String d (join d (w' :: l)))) = true).
  rewrite no_char_append, Hw. cbn [no_char andb]. rewrite IH, andb_true_r.
  apply negb_true_iff. apply Ascii.eqb_neq. auto.
Qed.

Lemma rstrip_none p s : all_chars (fun c => negb (p c)) s = true -> rstrip p s = s.
Proof.
  induction s as [|c s IH]; simpl; [auto|].
  intros H. apply andb_true_iff in H as [Hc Hs]. apply negb_true_iff in Hc.
  rewrite IH by exact Hs. destruct s; [now rewrite Hc|reflexivity].
Qed.

Lemma lstrip_none p s : all_chars (fun c => negb (p c)) s = true -> lstrip p s = s.
Proof.
  destruct s as [|c s]; simpl; [auto|].
  intros H. apply andb_true_iff in H as [Hc _]. apply negb_true_iff in Hc. now rewrite Hc.
Qed.

Lemma strip_none p s : all_chars (fun c => negb (p c)) s = true -> strip p s = s.
Proof. intros H. unfold strip. rewrite lstrip_none by exact H. now apply rstrip_none. Qed.


(** [rstrip] removes a suffix of characters satisfying [p]. *)
Lemma rstrip_split p s : exists w, s = append (rstrip p s) w /\ all_chars p w = true.
Proof.
  induction s as [|c s [w [Hs Hw]]]; [now exists EmptyString|].
  revert Hs. cbn [rstrip]. destruct (rstrip p s) as [|c' r]; intros Hs.
  - destruct (p c) eqn:Hc.
    + exists (String c s). split; [reflexivity|]. cbn in Hs |- *. rewrite Hc. now subst.
    + exists w. cbn in Hs |- *. now rewrite Hs.
  - exists w. cbn [append]. now rewrite Hs.
Qed.

Lemma read_sign_app t w :
  t <> EmptyString -> read_sign (append t w) = (fst (read_sign t), append (snd (read_sign t)) w).
Proof.
  destruct t as [|c r]; [congruence|]. intros _. cbn [append read_sign].
  destruct (Ascii.eqb c "-"%char), (Ascii.eqb c "+"%char); reflexivity.
Qed.

Lemma read_digits_app t acc n v k w :
  read_digits t acc n = (v, k, EmptyString) ->
  (forall c r, w = String c r -> digit_value c = None) ->
  read_digits (append t w) acc n = (v, k, w).
Proof.
  revert acc n. induction t as [|c t IH]; intros acc n Ht Hw; cbn [append read_digits] in *.
  - injection Ht as <- <-. destruct w as [|c r]; [reflexivity|]. cbn [read_digits]. now rewrite (Hw c r eq_refl).
  - destruct (digit_value c); [now apply IH|discriminate].
Qed.

Lemma space_not_digit c : is_space c = true -> digit_value c = None.
Proof.
  unfold is_space, digit_value. set (n := nat_of_ascii c).
  rewrite orb_true_iff, andb_true_iff, Nat.eqb_eq, !Nat.leb_le. intros Hs.
  destruct (Nat.leb 48 n && Nat.leb n 57)%bool eqn:E; [|reflexivity].
  apply andb_true_iff in E as [E1 E2]. apply Nat.leb_le in E1, E2. lia.
Qed.

(** [mapM] stops at the first failure: when some element fails, so does
    the whole, with an error of the same kind. *)
Lemma mapM_Exists_Err {A B} (f : A -> res B) (P : exc -> Prop) l :
  (forall x e, f x = Err e -> P e) -> Exists (fun x => exists e, f x = Err e) l ->
  exists e, mapM f l = Err e /\ P e.
Proof.
  intros HP. induction l as [|x l IH]; intros Hex; [inversion Hex|]. cbn [mapM].
  destruct (f x) as [y|e] eqn:Hx; cbn [bind].
  - inversion Hex as [? ? [e He]|? ? Hl]; subst; [congruence|].
    destruct (IH Hl) as [e [He HPe]]. rewrite He. now exists e.
  - exists e. split; [reflexivity|]. eapply HP; eassumption.
Qed.

(** [Forall2_impl] where the new relation may use membership on the left. *)
Lemma Forall2_impl_in {A B} (R R' : A -> B -> Prop) l1 l2 :
  (forall x y, In x l1 -> R x y -> R' x y) -> Forall2 R l1 l2 -> Forall2 R' l1 l2.
Proof.
  intros HR H. induction H as [|x y l1 l2 Hxy _ IH]; constructor.
  - apply HR; [now left|exact Hxy].
  - apply IH. intros x' y' Hin. apply HR. now right.
Qed.
