(* ===== verification/Numerics.v ===== *)
(** * A computable instance of the [FloatLib] interface

    The demand script calls [np.log], [np.exp] and [np.sqrt].  The model
    takes them from the class [FloatLib]; to run the model on concrete
    inputs (the witnesses and the scenarios of the spec) this file gives
    rational approximations with about twelve correct decimals:
    Newton's iteration for the square root, the [atanh] series after a
    reduction by powers of two for the logarithm, and the Taylor series
    after halving and repeated squaring for the exponential.  Every
    argument and intermediate value is rounded down to a multiple of
    [10^-12] so that the rationals stay small. *)

From S2P Require Import Prelude.
From Stdlib Require Import QArith Qround ZArith List.
Open Scope Q_scope.

Definition scale : positive := 1000000000000%positive.

(** Round down to a multiple of [1/scale]. *)
Definition qround (q : Q) : Q := Qmake (Qfloor (q * inject_Z (Zpos scale))) scale.

Fixpoint iter {A} (n : nat) (f : A -> A) (a : A) : A :=
  match n with O => a | S n' => iter n' f (f a) end.

(** Newton's iteration from [(q + 1) / 2], which is above [sqrt q]. *)
Definition qsqrt (q0 : Q) : Q :=
  let q := qround q0 in
  if Qle_bool q 0 then 0
  else iter 60 (fun x => qround ((x + q / x) / 2)) (qround ((q + 1) / 2)).

(** [2 * atanh z = 2 * sum z^(2i+1) / (2i+1)], for [|z| <= 1/3]. *)
Definition atanh2 (z : Q) : Q :=
  let z2 := qround (z * z) in
  let fix go (n : nat) (k : positive) (zp acc : Q) : Q :=
    match n with
    | O => acc
    | S n' => go n' (k + 2)%positive (qround (zp * z2)) (qround (acc + zp / inject_Z (Zpos k)))
    end in
  2 * go 30%nat 1%positive z 0.

Definition ln2 : Q := atanh2 (1 # 3).

(** [ln x = k ln 2 + ln (x / 2^k)] with [x / 2^k] in [[1, 2)]. *)
Definition qln_ge1 (x : Q) : Q :=
  let k := Z.log2 (Qfloor x) in
  let y := x / inject_Z (2 ^ k) in
  inject_Z k * ln2 + atanh2 ((y - 1) / (y + 1)).

Definition qln (x0 : Q) : Q :=
  let x := qround x0 in
  if Qle_bool x 0 then 0
  else if Qle_bool 1 x then qln_ge1 x else - qln_ge1 (/ x).

(** [exp x = (exp (x / 2^k))^(2^k)] with [x / 2^k < 1]. *)
Definition qexp_nonneg (x : Q) : Q :=
  let k := Z.to_nat (Z.log2 (Qfloor x) + 1) in
  let y := x / inject_Z (2 ^ Z.of_nat k) in
  let fix taylor (n : nat) (i : positive) (term acc : Q) : Q :=
    match n with
    | O => acc
    | S n' => let t := qround (term * y / inject_Z (Zpos i)) in
              taylor n' (i + 1)%positive t (acc + t)
    end in
  iter k (fun e => qround (e * e)) (taylor 25%nat 1%positive 1 1).

Definition qexp (x0 : Q) : Q :=
  let x := qround x0 in
  if Qle_bool 0 x then qexp_nonneg x else / qexp_nonneg (- x).

#[export] Instance approx_lib : FloatLib := {|
  f_log := qln;
  f_exp := qexp;
  f_sqrt := qsqrt
|}.

