(* ===== verification/Interp.v ===== *)
(** * Interpolator: [np.interp] and [population_for_simulated_times]

    [r.futures.demand.py] lines 126-132 interpolate the population of
    every subregion at the simulation times, over the observed samples
    followed by the projected ones.  [interp] is numpy's [interp] with its
    default [left]/[right] (the first and last sample values): below the
    first sample time it returns the first value, at or beyond the last
    one the last value, at a sample time the sample value and in between
    the straight line through the two neighbouring samples.  numpy finds
    the segment by binary search and requires, without checking it, that
    the sample times increase; [interp_from] scans the segments in order,
    which finds the same segment when they do increase. *)

From S2P Require Import Prelude.
From Stdlib Require Import String QArith Arith List Lia Lqa Sorted.
Import ListNotations.
Open Scope Q_scope.
Open Scope futures_scope.

Module Interp.

(** ** Definitions *)

(** [interp_from x p rest]: [p = (xp[j], fp[j])] with [xp[j] <= x] is the
    current sample and [rest] the samples after it. *)
Fixpoint interp_from (x : Q) (p : Q * Q) (rest : list (Q * Q)) : Q :=
  match rest with
  | [] => snd p
  | q :: rest' =>
      if Qltb x (fst q) then
        (if Qeq_bool (fst p) x then snd p
         else (snd q - snd p) / (fst q - fst p) * (x - fst p) + snd p)
      else interp_from x q rest'
  end.

(** One target time against the (time, value) samples. *)
Definition interp_point (x : Q) (pts : list (Q * Q)) : Q :=
  match pts with
  | [] => 0
  | p :: rest => if Qltb x (fst p) then snd p else interp_from x p rest
  end.

(** [np.interp(x=xs, xp=xp, fp=fp)]. *)
Definition interp (xs xp fp : list Q) : res (list Q) :=
  match xp with
  | [] => Err (ValueError "array of sample points is empty")
  | _ =>
      if Nat.eqb (length xp) (length fp)
      then Ok (map (fun x => interp_point x (combine xp fp)) xs)
      else Err (ValueError "fp and xp are not of the same length.")
  end.

(** A population table read by [np.genfromtxt(..., names=True)]: its
    columns in header order, the time column first. *)
Record pop_table : Type := {
  pt_columns : list (string * list Q)
}.

(** [observed_popul[name]]: a missing field raises [ValueError]. *)
Definition pt_column (t : pop_table) (name : string) : res (list Q) :=
  match find (fun c => String.eqb (fst c) name) (pt_columns t) with
  | Some c => Ok (snd c)
  | None => Err (ValueError ("no field of name " ++ name))
  end.

(** [dtype.names]: the header, in file order. *)
Definition pt_names (t : pop_table) : list string := map fst (pt_columns t).

(** [t[t.dtype.names[0]]]: the time column. *)
Definition pt_times (t : pop_table) : res (list Q) :=
  match pt_columns t with
  | c :: _ => Ok (snd c)
  | [] => Err (IndexError "tuple index out of range")
  end.

(** Lines 127-132: for every subregion key of the developed-cell table,
    interpolate its observed-then-projected population at the simulation
    times.  The result is the dictionary as a list of (key, values). *)
Definition population_for_simulated_times (keys : list string)
    (observed_popul projected_popul : pop_table) (simulation_times : list Q)
    : res (list (string * list Q)) :=
  observed_times <- pt_times observed_popul ;;
  projected_times <- pt_times projected_popul ;;
  mapM (fun sub =>
          obs <- pt_column observed_popul sub ;;
          proj <- pt_column projected_popul sub ;;
          v <- interp simulation_times (observed_times ++ projected_times) (obs ++ proj) ;;
          Ok (sub, v)) keys.

(** Strictly increasing sample times, as a check that computes. *)
Definition increasing (l : list Q) : bool := adjacent_all Qltb l.

(** Non-decreasing sample values. *)
Definition nondecreasing (l : list Q) : bool := adjacent_all Qle_bool l.

(** ** The samples, as a strictly sorted list of pairs *)

Definition time_lt (p q : Q * Q) : Prop := fst p < fst q.

Lemma increasing_strongly_sorted xp fp :
  increasing xp = true -> StronglySorted time_lt (combine xp fp).
Proof.
  intros H. apply Sorted_StronglySorted.
  - intros a b c; unfold time_lt; apply Qlt_trans.
  - apply (Sorted_combine_fst Qlt). apply (adjacent_all_Sorted Qltb); auto.
    intros a b; apply Qltb_true.
Qed.

Definition value_le (p q : Q * Q) : Prop := snd p <= snd q.

Lemma nondecreasing_strongly_sorted xp fp :
  nondecreasing fp = true -> StronglySorted value_le (combine xp fp).
Proof.
  intros H. apply Sorted_StronglySorted.
  - intros a b c; unfold value_le; apply Qle_trans.
  - apply (Sorted_combine_snd Qle). apply (adjacent_all_Sorted Qle_bool); auto.
    intros a b; apply Qle_bool_iff.
Qed.

(** A point of a segment: the straight line through [(xp, yp)] and
    [(xq, yq)] stays between any bounds of its two ends. *)
Lemma segment_between xp xq yp yq x lo hi :
  xp <= x -> x <= xq -> xp < xq ->
  lo <= yp <= hi -> lo <= yq <= hi ->
  lo <= (yq - yp) / (xq - xp) * (x - xp) + yp <= hi.
Proof.
  intros H1 H2 H3 [Hp1 Hp2] [Hq1 Hq2].
  assert (Hd : 0 < xq - xp) by lra.
  set (t := (x - xp) / (xq - xp)).
  assert (Ht0 : 0 <= t) by (apply Qle_shift_div_l; lra).
  assert (Ht1 : t <= 1) by (apply Qle_shift_div_r; lra).
  assert (E : (yq - yp) / (xq - xp) * (x - xp) == (yq - yp) * t)
    by (unfold t; field; intros Hz; lra).
  rewrite E. split; nra.
Qed.

(** ** The segment search *)

Section Segments.

Variable x : Q.

(** At or beyond every later sample time the value is the last sample. *)
Lemma interp_from_right p rest :
  Forall (fun pt => fst pt <= x) rest ->
  interp_from x p rest = snd (last (p :: rest) p).
Proof.
  revert p; induction rest as [|q rest IH]; intros p Hx; [reflexivity|].
  inversion Hx as [|? ? Hq Hx']; subst. simpl interp_from.
  qcase (Qltb x (fst q)); [exfalso; now apply (Qlt_not_le _ _ E)|].
  rewrite IH by exact Hx'. change (snd (last (q :: rest) q) = snd (last (q :: rest) p)).
  now rewrite (last_default q rest q p).
Qed.

(** Inside the segment [p, q] both branches of numpy's code give the
    straight line. *)
Lemma segment_value p q :
  (if Qeq_bool (fst p) x then snd p
   else (snd q - snd p) / (fst q - fst p) * (x - fst p) + snd p)
  == (snd q - snd p) / (fst q - fst p) * (x - fst p) + snd p.
Proof.
  qcase (Qeq_bool (fst p) x); [|reflexivity].
  rewrite E. ring_simplify. reflexivity.
Qed.

(** At a sample time the value is the sample value. *)
Lemma interp_from_exact p rest y :
  StronglySorted time_lt (p :: rest) -> In (x, y) (p :: rest) ->
  interp_from x p rest == y.
Proof.
  revert p; induction rest as [|q rest IH]; intros p Hs Hin.
  - destruct Hin as [->|[]]. reflexivity.
  - simpl interp_from. inversion Hs as [|? ? Hs' Hall]; subst.
    assert (Hpq : fst p < fst q) by (apply (StronglySorted_head _ _ _ _ Hs); left; auto).
    destruct Hin as [->|Hin].
    + simpl in *. qcase (Qltb x (fst q)); [|lra].
      rewrite Qeq_bool_refl. reflexivity.
    + assert (Hq : fst q <= x).
      { destruct Hin as [->|Hin]; [apply Qle_refl|].
        apply Qlt_le_weak. exact (StronglySorted_head _ _ _ _ Hs' Hin). }
      qcase (Qltb x (fst q)); [lra|]. now apply IH.
Qed.

(** Between the bounds of the samples from [p] on. *)
Lemma interp_from_between p rest lo hi :
  fst p <= x -> StronglySorted time_lt (p :: rest) ->
  Forall (fun pt => lo <= snd pt <= hi) (p :: rest) ->
  lo <= interp_from x p rest <= hi.
Proof.
  revert p; induction rest as [|q rest IH]; intros p Hx Hs Hb.
  - now inversion Hb.
  - simpl interp_from. inversion Hs as [|? ? Hs' _]; subst.
    assert (Hpq : fst p < fst q) by (apply (StronglySorted_head _ _ _ _ Hs); left; auto).
    inversion Hb as [|? ? Hbp Hb']; subst. inversion Hb' as [|? ? Hbq _]; subst.
    qcase (Qltb x (fst q)).
    + rewrite segment_value. apply segment_between; auto; lra.
    + apply IH; auto.
Qed.

(** Not below a lower bound of the samples from [p] on. *)
Lemma interp_from_lower p rest lo :
  fst p <= x -> StronglySorted time_lt (p :: rest) ->
  Forall (fun pt => lo <= snd pt) (p :: rest) ->
  lo <= interp_from x p rest.
Proof.
  revert p; induction rest as [|q rest IH]; intros p Hx Hs Hb.
  - now inversion Hb.
  - simpl interp_from. inversion Hs as [|? ? Hs' _]; subst.
    assert (Hpq : fst p < fst q) by (apply (StronglySorted_head _ _ _ _ Hs); left; auto).
    inversion Hb as [|? ? Hbp Hb']; subst. inversion Hb' as [|? ? Hbq _]; subst.
    qcase (Qltb x (fst q)).
    + rewrite segment_value.
      apply (segment_between (fst p) (fst q) (snd p) (snd q) x lo (snd p + snd q - lo)); lra.
    + apply IH; auto.
Qed.

(** At the first sample time the value is the first sample. *)
Lemma interp_from_left p rest :
  x == fst p -> StronglySorted time_lt (p :: rest) -> interp_from x p rest = snd p.
Proof.
  intros Hx Hs. destruct rest as [|q rest]; [reflexivity|]. simpl.
  assert (Hpq : fst p < fst q) by (apply (StronglySorted_head _ _ _ _ Hs); left; auto).
  qcase (Qltb x (fst q)); [|lra].
  assert (Qeq_bool (fst p) x = true) as -> by (apply Qeq_bool_iff; now symmetry).
  reflexivity.
Qed.

End Segments.

(** ** One target time *)

Lemma interp_Ok xs xp fp :
  xp <> [] -> length xp = length fp ->
  interp xs xp fp = Ok (map (fun x => interp_point x (combine xp fp)) xs).
Proof.
  intros Hne Hl. unfold interp. destruct xp as [|t xp]; [congruence|].
  rewrite Hl, Nat.eqb_refl. reflexivity.
Qed.

Lemma interp_Ok_inv xs xp fp ys :
  interp xs xp fp = Ok ys ->
  xp <> [] /\ length xp = length fp /\ ys = map (fun x => interp_point x (combine xp fp)) xs.
Proof.
  unfold interp. destruct xp as [|t xp]; [discriminate|].
  destruct (Nat.eqb_spec (length (t :: xp)) (length fp)); [|discriminate].
  intros H; inversion H; subst. repeat split; auto; discriminate.
Qed.

Lemma interp_point_exact pts x y :
  StronglySorted time_lt pts -> In (x, y) pts -> interp_point x pts == y.
Proof.
  destruct pts as [|p rest]; intros Hs Hin; [destruct Hin|].
  simpl. qcase (Qltb x (fst p)).
  - exfalso. destruct Hin as [->|Hin]; simpl in E; [lra|].
    pose proof (StronglySorted_head _ _ _ _ Hs Hin). unfold time_lt in *. simpl in *. lra.
  - now apply interp_from_exact.
Qed.

Lemma interp_point_between pts x lo hi :
  pts <> [] -> StronglySorted time_lt pts ->
  Forall (fun pt => lo <= snd pt <= hi) pts ->
  lo <= interp_point x pts <= hi.
Proof.
  destruct pts as [|p rest]; intros Hne Hs Hb; [congruence|].
  simpl. qcase (Qltb x (fst p)); [now inversion Hb|].
  apply interp_from_between; auto.
Qed.

(** The value never decreases with the target time when the sample
    values do not decrease. *)
Lemma interp_from_mono x1 x2 p rest :
  x1 <= x2 -> fst p <= x1 -> StronglySorted time_lt (p :: rest) ->
  StronglySorted value_le (p :: rest) ->
  interp_from x1 p rest <= interp_from x2 p rest.
Proof.
  revert p; induction rest as [|q rest IH]; intros p H12 Hx Hs Hv.
  - apply Qle_refl.
  - simpl interp_from. inversion Hs as [|? ? Hs' _]; subst.
    inversion Hv as [|? ? Hv' Hvall]; subst.
    assert (Hpq : fst p < fst q) by (apply (StronglySorted_head _ _ _ _ Hs); left; auto).
    assert (Hy : snd p <= snd q) by (apply (StronglySorted_head _ _ _ _ Hv); left; auto).
    qcase (Qltb x1 (fst q)); qcase (Qltb x2 (fst q)).
    + rewrite !segment_value.
      assert (0 <= (snd q - snd p) / (fst q - fst p)) by (apply Qle_shift_div_l; lra).
      nra.
    + rewrite segment_value.
      apply Qle_trans with (snd q).
      * apply (segment_between (fst p) (fst q) (snd p) (snd q) x1 (snd p) (snd q)); lra.
      * apply interp_from_lower; auto. constructor; [apply Qle_refl|].
        eapply Forall_impl; [|inversion Hv'; eassumption]. intros a Ha; exact Ha.
    + lra.
    + apply IH; auto.
Qed.

Lemma interp_point_mono pts x1 x2 :
  x1 <= x2 -> StronglySorted time_lt pts -> StronglySorted value_le pts ->
  interp_point x1 pts <= interp_point x2 pts.
Proof.
  destruct pts as [|p rest]; intros H12 Hs Hv; simpl; [apply Qle_refl|].
  qcase (Qltb x1 (fst p)); qcase (Qltb x2 (fst p)).
  - apply Qle_refl.
  - apply interp_from_lower; auto. constructor; [apply Qle_refl|].
    inversion Hv as [|? ? _ Hall]; subst.
    eapply Forall_impl; [|exact Hall]. intros a Ha; exact Ha.
  - lra.
  - now apply interp_from_mono.
Qed.

(** ** Properties of [np.interp] *)

(** C16. Interpolating at a target time that is one of the sample times
    returns exactly the sample value there. *)
Theorem interp_exact_at_samples xs xp fp ys i k x y :
  increasing xp = true -> interp xs xp fp = Ok ys ->
  nth_error xs i = Some x -> nth_error xp k = Some x -> nth_error fp k = Some y ->
  exists v, nth_error ys i = Some v /\ v == y.
Proof.
  intros Hinc H Hi Hk Hf. apply interp_Ok_inv in H as (_ & _ & ->).
  exists (interp_point x (combine xp fp)). split; [now rewrite nth_error_map, Hi|].
  apply interp_point_exact; [now apply increasing_strongly_sorted|].
  apply (nth_error_In _ k). now apply nth_error_combine.
Qed.

(** C8. Target times outside the sample range are clamped: at or before
    the first sample time the value is the first sample, at or after
    every sample time it is the last sample; there is no extrapolation. *)
Theorem interp_clamps_outside_range xs xp fp ys i x t0 y0 :
  increasing xp = true -> interp xs xp fp = Ok ys -> nth_error xs i = Some x ->
  hd_error xp = Some t0 -> hd_error fp = Some y0 ->
  exists v, nth_error ys i = Some v /\
    (x <= t0 -> v == y0) /\ (Forall (fun t => t <= x) xp -> v == last fp 0).
Proof.
  intros Hinc H Hi H0 H1. apply interp_Ok_inv in H as (_ & Hl & ->).
  exists (interp_point x (combine xp fp)). split; [now rewrite nth_error_map, Hi|].
  destruct xp as [|t xp], fp as [|y fp]; try discriminate.
  simpl in H0, H1. injection H0 as <-. injection H1 as <-.
  pose proof (increasing_strongly_sorted (t :: xp) (y :: fp) Hinc) as Hs.
  simpl combine in *. simpl interp_point. split.
  - intros Hx. qcase (Qltb x t); [reflexivity|].
    rewrite interp_from_left; [reflexivity| |exact Hs]. simpl; lra.
  - intros Hall. inversion Hall as [|? ? Ht Hall']; subst.
    qcase (Qltb x t); [lra|].
    rewrite interp_from_right by exact (Forall_combine_fst (fun t => t <= x) xp fp Hall').
    rewrite (last_combine_snd (t :: xp) (y :: fp) _ 0); [reflexivity|exact Hl|discriminate].
Qed.

(** C17. Every interpolated value lies within any bounds of the sample
    values. *)
Theorem interp_within_sample_bounds xs xp fp ys lo hi :
  increasing xp = true -> interp xs xp fp = Ok ys ->
  Forall (fun y => lo <= y <= hi) fp -> Forall (fun v => lo <= v <= hi) ys.
Proof.
  intros Hinc H Hb. apply interp_Ok_inv in H as (Hne & Hl & ->).
  apply Forall_forall. intros v Hv. apply in_map_iff in Hv as [x [<- _]].
  apply interp_point_between.
  - destruct xp, fp; simpl in *; try congruence; discriminate.
  - now apply increasing_strongly_sorted.
  - exact (Forall_combine_snd (fun y => lo <= y <= hi) xp fp Hb).
Qed.

(** C18. With non-decreasing sample values and non-decreasing target
    times, the interpolated values do not decrease. *)
Theorem interp_monotone xs xp fp ys :
  increasing xp = true -> nondecreasing fp = true -> nondecreasing xs = true ->
  interp xs xp fp = Ok ys -> nondecreasing ys = true.
Proof.
  intros Hinc Hfp Hxs H. apply interp_Ok_inv in H as (_ & _ & ->).
  unfold nondecreasing in *. revert Hxs. apply adjacent_all_map.
  intros a b Hab. apply Qle_bool_iff. apply Qle_bool_iff in Hab.
  apply interp_point_mono; auto.
  - now apply increasing_strongly_sorted.
  - now apply nondecreasing_strongly_sorted.
Qed.

(** ** Properties of [population_for_simulated_times] *)

Lemma population_entry keys obs proj sim d :
  population_for_simulated_times keys obs proj sim = Ok d ->
  exists ot pt, pt_times obs = Ok ot /\ pt_times proj = Ok pt /\
  Forall2 (fun sub kv => exists o p, pt_column obs sub = Ok o /\ pt_column proj sub = Ok p /\
             kv = (sub, map (fun x => interp_point x (combine (ot ++ pt) (o ++ p))) sim))
          keys d.
Proof.
  unfold population_for_simulated_times. intros H.
  apply bind_Ok in H as [ot [Hot H]]. apply bind_Ok in H as [pt [Hpt H]].
  exists ot, pt. split; [exact Hot|split; [exact Hpt|]].
  apply mapM_Forall2 in H. eapply Forall2_impl; [|exact H]. intros sub kv Hkv.
  apply bind_Ok in Hkv as [o [Ho Hkv]]. apply bind_Ok in Hkv as [p [Hp Hkv]].
  apply bind_Ok in Hkv as [v [Hv Hkv]]. apply interp_Ok_inv in Hv as (_ & _ & ->).
  exists o, p. now inversion Hkv.
Qed.

(** The interpolated population has one entry per subregion key, in
    key order, each with one value per simulation time. *)
Lemma population_shape keys obs proj sim d :
  population_for_simulated_times keys obs proj sim = Ok d ->
  map fst d = keys /\ Forall (fun kv => length (snd kv) = length sim) d.
Proof.
  intros H. apply population_entry in H as (ot & pt & _ & _ & H).
  induction H as [|sub kv keys d (o & p & _ & _ & ->) _ [IH1 IH2]]; simpl.
  - split; constructor.
  - split; [now rewrite IH1|]. constructor; auto. apply length_map.
Qed.

(** C31. A subregion key without a column in the observed population
    table makes the whole interpolation fail (the missing-data fault). *)
Theorem population_missing_column_fails keys obs proj sim sub :
  In sub keys -> (forall c, pt_column obs sub <> Ok c) ->
  exists e, population_for_simulated_times keys obs proj sim = Err e.
Proof.
  intros Hin Hmiss.
  destruct (population_for_simulated_times keys obs proj sim) as [d|e] eqn:H; [|eauto].
  exfalso. apply population_entry in H as (ot & pt & _ & _ & H).
  apply (Forall2_in_left _ _ _ sub) in H as [kv [_ (o & _ & Ho & _)]]; [|exact Hin].
  exact (Hmiss o Ho).
Qed.

(** ** Witnesses: the round-trip scenario of subregion 1 *)

(** Observed population 1000, 1500, 2000 at 2000, 2005, 2010, projected
    2500, 3000 at 2020, 2030. *)

Lemma interp_exact_at_samples_witness :
  exists ys v, interp [1990; 2020; 2040] [2000; 2005; 2010; 2020; 2030]
                 [1000; 1500; 2000; 2500; 3000] = Ok ys /\
               nth_error ys 1 = Some v /\ v == 2500.
Proof.
  eexists. edestruct (interp_exact_at_samples [1990; 2020; 2040]
    [2000; 2005; 2010; 2020; 2030] [1000; 1500; 2000; 2500; 3000] (map (fun x => interp_point x (combine [2000; 2005; 2010; 2020; 2030] [1000; 1500; 2000; 2500; 3000])) [1990; 2020; 2040]) 1 3 2020 2500)
    as [v [H1 H2]]; try reflexivity.
  exists v. split; [reflexivity|]. split; assumption.
Defined.

Lemma interp_clamps_outside_range_witness :
  exists ys v w, interp [1990; 2020; 2040] [2000; 2005; 2010; 2020; 2030]
                   [1000; 1500; 2000; 2500; 3000] = Ok ys /\
    nth_error ys 0 = Some v /\ v == 1000 /\ nth_error ys 2 = Some w /\ w == 3000.
Proof.
  eexists.
  edestruct (interp_clamps_outside_range [1990; 2020; 2040]
    [2000; 2005; 2010; 2020; 2030] [1000; 1500; 2000; 2500; 3000] (map (fun x => interp_point x (combine [2000; 2005; 2010; 2020; 2030] [1000; 1500; 2000; 2500; 3000])) [1990; 2020; 2040]) 0 1990 2000 1000)
    as [v [Hv [Hl _]]]; try reflexivity.
  edestruct (interp_clamps_outside_range [1990; 2020; 2040]
    [2000; 2005; 2010; 2020; 2030] [1000; 1500; 2000; 2500; 3000] (map (fun x => interp_point x (combine [2000; 2005; 2010; 2020; 2030] [1000; 1500; 2000; 2500; 3000])) [1990; 2020; 2040]) 2 2040 2000 1000)
    as [w [Hw [_ Hr]]]; try reflexivity.
  exists v, w. split; [reflexivity|]. split; [exact Hv|]. split; [apply Hl; lra|].
  split; [exact Hw|]. apply Hr. repeat constructor; lra.
Defined.

Lemma interp_within_sample_bounds_witness :
  exists ys, interp [1990; 2012; 2040] [2000; 2005; 2010; 2020; 2030]
               [1000; 1500; 2000; 2500; 3000] = Ok ys /\
             Forall (fun v => 1000 <= v <= 3000) ys.
Proof.
  eexists. split; [reflexivity|].
  apply (interp_within_sample_bounds [1990; 2012; 2040] [2000; 2005; 2010; 2020; 2030]
    [1000; 1500; 2000; 2500; 3000]); [reflexivity|reflexivity|].
  repeat constructor; lra.
Defined.

Lemma interp_monotone_witness :
  exists ys, interp [2010; 2012; 2030] [2000; 2005; 2010; 2020; 2030]
               [1000; 1500; 2000; 2500; 3000] = Ok ys /\ nondecreasing ys = true.
Proof.
  eexists. split; [reflexivity|].
  apply (interp_monotone [2010; 2012; 2030] [2000; 2005; 2010; 2020; 2030]
    [1000; 1500; 2000; 2500; 3000]); reflexivity.
Defined.

Lemma population_missing_column_fails_witness :
  exists e, population_for_simulated_times ["1"%string; "2"%string]
    {| pt_columns := [("year"%string, [2000; 2005; 2010]); ("1"%string, [1000; 1500; 2000])] |}
    {| pt_columns := [("year"%string, [2020; 2030]); ("1"%string, [2500; 3000])] |}
    [2010; 2020; 2030] = Err e.
Proof.
  apply (population_missing_column_fails _ _ _ _ "2"%string).
  - simpl; auto.
  - intros c H; vm_absurd H.
Defined.

End Interp.
