(* ===== verification/Lstsq.v ===== *)
(** * CurveFitter: [np.linalg.lstsq] on the design matrix [[x, 1]] and the
    per-method fit of [r.futures.demand.py] lines 147-170

    For every method the script builds [A = vstack((reg_pop, ones)).T],
    takes [m, c = np.linalg.lstsq(A, y)[0]], predicts the developed cells
    at the simulated population and computes
    [rmse = sqrt(sum(r * r) / (len(reg_pop) - 2))].  [lstsq] solves the
    normal equations of the two-column system in closed form; when all
    predictor values are equal the matrix has rank one and numpy returns
    the minimum-norm solution, which [lstsq] writes out.  Like a float,
    each coefficient is returned as a normalised number ([Qred]: lowest
    terms, the same value).  [fit_method]
    takes the numpy functions [np.log], [np.exp], [np.sqrt] from the
    [FloatLib] interface. *)

From S2P Require Import Prelude Numerics.
From Stdlib Require Import String QArith Arith ZArith List Lia Lqa.
Import ListNotations.
Open Scope Q_scope.
Open Scope futures_scope.

Module Lstsq.

(** ** The least-squares solver *)

Definition sx (xs : list Q) : Q := qsum xs.
Definition sxx (xs : list Q) : Q := qsum (map sq xs).
Definition sxy (xs ys : list Q) : Q := qsum (map2 Qmult xs ys).

(** The number of rows, as a float. *)
Definition qlen {A} (l : list A) : Q := inject_Z (Z.of_nat (length l)).
Arguments qlen : simpl never.

(** [np.linalg.lstsq(vstack((xs, ones)).T, ys)[0]], returned as [(m, c)]. *)
Definition lstsq (xs ys : list Q) : res (Q * Q) :=
  if negb (Nat.eqb (length xs) (length ys))
  then Err (LinAlgError "Incompatible dimensions")
  else
    let n := qlen xs in
    let det := n * sxx xs - sx xs * sx xs in
    if Qeq_bool det 0 then
      let x0 := sx xs / n in
      let ybar := qsum ys / n in
      Ok (Qred (ybar * x0 / (x0 * x0 + 1)), Qred (ybar / (x0 * x0 + 1)))
    else
      Ok (Qred ((n * sxy xs ys - sx xs * qsum ys) / det),
          Qred ((sxx xs * qsum ys - sx xs * sxy xs ys) / det)).

(** ** The per-method fit *)

(** The regression methods of the [method] option. *)
Inductive method : Type :=
| Linear
| Logarithmic
| Exponential.

Definition method_eq_dec (a b : method) : {a = b} + {a <> b}.
Proof. decide equality. Defined.

(** What one iteration of the loop over methods leaves in the
    dictionaries [coeff], [predicted] and [rmse]. *)
Record fit : Type := {
  fit_m : Q;
  fit_c : Q;
  fit_predicted : list Q;
  fit_rmse : pyfloat
}.

Section Fit.

Context `{FloatLib}.

(** Lines 149-170 for one [method]: [obs_pop] is [observed_popul[sub]],
    [developed] is [table_developed[sub]] and [simulated] is
    [population_for_simulated_times[sub]]. *)
Definition fit_method (meth : method) (obs_pop developed simulated : list Q) : res fit :=
  let reg_pop := match meth with
                 | Logarithmic => map f_log obs_pop
                 | _ => obs_pop
                 end in
  let y := match meth with
           | Exponential => map f_log developed
           | _ => developed
           end in
  ' (m, c) <- lstsq reg_pop y ;;
  let predicted := match meth with
                   | Logarithmic => map (fun s => f_log s * m + c) simulated
                   | Exponential => map (fun s => f_exp (m * s + c)) simulated
                   | Linear => map (fun s => s * m + c) simulated
                   end in
  let r := match meth with
           | Exponential => map2 (fun x d => f_exp (m * x + c) - d) reg_pop developed
           | _ => map2 (fun x d => x * m + c - d) reg_pop developed
           end in
  Ok {| fit_m := m; fit_c := c; fit_predicted := predicted;
        fit_rmse := py_sqrt (py_div (qsum (map sq r)) (Z.of_nat (length reg_pop) - 2)) |}.

End Fit.

(** ** The abstract specification of least squares *)

(** The residual sum of squares of the line [y = m x + c]. *)
Definition sse (xs ys : list Q) (m c : Q) : Q :=
  qsum (map sq (map2 (fun x y => x * m + c - y) xs ys)).

(** [(m, c)] is a least-squares solution: no line has a smaller residual
    sum of squares. *)
Definition is_lsq_solution (xs ys : list Q) (m c : Q) : Prop :=
  forall m' c', sse xs ys m c <= sse xs ys m' c'.

(** ** Sums over the rows *)

Lemma qlen_cons {A} (x : A) l : qlen (x :: l) == qlen l + 1.
Proof.
  unfold qlen. simpl length. rewrite Nat2Z.inj_succ, <- Z.add_1_r, inject_Z_plus.
  reflexivity.
Qed.

Lemma qlen_nil {A} : qlen (@nil A) == 0.
Proof. reflexivity. Qed.

Lemma qlen_nonneg {A} (l : list A) : 0 <= qlen l.
Proof. unfold qlen, Qle; simpl. lia. Qed.

Lemma residual_sum xs ys m c :
  length xs = length ys ->
  qsum (map2 (fun x y => x * m + c - y) xs ys) == m * sx xs + c * qlen xs - qsum ys.
Proof.
  unfold sx. revert ys; induction xs as [|x xs IH]; intros [|y ys] Hl;
    simpl in *; try discriminate.
  - rewrite qlen_nil. ring.
  - rewrite IH, qlen_cons by congruence. ring.
Qed.

Lemma residual_moment xs ys m c :
  length xs = length ys ->
  qsum (map2 (fun x y => (x * m + c - y) * x) xs ys) == m * sxx xs + c * sx xs - sxy xs ys.
Proof.
  unfold sx, sxx, sxy. revert ys; induction xs as [|x xs IH]; intros [|y ys] Hl;
    simpl in *; try discriminate.
  - ring.
  - rewrite IH by congruence. unfold sq. ring.
Qed.

(** Moving the line by [(dm, dc)] adds the cross terms with the residuals
    and the squares of the shift. *)
Lemma sse_shift xs ys m c dm dc :
  sse xs ys (m + dm) (c + dc) ==
  sse xs ys m c
  + 2 * dm * qsum (map2 (fun x y => (x * m + c - y) * x) xs ys)
  + 2 * dc * qsum (map2 (fun x y => x * m + c - y) xs ys)
  + qsum (map2 (fun x y => sq (dm * x + dc)) xs ys).
Proof.
  unfold sse. revert ys; induction xs as [|x xs IH]; intros [|y ys]; simpl.
  - ring.
  - ring.
  - ring.
  - rewrite IH. unfold sq. ring.
Qed.

(** The variance identity: [n * sxx - sx^2 = n * sum (x - sx/n)^2]. *)
Lemma deviation_sum xs a :
  qsum (map (fun x => sq (x - a)) xs) == sxx xs - 2 * a * sx xs + qlen xs * (a * a).
Proof.
  unfold sx, sxx. induction xs as [|x xs IH]; simpl.
  - rewrite qlen_nil. ring.
  - rewrite IH, qlen_cons. unfold sq. ring.
Qed.

Lemma qlen_pos {A} (l : list A) : l <> [] -> 0 < qlen l.
Proof.
  intros Hne. destruct l as [|x l]; [congruence|]. rewrite qlen_cons.
  pose proof (qlen_nonneg l). lra.
Qed.

(** A vanishing determinant means every predictor value is the mean. *)
Lemma det_zero_constant xs :
  xs <> [] -> qlen xs * sxx xs - sx xs * sx xs == 0 ->
  Forall (fun x => x == sx xs / qlen xs) xs.
Proof.
  intros Hne Hdet. pose proof (qlen_pos xs Hne) as Hn.
  set (a := sx xs / qlen xs).
  assert (Hs : qsum (map sq (map (fun x => x - a) xs)) == 0).
  { rewrite map_map, deviation_sum. unfold a.
    apply Qmult_integral_l with (qlen xs); [lra|].
    transitivity (qlen xs * sxx xs - sx xs * sx xs); [field; lra | exact Hdet]. }
  apply qsum_sq_zero in Hs. apply Forall_map in Hs.
  eapply Forall_impl; [|exact Hs]. intros x Hx; simpl in Hx; lra.
Qed.

Lemma const_sums xs ys a :
  Forall (fun x => x == a) xs -> length xs = length ys ->
  sxx xs == qlen xs * (a * a) /\ sxy xs ys == a * qsum ys.
Proof.
  unfold sxx, sxy. intros Hc; revert ys; induction Hc as [|x xs Hx _ IH]; intros [|y ys] Hl;
    simpl in *; try discriminate.
  - rewrite qlen_nil. split; ring.
  - destruct (IH ys) as [IH1 IH2]; [congruence|]. rewrite qlen_cons, IH1, IH2.
    unfold sq. rewrite Hx. split; ring.
Qed.

Lemma linear_sums xs a b :
  qsum (map (fun x => a * x + b) xs) == a * sx xs + b * qlen xs /\
  sxy xs (map (fun x => a * x + b) xs) == a * sxx xs + b * sx xs.
Proof.
  unfold sx, sxx, sxy. induction xs as [|x xs [IH1 IH2]]; simpl.
  - rewrite qlen_nil. split; ring.
  - rewrite qlen_cons, IH1, IH2. unfold sq. split; ring.
Qed.

Lemma qsum_map2_sq_nonneg (g : Q -> Q -> Q) xs ys :
  0 <= qsum (map2 (fun x y => sq (g x y)) xs ys).
Proof.
  revert ys; induction xs as [|x xs IH]; intros [|y ys]; simpl; try apply Qle_refl.
  specialize (IH ys). unfold sq in *. nra.
Qed.

#[export] Instance sse_proper : Proper (eq ==> eq ==> Qeq ==> Qeq ==> Qeq) sse.
Proof.
  intros xs ? <- ys ? <- m m' Hm c c' Hc. unfold sse.
  revert ys; induction xs as [|x xs IH]; intros [|y ys]; try reflexivity.
  cbn -[Qeq Qplus Qmult Qminus sq]. rewrite IH, Hm, Hc. reflexivity.
Qed.

#[export] Hint Resolve qlen_nonneg qsum_map2_sq_nonneg : futures.

(** The solution satisfies the normal equations [A^T (A w - y) = 0]: both
    the residuals and the residuals weighted by [x] sum to zero. *)
Lemma lstsq_normal_equations xs ys m c :
  lstsq xs ys = Ok (m, c) ->
  length xs = length ys /\
  qsum (map2 (fun x y => x * m + c - y) xs ys) == 0 /\
  qsum (map2 (fun x y => (x * m + c - y) * x) xs ys) == 0.
Proof.
  unfold lstsq. intros Hok.
  destruct (Nat.eqb_spec (length xs) (length ys)) as [Hl|]; [|discriminate].
  cbn [negb] in Hok. split; [exact Hl|]. rewrite residual_sum, residual_moment by exact Hl.
  qcase (Qeq_bool (qlen xs * sxx xs - sx xs * sx xs) 0);
    apply Ok_inj, pair_equal_spec in Hok as [<- <-].
  - destruct xs as [|x0 xs'].
    + destruct ys; [|discriminate]. unfold sx, sxx, sxy. simpl. rewrite qlen_nil. split; ring.
    + set (xs := x0 :: xs') in *. assert (Hne : xs <> []) by discriminate.
      pose proof (qlen_pos xs Hne) as Hn.
      destruct (const_sums xs ys _ (det_zero_constant xs Hne E) Hl) as [H1 H2].
      rewrite H1, H2. set (a := sx xs / qlen xs).
      assert (Hsx : sx xs == qlen xs * a) by (unfold a; field; lra).
      assert (Ha : 0 < a * a + 1) by nra.
      rewrite !Qred_correct, Hsx. split; field; lra.
  - rewrite !Qred_correct. split; field; exact E.
Qed.

(** C1. Refinement of the least-squares contract: whenever [lstsq]
    returns [(m, c)], no other line has a smaller residual sum of squares
    on the data. *)
Theorem lstsq_least_squares xs ys m c :
  lstsq xs ys = Ok (m, c) -> is_lsq_solution xs ys m c.
Proof.
  intros H m' c'. destruct (lstsq_normal_equations _ _ _ _ H) as (_ & H1 & H2).
  assert (E : sse xs ys m' c' == sse xs ys (m + (m' - m)) (c + (c' - c))) by (apply sse_proper; auto; ring).
  rewrite E, sse_shift, H1, H2.
  pose proof (qsum_map2_sq_nonneg (fun x _ => (m' - m) * x + (c' - c)) xs ys) as Hnn.
  cbv beta in Hnn. lra.
Qed.

(** On noise-free linear data [y = a x + b] whose predictor takes at
    least two different values, [lstsq] returns exactly [(a, b)]. *)
Theorem lstsq_exact_line xs a b x1 x2 :
  In x1 xs -> In x2 xs -> ~ x1 == x2 ->
  exists m c, lstsq xs (map (fun x => a * x + b) xs) = Ok (m, c) /\ m == a /\ c == b.
Proof.
  intros H1 H2 H12. unfold lstsq. rewrite length_map, Nat.eqb_refl. cbn [negb].
  destruct (linear_sums xs a b) as [Hs Hsxy].
  qcase (Qeq_bool (qlen xs * sxx xs - sx xs * sx xs) 0).
  - exfalso. assert (Hne : xs <> []) by (intros ->; destruct H1).
    pose proof (det_zero_constant xs Hne E) as Hc.
    rewrite Forall_forall in Hc. apply H12. now rewrite (Hc x1 H1), (Hc x2 H2).
  - eexists _, _. split; [reflexivity|]. rewrite !Qred_correct, Hs, Hsxy.
    split; field; exact E.
Qed.

(** ** Properties of the per-method fit *)

(** With no degrees of freedom left the RMSE division is [0/0] or [s/0]. *)
Lemma py_sqrt_div_zero `{FloatLib} s :
  0 <= s -> py_sqrt (py_div s 0) = PInf \/ py_sqrt (py_div s 0) = PNaN.
Proof.
  intros Hs. unfold py_div. simpl Z.eqb. cbv iota.
  qcase (Qeq_bool s 0); [now right|]. qcase (Qltb 0 s); [now left|].
  exfalso. apply E. now apply Qle_antisym.
Qed.

Lemma exact_residuals obs a b m c :
  m == a -> c == b ->
  Forall (fun r => r == 0) (map2 (fun x d => x * m + c - d) obs (map (fun x => a * x + b) obs)).
Proof.
  intros Hm Hc. induction obs as [|x obs IH]; simpl; constructor; auto.
  rewrite Hm, Hc. ring.
Qed.

Section FitProperties.

Context `{FloatLib}.

Lemma fit_predicted_length meth obs dev sim f :
  fit_method meth obs dev sim = Ok f -> length (fit_predicted f) = length sim.
Proof.
  unfold fit_method. intros Hf.
  destruct meth; cbv beta iota zeta in Hf;
    match type of Hf with
    | bind (lstsq ?xs ?ys) _ = _ => destruct (lstsq xs ys) as [[m c]|e]
    end; cbn [bind] in Hf; inversion Hf; subst; apply length_map.
Qed.

(** C22. For the linear method on noise-free data [developed = a * pop + b]
    with two different population values and at least three observations,
    the fit recovers [a] and [b], predicts [a * s + b] at every simulated
    population [s], and its RMSE is the square root of zero. *)
Theorem fit_linear_exact obs a b sim x1 x2 :
  In x1 obs -> In x2 obs -> ~ x1 == x2 -> (3 <= length obs)%nat ->
  exists f, fit_method Linear obs (map (fun x => a * x + b) obs) sim = Ok f /\
    fit_m f == a /\ fit_c f == b /\
    Forall2 (fun s p => p == a * s + b) sim (fit_predicted f) /\
    exists q, q == 0 /\ fit_rmse f = PFin (f_sqrt q).
Proof.
  intros H1 H2 H12 Hn.
  destruct (lstsq_exact_line obs a b x1 x2 H1 H2 H12) as (m & c & Hl & Hm & Hc).
  unfold fit_method. cbv beta iota zeta. rewrite Hl. cbn [bind].
  eexists. split; [reflexivity|]. cbn [fit_m fit_c fit_predicted fit_rmse].
  split; [exact Hm|]. split; [exact Hc|]. split.
  - induction sim as [|s sim IH]; constructor; auto. rewrite Hm, Hc. ring.
  - pose proof (qsum_sq_all_zero _ (exact_residuals obs a b m c Hm Hc)) as Hs.
    unfold py_div. destruct (Z.eqb_spec (Z.of_nat (length obs) - 2) 0) as [Hz|Hz]; [lia|].
    unfold py_sqrt. set (q := _ / inject_Z _).
    assert (Hq : q == 0) by (unfold q; rewrite Hs; unfold Qdiv; apply Qmult_0_l).
    qcase (Qltb q 0); [lra|]. exists q. split; [exact Hq|reflexivity].
Qed.

(** C23. With exactly two observations the degrees-of-freedom term
    [len(reg_pop) - 2] is zero and the RMSE of every method is [inf] or
    [nan], never a finite number: the code raises no error. *)
Theorem fit_rmse_two_observations meth obs dev sim f :
  length obs = 2%nat -> fit_method meth obs dev sim = Ok f ->
  fit_rmse f = PInf \/ fit_rmse f = PNaN.
Proof.
  intros Hn Hf. unfold fit_method in Hf.
  destruct meth; cbv beta iota zeta in Hf;
    match type of Hf with
    | bind (lstsq ?xs ?ys) _ = _ => destruct (lstsq xs ys) as [[m c]|e]
    end; cbn [bind] in Hf; inversion Hf; subst; cbn [fit_rmse];
    rewrite ?length_map, Hn; apply py_sqrt_div_zero, qsum_sq_nonneg.
Qed.

End FitProperties.

(** ** Witnesses *)

(** Subregion 2 of the spec's scenario: a flat population makes the
    design matrix rank one, and [lstsq] still returns a minimiser. *)
Lemma lstsq_least_squares_witness :
  exists m c, lstsq [500; 500; 500] [5; 5; 5] = Ok (m, c) /\
              is_lsq_solution [500; 500; 500] [5; 5; 5] m c.
Proof.
  do 2 eexists. split; [reflexivity|].
  apply lstsq_least_squares. reflexivity.
Defined.

Lemma fit_linear_exact_witness :
  exists f, fit_method Linear [1000; 1500; 2000] (map (fun x => 2 * x + 5) [1000; 1500; 2000])
              [2010; 2020; 2030] = Ok f /\
    fit_m f == 2 /\ fit_c f == 5 /\
    Forall2 (fun s p => p == 2 * s + 5) [2010; 2020; 2030] (fit_predicted f) /\
    exists q, q == 0 /\ fit_rmse f = PFin (f_sqrt q).
Proof.
  apply (fit_linear_exact _ _ _ _ 1000 1500); [simpl; auto | simpl; auto | | simpl; lia].
  intros Hq; vm_absurd Hq.
Defined.

Lemma fit_rmse_two_observations_witness :
  exists f, fit_method Linear [1000; 2000] [10; 30] [1500] = Ok f /\
            (fit_rmse f = PInf \/ fit_rmse f = PNaN).
Proof.
  eexists. split; [reflexivity|].
  apply (fit_rmse_two_observations Linear [1000; 2000] [10; 30] [1500]); reflexivity.
Defined.

End Lstsq.
