(* ===== verification/PyDict.v ===== *)
(** * Python 2 dictionaries with [str] keys: hash and iteration order

    [r.futures.demand.py] is a Python 2 script (see [Potential] and the
    [print] statements of the sibling script).  A Python 2 dictionary is
    an open-addressing hash table iterated slot by slot, so the order in
    which [min(rmse, key=rmse.get)] (line 172) sees the keys of [rmse]
    (stored at line 170) is fixed by the hashes of the method names and
    by the collisions between them, not by the order of the [method]
    option.  This file models the two pieces of CPython 2.7 that fix it:

    - [str_hash]: [string_hash] of [Objects/stringobject.c] on a 64-bit
      [long] with hash randomisation off (the default: prefix and suffix
      are 0), each step [x = (1000003*x) ^ c] kept at 64 bits;
    - [probe] and [insert]: the probe sequence of [lookdict_string] and
      the store of [insertdict] in [Objects/dictobject.c], on the initial
      table of [PyDict_MINSIZE = 8] slots: first slot [hash & 7], then
      [i = 5*i + perturb + 1] with [perturb] starting at the hash and
      shifted right by 5 after each probe;
    - [keys]: iteration in slot order ([PyDict_Next]).

    CPython grows the table when an insertion fills it to two thirds (the
    sixth key of 8 slots).  The dictionaries of the script have at most
    three keys, the three methods, so the model keeps the initial table
    and its theorems assume at most five keys.  The [C] loop of
    [lookdict_string] has no bound; [probe] has the fuel [probe_fuel = 21]:
    [perturb] is 0 after 13 shifts of a 64-bit hash, and from then on
    [i -> 5*i + 1] visits all 8 slots within 8 probes.  The termination theorem
    proves that this fuel always reaches a free slot. *)

From S2P Require Import Prelude.
From Stdlib Require Import String Ascii ZArith List Lia Permutation.
Import ListNotations.

Module PyDict.

Local Open Scope Z_scope.

(** ** The hash of a [str] *)

(** The value of a C [long] computation, read as [size_t]. *)
Definition wrap (x : Z) : Z := x mod 2 ^ 64.

Definition byte_of (c : ascii) : Z := Z.of_nat (nat_of_ascii c).

(** [string_hash]: [x = *p << 7], then [x = (1000003*x) ^ c] for every
    byte, then [x ^= len]; [-1] is reserved and becomes [-2]. *)
Definition str_hash (s : string) : Z :=
  match list_ascii_of_string s with
  | [] => 0
  | c0 :: _ =>
      let x := fold_left (fun x c => Z.lxor (wrap (1000003 * x)) (byte_of c))
                 (list_ascii_of_string s) (Z.shiftl (byte_of c0) 7) in
      let x := Z.lxor x (Z.of_nat (String.length s)) in
      if Z.eqb x (2 ^ 64 - 1) then 2 ^ 64 - 2 else x
  end.

(** ** The table *)

Section Table.

Context {K : Type} (eq_dec : forall a b : K, {a = b} + {a <> b}) (hash : K -> Z).

(** The slots of [ma_table]: [None] is a slot never used (the scripts
    never delete a key, so there are no dummy slots). *)
Definition table : Type := list (option K).

Definition empty_table : table := repeat None 8.

(** [lookdict_string]: the slot of key [k], or the first free slot of its
    probe sequence. *)
Fixpoint probe (fuel : nat) (t : list (option K)) (k : K) (i perturb : Z) : option nat :=
  match fuel with
  | O => None
  | S fuel' =>
      let j := Z.to_nat (Z.land i 7) in
      match nth j t None with
      | None => Some j
      | Some k' =>
          if eq_dec k k' then Some j
          else probe fuel' t k (wrap (5 * i + perturb + 1)) (Z.shiftr perturb 5)
      end
  end.

Definition probe_fuel : nat := 21.

Fixpoint set_slot (j : nat) (x : option K) (t : list (option K)) : table :=
  match t, j with
  | [], _ => []
  | _ :: t', O => x :: t'
  | y :: t', S j' => y :: set_slot j' x t'
  end.

(** [insertdict]: [d[k] = v] stores [k] in the slot [lookdict_string]
    returns; a key already present keeps its slot. *)
Definition insert (t : list (option K)) (k : K) : table :=
  match probe probe_fuel t k (Z.land (hash k) 7) (hash k) with
  | Some j => set_slot j (Some k) t
  | None => t
  end.

(** Iteration over a dictionary: the keys in slot order. *)
Definition keys (t : list (option K)) : list K :=
  flat_map (fun o => match o with Some k => [k] | None => [] end) t.

(** The iteration order of a dictionary whose keys were stored in the
    order [ks]. *)
Definition dict_keys (ks : list K) : list K := keys (fold_left insert ks empty_table).

(** The state of the probe loop after one unsuccessful probe. *)
Definition next (ip : Z * Z) : Z * Z :=
  (wrap (5 * fst ip + snd ip + 1), Z.shiftr (snd ip) 5).

End Table.

(** The slot sequence once [perturb] is 0: [i -> 5*i + 1] modulo 8. *)
Definition step8 (r : Z) : Z := (5 * r + 1) mod 8.

(** ** Arithmetic of the probe *)

Lemma land7 i : Z.land i 7 = i mod 8.
Proof. exact (Z.land_ones i 3 ltac:(lia)). Qed.

Lemma wrap_mod8 x : wrap x mod 8 = x mod 8.
Proof.
  unfold wrap. apply Z.mod_mod_divide.
  exists (2 ^ 61). reflexivity.
Qed.

(** A 64-bit [perturb] is 0 after 13 shifts by 5. *)
Lemma shiftr_65 p : 0 <= p < 2 ^ 64 -> Z.shiftr p 65 = 0.
Proof.
  intros Hp. rewrite Z.shiftr_div_pow2 by lia. apply Z.div_small.
  assert (2 ^ 64 <= 2 ^ 65) by (apply Z.pow_le_mono_r; lia). lia.
Qed.

(** Eight probes with [perturb = 0] visit every slot, from any start. *)
Lemma orbit_covers r j :
  0 <= r < 8 -> (j < 8)%nat -> exists n, (n < 8)%nat /\ Z.to_nat (Nat.iter n step8 r) = j.
Proof.
  intros Hr Hj.
  assert (Hall : forallb (fun r => forallb (fun j => existsb
            (fun n => Nat.eqb (Z.to_nat (Nat.iter n step8 r)) j) (seq 0 8)) (seq 0 8))
            (map Z.of_nat (seq 0 8)) = true) by reflexivity.
  rewrite forallb_forall in Hall.
  specialize (Hall r ltac:(apply in_map_iff; exists (Z.to_nat r); split;
                             [lia|apply in_seq; lia])).
  rewrite forallb_forall in Hall. specialize (Hall j ltac:(apply in_seq; lia)).
  apply existsb_exists in Hall as [n [Hn Heq]]. apply in_seq in Hn.
  exists n. split; [lia|]. now apply Nat.eqb_eq.
Qed.

Section TableLemmas.

Context {K : Type} (eq_dec : forall a b : K, {a = b} + {a <> b}) (hash : K -> Z).

Lemma probe_some f t k i p j :
  probe eq_dec f t k i p = Some j ->
  (j < 8)%nat /\ (nth j t None = None \/ nth j t None = Some k).
Proof.
  revert i p. induction f as [|f IH]; intros i p; simpl; [discriminate|].
  assert (Hj : (Z.to_nat (Z.land i 7) < 8)%nat)
    by (rewrite land7; pose proof (Z.mod_pos_bound i 8); lia).
  destruct (nth (Z.to_nat (Z.land i 7)) t None) as [k'|] eqn:E.
  - destruct (eq_dec k k') as [<-|_]; [|apply IH].
    intros H; injection H as <-. auto.
  - intros H; injection H as <-. auto.
Qed.

Lemma probe_none_step f t k i p :
  probe eq_dec (S f) t k i p = None ->
  nth (Z.to_nat (i mod 8)) t None <> None /\
  probe eq_dec f t k (fst (next (i, p))) (snd (next (i, p))) = None.
Proof.
  simpl. rewrite land7. destruct (nth _ t None) as [k'|]; [|discriminate].
  destruct (eq_dec k k'); [discriminate|]. split; [discriminate|assumption].
Qed.

Lemma snd_iter_next n i p : snd (Nat.iter n next (i, p)) = Z.shiftr p (5 * Z.of_nat n).
Proof.
  induction n as [|n IH]; [simpl; now rewrite Z.shiftr_0_r|].
  rewrite Nat.iter_succ. simpl. rewrite IH, Z.shiftr_shiftr by lia. f_equal. lia.
Qed.

Lemma probe_none_iter n f t k i p :
  probe eq_dec (n + f) t k i p = None ->
  probe eq_dec f t k (fst (Nat.iter n next (i, p))) (snd (Nat.iter n next (i, p))) = None.
Proof.
  revert i p. induction n as [|n IH]; intros i p H; [exact H|].
  apply probe_none_step in H as [_ H]. apply IH in H.
  rewrite Nat.iter_succ_r. destruct (next (i, p)) as [i' p']. exact H.
Qed.

(** With [perturb = 0], an unsuccessful probe sequence saw only used slots. *)
Lemma probe_none_orbit f t k i :
  probe eq_dec f t k i 0 = None ->
  forall n, (n < f)%nat -> nth (Z.to_nat (Nat.iter n step8 (i mod 8))) t None <> None.
Proof.
  revert i. induction f as [|f IH]; intros i H n Hn; [lia|].
  apply probe_none_step in H as [Hi H]. destruct n as [|n]; [exact Hi|].
  simpl in H. rewrite Z.shiftr_0_l in H. rewrite Nat.iter_succ_r.
  replace (step8 (i mod 8)) with (wrap (5 * i + 0 + 1) mod 8).
  - apply IH; [exact H|lia].
  - rewrite wrap_mod8, Z.add_0_r. unfold step8.
    rewrite <- (Z.add_mod_idemp_l (5 * (i mod 8))), Z.mul_mod_idemp_r, Z.add_mod_idemp_l by lia.
    reflexivity.
Qed.

(** The fuel of [probe] reaches a free slot. *)
Lemma probe_total t k i p :
  length t = 8%nat -> In None t -> 0 <= p < 2 ^ 64 ->
  probe eq_dec probe_fuel t k i p <> None.
Proof.
  intros Hlen Hfree Hp Hnone.
  apply (probe_none_iter 13 8) in Hnone. rewrite snd_iter_next, shiftr_65 in Hnone by exact Hp.
  apply In_nth with (d := None) in Hfree as [j [Hj Hjn]]. rewrite Hlen in Hj.
  set (i' := fst (Nat.iter 13 next (i, p))) in Hnone.
  destruct (orbit_covers (i' mod 8) j ltac:(apply Z.mod_pos_bound; lia) Hj) as [n [Hn Hnj]].
  apply (probe_none_orbit _ _ _ _ Hnone n Hn). now rewrite Hnj.
Qed.

(** ** Keys of the table *)

Lemma length_set_slot j x (t : list (option K)) : length (set_slot j x t) = length t.
Proof. revert j; induction t as [|y t IH]; intros [|j]; simpl; auto. Qed.

Lemma keys_set_slot j k (t : list (option K)) :
  nth j t None = None -> (j < length t)%nat -> Permutation (keys (set_slot j (Some k) t)) (k :: keys t).
Proof.
  revert j; induction t as [|y t IH]; intros [|j] Hj Hlen; simpl in *; try lia.
  - subst y. reflexivity.
  - destruct y as [y|]; [|apply IH; auto; lia].
    simpl. rewrite (IH j Hj ltac:(lia)). apply perm_swap.
Qed.

Lemma nth_some_keys j k (t : list (option K)) : nth j t None = Some k -> In k (keys t).
Proof.
  revert j; induction t as [|y t IH]; intros [|j] Hj; simpl in *; try discriminate.
  - subst y. now left.
  - apply in_or_app. right. exact (IH j Hj).
Qed.

Lemma free_slot (t : list (option K)) : (length (keys t) < length t)%nat -> In None t.
Proof.
  induction t as [|[y|] t IH]; simpl; [lia| |auto]. intros H. right. apply IH. lia.
Qed.

(** Storing a new key in a table with a free slot adds it to the keys. *)
Lemma insert_new t k :
  length t = 8%nat -> (length (keys t) < 8)%nat -> ~ In k (keys t) -> 0 <= hash k < 2 ^ 64 ->
  Permutation (keys (insert eq_dec hash t k)) (k :: keys t) /\ length (insert eq_dec hash t k) = 8%nat.
Proof.
  intros Hlen Hn Hk Hh. unfold insert.
  destruct (probe eq_dec probe_fuel t k (Z.land (hash k) 7) (hash k)) as [j|] eqn:E.
  - apply probe_some in E as [Hj [Hfree|Hsome]]; [|exfalso; exact (Hk (nth_some_keys _ _ _ Hsome))].
    rewrite length_set_slot. split; [apply keys_set_slot; [exact Hfree|lia]|exact Hlen].
  - exfalso. apply (probe_total t k (Z.land (hash k) 7) (hash k) Hlen); [apply free_slot; lia|exact Hh|exact E].
Qed.

Lemma fold_insert_keys ks t :
  length t = 8%nat -> (length ks + length (keys t) <= 5)%nat -> NoDup ks ->
  (forall k, In k ks -> ~ In k (keys t)) -> (forall k, In k ks -> 0 <= hash k < 2 ^ 64) ->
  Permutation (keys (fold_left (insert eq_dec hash) ks t)) (rev ks ++ keys t).
Proof.
  revert t; induction ks as [|a ks IH]; intros t Hlen Hn Hnd Hout Hh; [reflexivity|].
  inversion Hnd as [|? ? Ha Hnd']; subst. simpl in Hn |- *.
  destruct (insert_new t a Hlen ltac:(lia) (Hout a (or_introl eq_refl)) (Hh a (or_introl eq_refl)))
    as [Hp Hl].
  rewrite (IH _ Hl); auto.
  - rewrite Hp, <- app_assoc. reflexivity.
  - rewrite (Permutation_length Hp). simpl. lia.
  - intros k Hk Hin. rewrite Hp in Hin. destruct Hin as [<-|Hin]; [contradiction|].
    exact (Hout k (or_intror Hk) Hin).
  - intros k Hk. exact (Hh k (or_intror Hk)).
Qed.

(** With at most five distinct keys, iteration yields every key once. *)
Lemma dict_keys_perm ks :
  NoDup ks -> (length ks <= 5)%nat -> (forall k, In k ks -> 0 <= hash k < 2 ^ 64) ->
  Permutation (dict_keys eq_dec hash ks) ks.
Proof.
  intros Hnd Hn Hh. unfold dict_keys.
  assert (He : keys (@empty_table K) = []) by reflexivity.
  rewrite fold_insert_keys.
  - rewrite He, app_nil_r. symmetry. apply Permutation_rev.
  - reflexivity.
  - rewrite He. simpl. lia.
  - exact Hnd.
  - intros k _. rewrite He. intros [].
  - exact Hh.
Qed.


End TableLemmas.

Local Open Scope string_scope.


End PyDict.
