(* ===== verification/Select.v ===== *)
(** * ModelSelector: the loop over methods and [min(rmse, key=rmse.get)]

    [r.futures.demand.py] lines 141-172.  For one subregion the script
    fits every method of the [method] option in order, storing the
    results in the dictionaries [coeff], [predicted] and [rmse] (one
    insertion-ordered dictionary [dict] of [fit] records here; a repeated
    method overwrites its entry in place), then picks
    [method = min(rmse, key=rmse.get)].  Python's [min] keeps the first
    key and replaces the current best only by a key whose value is
    strictly smaller ([py_min_key]), so ties go to the earlier key and a
    [nan] best is never replaced.  After the loop the variable [m] still
    holds the slope of the last method fitted, which line 180 reads: the
    selection records it as [sel_last_m].

    The dictionary holds the content of [rmse] as an association list in
    insertion order; the order in which [min] visits its keys is the one
    Python 2 gives it, [rmse_order]: the slot order of the CPython 2.7
    hash table ([PyDict]) keyed by the method names.  With the hashes of
    [linear] (slot 5), [logarithmic] and [exponential] (both slot 6, the
    second one stored probes further), [min] does not see the methods in
    the order of the [method] option: this decides ties and [nan]s. *)

From S2P Require Import Prelude Numerics Lstsq PyDict.
From Stdlib Require Import String QArith Arith List Lia Lqa ZArith Permutation.
Import ListNotations.
Open Scope Q_scope.
Open Scope futures_scope.

Module Select.

Import Lstsq.

(** ** Insertion-ordered dictionaries keyed by method *)

Definition dict (V : Type) : Type := list (method * V).

(** [d[k] = v]: an existing key keeps its position. *)
Fixpoint dict_set {V : Type} (k : method) (v : V) (d : dict V) : dict V :=
  match d with
  | [] => [(k, v)]
  | (k', v') :: d' =>
      if method_eq_dec k k' then (k, v) :: d' else (k', v') :: dict_set k v d'
  end.

(** [d.get(k)]. *)
Fixpoint dict_get {V : Type} (k : method) (d : dict V) : option V :=
  match d with
  | [] => None
  | (k', v') :: d' => if method_eq_dec k k' then Some v' else dict_get k d'
  end.

(** The keys of [rmse]: the strings of the [method] option. *)
Definition method_name (m : method) : string :=
  match m with
  | Linear => "linear"
  | Logarithmic => "logarithmic"
  | Exponential => "exponential"
  end.

Definition method_hash (m : method) : Z := PyDict.str_hash (method_name m).

(** The order in which Python 2 iterates a dictionary keyed by the
    methods [ks], stored in that order. *)
Definition rmse_order (ks : list method) : list method :=
  PyDict.dict_keys method_eq_dec method_hash ks.

(** ** Python's [min] with a key function *)

(** [min(keys, key=val)]: the first key is the current best, and a later
    key replaces it only when [val key < val best]. *)
Definition py_min_key {K : Type} (val : K -> pyfloat) (keys : list K) : option K :=
  match keys with
  | [] => None
  | k :: ks =>
      Some (fold_left (fun best k' => if py_lt (val k') (val best) then k' else best) ks k)
  end.

(** ** The loop over methods of one subregion *)

Section Loop.

Context `{FloatLib}.

(** Lines 147-170: fit every method in order, storing each fit in the
    dictionary; the second component is the fit of the last iteration,
    whose [m] survives the loop. *)
Fixpoint fit_loop (methods : list method) (obs_pop developed simulated : list Q)
    (d : dict fit) (last : option fit) : res (dict fit * option fit) :=
  match methods with
  | [] => Ok (d, last)
  | meth :: ms =>
      f <- fit_method meth obs_pop developed simulated ;;
      fit_loop ms obs_pop developed simulated (dict_set meth f d) (Some f)
  end.

(** The value of [rmse.get] for a key of the dictionary. *)
Definition rmse_of (d : dict fit) (k : method) : pyfloat :=
  match dict_get k d with
  | Some f => fit_rmse f
  | None => PNaN
  end.

(** What the selection leaves for the demand computation: the chosen
    method, its fit ([coeff[method]], [predicted[method]],
    [rmse[method]]) and the slope [m] of the last method fitted. *)
Record selection : Type := {
  sel_method : method;
  sel_fit : fit;
  sel_last_m : Q
}.

(** Lines 143-172 for one subregion. *)
Definition select_subregion (methods : list method) (obs_pop developed simulated : list Q)
    : res selection :=
  ' (d, last) <- fit_loop methods obs_pop developed simulated [] None ;;
  match py_min_key (rmse_of d) (rmse_order (map fst d)), last with
  | Some meth, Some lf =>
      match dict_get meth d with
      | Some f => Ok {| sel_method := meth; sel_fit := f; sel_last_m := fit_m lf |}
      | None => Err (KeyError "method")
      end
  | _, _ => Err (ValueError "min() arg is an empty sequence")
  end.

End Loop.

(** The keys of the dictionary after the loop: the methods in the order of
    their first occurrence. *)
Definition add_key (ks : list method) (k : method) : list method :=
  if in_dec method_eq_dec k ks then ks else ks ++ [k].

Definition first_occurrences (methods : list method) : list method :=
  fold_left add_key methods [].

(** ** Python's [min] *)

Section MinKey.

Context {K : Type}.
Variable val : K -> pyfloat.

Definition min_step (best k' : K) : K := if py_lt (val k') (val best) then k' else best.

Lemma min_fold_in ks b : In (fold_left min_step ks b) (b :: ks).
Proof.
  revert b; induction ks as [|k ks IH]; intros b; [simpl; auto|].
  cbn [fold_left]. unfold min_step at 2. destruct (py_lt (val k) (val b)).
  - right. apply IH.
  - destruct (IH b) as [<-|Hin]; [left; reflexivity|right; right; exact Hin].
Qed.

(** No key seen is strictly below the current best. *)
Lemma min_fold_not_beaten seen ks b :
  (forall k, In k seen -> py_lt (val k) (val b) = false) ->
  forall k, In k (seen ++ b :: ks) -> py_lt (val k) (val (fold_left min_step ks b)) = false.
Proof.
  revert seen b; induction ks as [|k' ks IH]; intros seen b Hseen k Hk; simpl.
  - apply in_app_or in Hk as [Hk|[<-|[]]]; [now apply Hseen|apply py_lt_irrefl].
  - unfold min_step at 2. destruct (py_lt (val k') (val b)) eqn:E.
    + apply (IH (seen ++ [b])).
      * intros j Hj. apply in_app_or in Hj as [Hj|[<-|[]]].
        -- destruct (py_lt (val j) (val k')) eqn:E'; [|reflexivity].
           pose proof (py_lt_trans _ _ _ E' E) as Hjb. now rewrite (Hseen j Hj) in Hjb.
        -- destruct (py_lt (val b) (val k')) eqn:E'; [|reflexivity].
           pose proof (py_lt_trans _ _ _ E' E) as Hbb. now rewrite py_lt_irrefl in Hbb.
      * rewrite <- app_assoc. exact Hk.
    + apply (IH (seen ++ [k'])).
      * intros j Hj. apply in_app_or in Hj as [Hj|[<-|[]]]; auto.
      * apply in_app_or in Hk as [Hk|[<-|[<-|Hk]]]; rewrite <- app_assoc; apply in_or_app; simpl; auto.
Qed.

Lemma py_min_key_in keys b : py_min_key val keys = Some b -> In b keys.
Proof.
  destruct keys as [|k ks]; simpl; [discriminate|]. intros Hb; injection Hb as <-.
  apply min_fold_in.
Qed.

(** The key [min] returns is not beaten by any key. *)
Lemma py_min_key_not_beaten keys b :
  py_min_key val keys = Some b -> forall k, In k keys -> py_lt (val k) (val b) = false.
Proof.
  destruct keys as [|k0 ks]; simpl; [discriminate|]. intros Hb; injection Hb as <-.
  intros k Hk. apply (min_fold_not_beaten [] ks k0); [intros j []|exact Hk].
Qed.

(** A [nan] first key is never replaced. *)
Lemma py_min_key_nan_first k0 ks :
  val k0 = PNaN -> py_min_key val (k0 :: ks) = Some k0.
Proof.
  intros Hn. simpl. f_equal. change (fold_left min_step ks k0 = k0).
  induction ks as [|k ks IH]; [reflexivity|].
  cbn [fold_left]. unfold min_step at 2. rewrite Hn. destruct (val k); exact IH.
Qed.

(** With distinct keys and no [nan], the key [min] returns is strictly
    below every key before it: ties go to the first key. *)
Lemma py_min_key_first pre b post :
  NoDup (pre ++ b :: post) ->
  (forall k, In k (pre ++ b :: post) -> is_nan (val k) = false) ->
  py_min_key val (pre ++ b :: post) = Some b ->
  forall k, In k pre -> py_lt (val b) (val k) = true.
Proof.
  intros Hnd Hnan Hmin k Hk. destruct pre as [|k0 pre']; [destruct Hk|].
  simpl in Hmin. injection Hmin as Hmin.
  change (fold_left min_step (pre' ++ b :: post) k0 = b) in Hmin.
  rewrite fold_left_app in Hmin. set (c := fold_left min_step pre' k0) in Hmin.
  assert (Hc : In c (k0 :: pre')) by apply min_fold_in.
  assert (Hlt : py_lt (val b) (val c) = true).
  { cbn [fold_left] in Hmin. unfold min_step at 2 in Hmin.
    destruct (py_lt (val b) (val c)) eqn:E; [reflexivity|exfalso].
    pose proof (min_fold_in post c) as Hin. rewrite Hmin in Hin.
    apply NoDup_remove_2 in Hnd. apply Hnd. apply in_or_app.
    destruct Hin as [->|Hin]; [left; exact Hc|right; exact Hin]. }
  apply (py_lt_le_trans _ (val c)); auto.
  - apply Hnan. apply in_or_app. left. exact Hc.
  - apply Hnan. apply in_or_app. left. exact Hk.
  - apply (min_fold_not_beaten [] pre' k0); [intros j []|exact Hk].
Qed.

End MinKey.

(** ** The dictionary after the loop *)

Lemma dict_get_set {V} (k k' : method) (v : V) d :
  dict_get k (dict_set k' v d) = if method_eq_dec k k' then Some v else dict_get k d.
Proof.
  induction d as [|[j w] d IH]; simpl.
  - reflexivity.
  - destruct (method_eq_dec k' j) as [<-|Hne]; simpl.
    + destruct (method_eq_dec k k'); reflexivity.
    + destruct (method_eq_dec k j) as [->|Hkj]; rewrite ?IH.
      * destruct (method_eq_dec j k'); [congruence|reflexivity].
      * reflexivity.
Qed.

Lemma keys_dict_set {V} (k : method) (v : V) d :
  map fst (dict_set k v d) = add_key (map fst d) k.
Proof.
  unfold add_key. induction d as [|[j w] d IH]; simpl; [reflexivity|].
  destruct (method_eq_dec k j) as [->|Hne]; simpl.
  - destruct (method_eq_dec j j); [reflexivity|congruence].
  - rewrite IH. destruct (method_eq_dec j k); [congruence|].
    destruct (in_dec method_eq_dec k (map fst d)); reflexivity.
Qed.

Lemma dict_get_in_keys {V} k (d : dict V) v : dict_get k d = Some v -> In k (map fst d).
Proof.
  induction d as [|[j w] d IH]; simpl; [discriminate|].
  destruct (method_eq_dec k j) as [->|_]; auto.
Qed.

Lemma NoDup_add_key ks k : NoDup ks -> NoDup (add_key ks k).
Proof.
  unfold add_key. destruct (in_dec method_eq_dec k ks); [auto|].
  intros Hnd. apply NoDup_app; auto; [repeat constructor; auto|].
  intros x Hx [<-|[]]. contradiction.
Qed.

Lemma NoDup_first_occurrences ms : NoDup (first_occurrences ms).
Proof.
  unfold first_occurrences. assert (H : NoDup (@nil method)) by constructor.
  revert H. generalize (@nil method). induction ms as [|m ms IH]; intros ks Hks; simpl; auto.
  apply IH. now apply NoDup_add_key.
Qed.

Lemma method_hash_range m : (0 <= method_hash m < 2 ^ 64)%Z.
Proof. destruct m; vm_compute; split; (discriminate || reflexivity). Qed.

Lemma NoDup_methods_length (ks : list method) : NoDup ks -> (length ks <= 3)%nat.
Proof.
  intros Hnd. apply (NoDup_incl_length (l' := [Linear; Logarithmic; Exponential]) Hnd).
  intros [] _; simpl; auto.
Qed.

(** Python 2 visits every key of [rmse] exactly once. *)
Lemma rmse_order_perm ks : NoDup ks -> Permutation (rmse_order ks) ks.
Proof.
  intros Hnd. apply PyDict.dict_keys_perm; [exact Hnd| |intros k _; apply method_hash_range].
  pose proof (NoDup_methods_length _ Hnd). lia.
Qed.

Section LoopProperties.

Context `{FloatLib}.
Variables obs_pop developed simulated : list Q.

Lemma fit_loop_spec ms d0 l0 d l :
  fit_loop ms obs_pop developed simulated d0 l0 = Ok (d, l) ->
  map fst d = fold_left add_key ms (map fst d0) /\
  (forall k f, dict_get k d = Some f ->
     (In k ms /\ fit_method k obs_pop developed simulated = Ok f) \/
     (~ In k ms /\ dict_get k d0 = Some f)) /\
  (forall k, In k ms \/ dict_get k d0 <> None -> exists f, dict_get k d = Some f) /\
  (ms = [] -> l = l0) /\
  (ms <> [] -> exists lf, l = Some lf /\
     fit_method (last ms Linear) obs_pop developed simulated = Ok lf).
Proof.
  revert d0 l0; induction ms as [|m ms IH]; intros d0 l0 Hloop; simpl in Hloop.
  - injection Hloop as <- <-. split; [reflexivity|]. split; [|split; [|split]].
    + intros k f Hf. right. split; auto.
    + intros k [[]|Hk]. destruct (dict_get k d0) as [f|]; [now exists f|congruence].
    + reflexivity.
    + intros Hne; congruence.
  - apply bind_Ok in Hloop as [f [Hf Hloop]].
    destruct (IH _ _ Hloop) as (Hkeys & Hget & Hall & Hnil & Hlast). clear IH.
    split; [rewrite Hkeys, keys_dict_set; reflexivity|]. split; [|split; [|split]].
    + intros k g Hg. destruct (Hget k g Hg) as [[Hk Hkg]|[Hk Hkg]].
      * left. split; [right; exact Hk|exact Hkg].
      * rewrite dict_get_set in Hkg. destruct (method_eq_dec k m) as [->|Hne].
        -- left. injection Hkg as <-. split; [left; reflexivity|exact Hf].
        -- right. split; [intros [->|Hin]; contradiction|exact Hkg].
    + intros k Hk. apply Hall. destruct Hk as [[->|Hk]|Hk]; [right|left; exact Hk|right].
      * rewrite dict_get_set. destruct (method_eq_dec k k); congruence.
      * rewrite dict_get_set. destruct (method_eq_dec k m); congruence.
    + discriminate.
    + intros _. destruct ms as [|m' ms'].
      * rewrite (Hnil eq_refl). exists f. split; [reflexivity|exact Hf].
      * apply Hlast. discriminate.
Qed.

Lemma in_keys_dict_get {V} k (d : dict V) : In k (map fst d) -> exists v, dict_get k d = Some v.
Proof.
  induction d as [|[j w] d IH]; simpl; [intros []|].
  destruct (method_eq_dec k j) as [->|Hne]; [eauto|].
  intros [->|Hk]; [congruence|auto].
Qed.

Lemma select_subregion_inv methods s :
  select_subregion methods obs_pop developed simulated = Ok s ->
  exists d lf, fit_loop methods obs_pop developed simulated [] None = Ok (d, Some lf) /\
    py_min_key (rmse_of d) (rmse_order (map fst d)) = Some (sel_method s) /\
    dict_get (sel_method s) d = Some (sel_fit s) /\ sel_last_m s = fit_m lf.
Proof.
  unfold select_subregion. intros Hs. apply bind_Ok in Hs as [[d l] [Hloop Hs]].
  destruct (py_min_key (rmse_of d) (rmse_order (map fst d))) as [meth|] eqn:Hmin; [|discriminate].
  destruct l as [lf|]; [|discriminate].
  destruct (dict_get meth d) as [f|] eqn:Hget; [|discriminate].
  injection Hs as <-. exists d, lf. simpl. auto.
Qed.

(** The keys of [rmse] are the requested methods, each once, and [min]
    visits each of them. *)
Lemma loop_keys_order methods d l :
  fit_loop methods obs_pop developed simulated [] None = Ok (d, l) ->
  map fst d = first_occurrences methods /\ Permutation (rmse_order (map fst d)) (map fst d).
Proof.
  intros Hloop. destruct (fit_loop_spec _ _ _ _ _ Hloop) as (Hkeys & _).
  change (map fst d = first_occurrences methods) in Hkeys. split; [exact Hkeys|].
  apply rmse_order_perm. rewrite Hkeys. apply NoDup_first_occurrences.
Qed.

(** Every key of the dictionary holds the fit of that method. *)
Lemma loop_entry methods d l k g :
  fit_loop methods obs_pop developed simulated [] None = Ok (d, l) ->
  dict_get k d = Some g -> In k methods /\ fit_method k obs_pop developed simulated = Ok g.
Proof.
  intros Hloop Hg. destruct (fit_loop_spec _ _ _ _ _ Hloop) as (_ & Hget & _).
  destruct (Hget k g Hg) as [H'|[_ H']]; [exact H'|discriminate].
Qed.

(** The selected method is requested, and its fit is the one computed
    for it. *)
Lemma select_fit methods s :
  select_subregion methods obs_pop developed simulated = Ok s ->
  In (sel_method s) methods /\
  fit_method (sel_method s) obs_pop developed simulated = Ok (sel_fit s).
Proof.
  intros Hs. destruct (select_subregion_inv _ _ Hs) as (d & lf & Hloop & _ & Hsel & _).
  exact (loop_entry _ _ _ _ _ Hloop Hsel).
Qed.

(** C2. The selected method is one of the requested methods, its fit is
    the one computed for it, and no requested method has a strictly
    smaller RMSE. *)
Theorem select_not_beaten methods s :
  select_subregion methods obs_pop developed simulated = Ok s ->
  In (sel_method s) methods /\
  fit_method (sel_method s) obs_pop developed simulated = Ok (sel_fit s) /\
  forall meth f, In meth methods -> fit_method meth obs_pop developed simulated = Ok f ->
    py_lt (fit_rmse f) (fit_rmse (sel_fit s)) = false.
Proof.
  intros Hs. destruct (select_fit _ _ Hs) as [Hin Hfit].
  destruct (select_subregion_inv _ _ Hs) as (d & lf & Hloop & Hmin & Hsel & _).
  split; [exact Hin|]. split; [exact Hfit|]. intros meth f Hm Hf.
  destruct (fit_loop_spec _ _ _ _ _ Hloop) as (_ & _ & Hall & _).
  destruct (Hall meth (or_introl Hm)) as [g Hg].
  destruct (loop_entry _ _ _ _ _ Hloop Hg) as [_ Hg']. rewrite Hf in Hg'. injection Hg' as <-.
  destruct (loop_keys_order _ _ _ Hloop) as [_ Hperm].
  pose proof (py_min_key_not_beaten _ _ _ Hmin meth
                (Permutation_in _ (Permutation_sym Hperm) (dict_get_in_keys _ _ _ Hg))) as Hnb.
  unfold rmse_of in Hnb. now rewrite Hg, Hsel in Hnb.
Qed.

(** C19. Ties go to the method [min] meets first, in the iteration order
    of the Python 2 dictionary [rmse] ([rmse_order]), not in the order of
    the [method] option: when no RMSE is [nan], every method met before
    the selected one has a strictly larger RMSE. *)
Theorem select_first_minimum methods s pre post :
  select_subregion methods obs_pop developed simulated = Ok s ->
  (forall meth f, In meth methods -> fit_method meth obs_pop developed simulated = Ok f ->
     is_nan (fit_rmse f) = false) ->
  rmse_order (first_occurrences methods) = pre ++ sel_method s :: post ->
  forall meth f, In meth pre -> fit_method meth obs_pop developed simulated = Ok f ->
    py_lt (fit_rmse (sel_fit s)) (fit_rmse f) = true.
Proof.
  intros Hs Hnan Hocc meth f Hm Hf.
  destruct (select_subregion_inv _ _ Hs) as (d & lf & Hloop & Hmin & Hsel & _).
  destruct (loop_keys_order _ _ _ Hloop) as [Hkeys Hperm].
  rewrite Hkeys, Hocc in Hmin, Hperm.
  assert (Hval : forall k g, dict_get k d = Some g -> rmse_of d k = fit_rmse g)
    by (intros k g Hg; unfold rmse_of; now rewrite Hg).
  assert (Hkd : forall k, In k (pre ++ sel_method s :: post) -> In k (map fst d))
    by (intros k Hk; rewrite Hkeys; exact (Permutation_in _ Hperm Hk)).
  destruct (in_keys_dict_get _ _ (Hkd meth (in_or_app _ _ _ (or_introl Hm)))) as [g Hg].
  destruct (loop_entry _ _ _ _ _ Hloop Hg) as [_ Hg']. rewrite Hf in Hg'. injection Hg' as <-.
  rewrite <- (Hval _ _ Hsel), <- (Hval _ _ Hg).
  apply (py_min_key_first (rmse_of d) pre (sel_method s) post); auto.
  - apply (Permutation_NoDup (Permutation_sym Hperm)), NoDup_first_occurrences.
  - intros k Hk. destruct (in_keys_dict_get _ _ (Hkd k Hk)) as [h Hh]. rewrite (Hval _ _ Hh).
    destruct (loop_entry _ _ _ _ _ Hloop Hh) as [Hkm Hkh]. exact (Hnan _ _ Hkm Hkh).
Qed.

(** The slope [m] that survives the loop is the one of the last method. *)
Lemma select_last_slope methods s :
  select_subregion methods obs_pop developed simulated = Ok s ->
  exists lf, fit_method (last methods Linear) obs_pop developed simulated = Ok lf /\
             sel_last_m s = fit_m lf.
Proof.
  intros Hs. destruct (select_subregion_inv _ _ Hs) as (d & lf & Hloop & _ & _ & Hm).
  destruct (fit_loop_spec _ _ _ _ _ Hloop) as (_ & _ & _ & Hnil & Hlast).
  destruct methods as [|m0 ms]; [discriminate (Hnil eq_refl)|].
  destruct (Hlast ltac:(discriminate)) as [lf' [Heq Hf]]. injection Heq as <-.
  exists lf. split; assumption.
Qed.

(** C20. A [nan] RMSE of the first key of [rmse] in Python 2 iteration
    order is never replaced: that method is selected whatever the other
    RMSEs are, even when it was not the first method requested. *)
Theorem select_nan_first methods s k post f :
  select_subregion methods obs_pop developed simulated = Ok s ->
  rmse_order (first_occurrences methods) = k :: post ->
  fit_method k obs_pop developed simulated = Ok f -> fit_rmse f = PNaN ->
  sel_method s = k.
Proof.
  intros Hs Hord Hf Hnan.
  destruct (select_subregion_inv _ _ Hs) as (d & lf & Hloop & Hmin & _).
  destruct (loop_keys_order _ _ _ Hloop) as [Hkeys Hperm].
  rewrite Hkeys, Hord in Hmin, Hperm.
  assert (Hin : In k (map fst d))
    by (rewrite Hkeys; exact (Permutation_in _ Hperm (or_introl eq_refl))).
  destruct (in_keys_dict_get _ _ Hin) as [g Hg].
  destruct (loop_entry _ _ _ _ _ Hloop Hg) as [_ Hg']. rewrite Hf in Hg'. injection Hg' as <-.
  rewrite py_min_key_nan_first in Hmin; [congruence|].
  unfold rmse_of. now rewrite Hg.
Qed.

End LoopProperties.

(** ** Witnesses: subregion 1 of the spec's scenario *)

(** Developed cells 10, 20, 30 for population 1000, 1500, 2000: exactly
    linear, so the linear method wins over the logarithmic one. *)

Lemma select_not_beaten_witness :
  exists s, select_subregion [Linear; Logarithmic] [1000; 1500; 2000] [10; 20; 30]
              [2000; 2500; 3000] = Ok s /\
    In (sel_method s) [Linear; Logarithmic] /\
    fit_method (sel_method s) [1000; 1500; 2000] [10; 20; 30] [2000; 2500; 3000] = Ok (sel_fit s) /\
    forall meth f, In meth [Linear; Logarithmic] ->
      fit_method meth [1000; 1500; 2000] [10; 20; 30] [2000; 2500; 3000] = Ok f ->
      py_lt (fit_rmse f) (fit_rmse (sel_fit s)) = false.
Proof.
  destruct (select_subregion [Linear; Logarithmic] [1000; 1500; 2000] [10; 20; 30]
              [2000; 2500; 3000]) as [s|e] eqn:E; [|vm_absurd E].
  exists s. split; [reflexivity|].
  exact (select_not_beaten [1000; 1500; 2000] [10; 20; 30] [2000; 2500; 3000] _ s E).
Defined.

(** With [method=linear,exponential,logarithmic] Python 2 meets
    [logarithmic] first, then [linear], then [exponential]. *)
Lemma select_first_minimum_witness :
  exists s, select_subregion [Linear; Exponential; Logarithmic] [1000; 1500; 2000] [10; 20; 30]
              [2000; 2500; 3000] = Ok s /\ sel_method s = Linear /\
    rmse_order (first_occurrences [Linear; Exponential; Logarithmic]) =
      [Logarithmic; Linear; Exponential] /\
    forall f, fit_method Logarithmic [1000; 1500; 2000] [10; 20; 30] [2000; 2500; 3000] = Ok f ->
      py_lt (fit_rmse (sel_fit s)) (fit_rmse f) = true.
Proof.
  destruct (select_subregion [Linear; Exponential; Logarithmic] [1000; 1500; 2000] [10; 20; 30]
              [2000; 2500; 3000]) as [s|e] eqn:E; [|vm_absurd E].
  assert (Hs : sel_method s = Linear) by (vm_in E; injection E as <-; reflexivity).
  assert (Ho : rmse_order (first_occurrences [Linear; Exponential; Logarithmic]) =
                 [Logarithmic; Linear; Exponential]) by (vm_compute; reflexivity).
  exists s. split; [reflexivity|]. split; [exact Hs|]. split; [exact Ho|]. intros f Hf.
  refine (select_first_minimum [1000; 1500; 2000] [10; 20; 30] [2000; 2500; 3000]
            [Linear; Exponential; Logarithmic] s [Logarithmic] [Exponential] E _ _
            Logarithmic f _ Hf).
  - intros meth g [<-|[<-|[<-|[]]]] Hg; vm_in Hg; injection Hg as <-; reflexivity.
  - rewrite Hs, Ho. reflexivity.
  - left; reflexivity.
Defined.

(** With two observations both fits are exact and [0/0] is [nan]; for
    [method=logarithmic,linear] Python 2 meets [linear] first, and
    [linear] is selected although [logarithmic] was requested first. *)
Lemma select_nan_first_witness :
  exists s, select_subregion [Logarithmic; Linear] [1000; 2000] [10; 30] [1500] = Ok s /\
            rmse_order (first_occurrences [Logarithmic; Linear]) = [Linear; Logarithmic] /\
            sel_method s = Linear.
Proof.
  destruct (select_subregion [Logarithmic; Linear] [1000; 2000] [10; 30] [1500])
    as [s|e] eqn:E; [|vm_absurd E].
  assert (Ho : rmse_order (first_occurrences [Logarithmic; Linear]) = [Linear; Logarithmic])
    by (vm_compute; reflexivity).
  exists s. split; [reflexivity|]. split; [exact Ho|].
  destruct (fit_method Linear [1000; 2000] [10; 30] [1500]) as [f1|e] eqn:E1;
    [|vm_absurd E1].
  apply (select_nan_first [1000; 2000] [10; 30] [1500] [Logarithmic; Linear] s Linear
           [Logarithmic] f1 E Ho E1).
  vm_in E1. injection E1 as <-. reflexivity.
Defined.

End Select.
