(* ===== verification/Demand.v ===== *)
(** * DemandProjector: [np.diff], the clamping and the slope check

    [r.futures.demand.py] lines 173-183.  The demand of a subregion is
    the first difference of the selected method's predictions at the
    simulation times; if some difference is negative the script warns and
    sets the negative entries to zero; then, if [m < 0], it fills the
    whole vector with zeros and warns again.  The [m] of line 180 is the
    variable left by the loop over methods, i.e. the slope of the last
    method fitted ([sel_last_m]), not necessarily the slope of the
    selected method.  [subregion_demand] composes the selection of
    [Select] with this step: it is the body of the loop over subregions
    (lines 141-183) without the plotting. *)

From S2P Require Import Prelude Numerics Interp Lstsq Select.
From Stdlib Require Import String QArith Arith List Lia Lqa.
Import ListNotations.
Open Scope Q_scope.
Open Scope futures_scope.

Module Demand.

Import Lstsq Select.

(** ** Definitions *)

(** The two warnings of the step, naming the subregion. *)
Inductive warning : Type :=
| NegativeDemand (sub : string)
| InverseRelation (sub : string).

(** [np.diff]: consecutive differences. *)
Fixpoint np_diff (l : list Q) : list Q :=
  match l with
  | a :: ((b :: _) as t) => (b - a) :: np_diff t
  | _ => []
  end.

(** [d[d < 0] = 0]. *)
Definition clamp_negative (d : list Q) : list Q :=
  map (fun v => if Qltb v 0 then 0 else v) d.

(** [d.fill(0)]. *)
Definition fill_zero (d : list Q) : list Q := map (fun _ => 0) d.

(** Lines 174-183 for subregion [sub]: the predictions of the selected
    method and the slope [m] the script tests. *)
Definition demand_for_subregion (sub : string) (predicted : list Q) (m : Q)
    : list Q * list warning :=
  let d := np_diff predicted in
  let '(d, w) := if existsb (fun v => Qltb v 0) d
                 then (clamp_negative d, [NegativeDemand sub])
                 else (d, []) in
  if Qltb m 0 then (fill_zero d, w ++ [InverseRelation sub]) else (d, w).

(** The warnings one subregion can emit, in the order of lines 176 and
    182: the negative-demand warning if [neg], then the inverse-relation
    warning if [inv]. *)
Definition warning_group (sub : string) (neg inv : bool) : list warning :=
  (if neg then [NegativeDemand sub] else []) ++ (if inv then [InverseRelation sub] else []).

Section Step.

Context `{FloatLib}.

(** Lines 141-183 for one subregion: select the method, then compute its
    demand. *)
Definition subregion_demand (methods : list method) (sub : string)
    (obs_pop developed simulated : list Q) : res (list Q * list warning) :=
  s <- select_subregion methods obs_pop developed simulated ;;
  Ok (demand_for_subregion sub (fit_predicted (sel_fit s)) (sel_last_m s)).

End Step.

(** ** Lemmas on the pieces *)

Lemma length_np_diff l : length (np_diff l) = (length l - 1)%nat.
Proof.
  induction l as [|a l IH]; [reflexivity|].
  destruct l as [|b l]; [reflexivity|]. simpl in *. rewrite IH. lia.
Qed.

Lemma clamp_negative_nonneg d : Forall (fun v => 0 <= v) (clamp_negative d).
Proof.
  apply Forall_forall. intros v Hv. unfold clamp_negative in Hv.
  apply in_map_iff in Hv as [u [<- _]]. qcase (Qltb u 0); [apply Qle_refl|exact E].
Qed.

Lemma no_negative_nonneg d :
  existsb (fun v => Qltb v 0) d = false -> Forall (fun v => 0 <= v) d.
Proof.
  intros H. apply Forall_forall. intros v Hv.
  destruct (Qltb v 0) eqn:E; [|now apply Qltb_false in E].
  exfalso. assert (existsb (fun v => Qltb v 0) d = true) by (apply existsb_exists; eauto).
  congruence.
Qed.

Lemma fill_zero_all_zero d : Forall (fun v => v == 0) (fill_zero d).
Proof.
  apply Forall_forall. intros v Hv. unfold fill_zero in Hv.
  apply in_map_iff in Hv as [u [<- _]]. reflexivity.
Qed.

#[export] Hint Resolve clamp_negative_nonneg fill_zero_all_zero : futures.

(** The two cases of the step, unfolded. *)
Lemma demand_for_subregion_cases sub predicted m :
  demand_for_subregion sub predicted m =
  let neg := existsb (fun v => Qltb v 0) (np_diff predicted) in
  let d := if neg then clamp_negative (np_diff predicted) else np_diff predicted in
  let w := if neg then [NegativeDemand sub] else [] in
  if Qltb m 0 then (fill_zero d, w ++ [InverseRelation sub]) else (d, w).
Proof.
  unfold demand_for_subregion. destruct (existsb _ _); reflexivity.
Qed.

Lemma subregion_demand_inv `{FloatLib} methods sub obs dev sim d w :
  subregion_demand methods sub obs dev sim = Ok (d, w) ->
  exists s, select_subregion methods obs dev sim = Ok s /\
    (d, w) = demand_for_subregion sub (fit_predicted (sel_fit s)) (sel_last_m s).
Proof.
  unfold subregion_demand. intros Hd. apply bind_Ok in Hd as [s [Hs Hd]].
  exists s. split; [exact Hs|]. symmetry. now apply Ok_inj.
Qed.

(** The demand step never leaves a negative entry, whatever the
    predictions and the slope. *)
Lemma demand_for_subregion_nonneg sub predicted m :
  Forall (fun v => 0 <= v) (fst (demand_for_subregion sub predicted m)).
Proof.
  rewrite demand_for_subregion_cases. cbv zeta.
  destruct (existsb _ _) eqn:E; destruct (Qltb m 0); simpl;
    auto using no_negative_nonneg with futures;
    eapply Forall_impl; try apply fill_zero_all_zero; intros v Hv; rewrite Hv; apply Qle_refl.
Qed.

(** A negative slope zeroes the vector. *)
Lemma demand_for_subregion_slope_neg sub predicted m :
  m < 0 -> Forall (fun v => v == 0) (fst (demand_for_subregion sub predicted m)).
Proof.
  intros Hm. rewrite demand_for_subregion_cases. cbv zeta.
  assert (Qltb m 0 = true) as -> by now apply Qltb_true. apply fill_zero_all_zero.
Qed.

(** ** Properties of the demand step *)

(** Whatever the observations, the fits and the method selected, no
    entry of a subregion's demand vector is negative. *)
Lemma subregion_demand_nonneg `{FloatLib} methods sub obs dev sim d w :
  subregion_demand methods sub obs dev sim = Ok (d, w) -> Forall (fun v => 0 <= v) d.
Proof.
  intros Hd. apply subregion_demand_inv in Hd as [s [_ Hd]].
  pose proof (demand_for_subregion_nonneg sub (fit_predicted (sel_fit s)) (sel_last_m s)) as Hn.
  now rewrite <- Hd in Hn.
Qed.

(** The number of entries of a subregion's demand. *)
Lemma subregion_demand_entries `{FloatLib} methods sub obs dev sim d w :
  subregion_demand methods sub obs dev sim = Ok (d, w) -> length d = (length sim - 1)%nat.
Proof.
  intros Hd. apply subregion_demand_inv in Hd as [s [Hs Hd]].
  destruct (select_fit _ _ _ _ _ Hs) as [_ Hfit].
  rewrite <- (fit_predicted_length _ _ _ _ _ Hfit), <- length_np_diff.
  rewrite demand_for_subregion_cases in Hd. cbv zeta in Hd.
  destruct (existsb _ _), (Qltb _ 0); injection Hd as -> _;
    unfold fill_zero, clamp_negative; rewrite ?length_map; reflexivity.
Qed.

(** The warnings of a subregion form its group: at most the negative-demand
    warning, then at most the inverse-relation warning. *)
Lemma subregion_demand_warnings `{FloatLib} methods sub obs dev sim d w :
  subregion_demand methods sub obs dev sim = Ok (d, w) ->
  exists neg inv, w = warning_group sub neg inv.
Proof.
  intros Hd. apply subregion_demand_inv in Hd as [s [_ Hd]].
  rewrite demand_for_subregion_cases in Hd. cbv zeta in Hd.
  exists (existsb (fun v => Qltb v 0) (np_diff (fit_predicted (sel_fit s)))), (Qltb (sel_last_m s) 0).
  unfold warning_group.
  destruct (existsb _ _), (Qltb _ 0); injection Hd as _ ->; reflexivity.
Qed.

(** C24. When the slope tested is negative the whole vector is zero and
    the inverse-relation warning names the subregion. *)
Theorem demand_zero_when_slope_negative sub predicted m :
  m < 0 ->
  Forall (fun v => v == 0) (fst (demand_for_subregion sub predicted m)) /\
  In (InverseRelation sub) (snd (demand_for_subregion sub predicted m)).
Proof.
  intros Hm. split; [now apply demand_for_subregion_slope_neg|].
  rewrite demand_for_subregion_cases. cbv zeta.
  assert (Qltb m 0 = true) as -> by now apply Qltb_true.
  simpl. apply in_or_app. right; left; reflexivity.
Qed.

(** C25. Non-decreasing predictions and a non-negative slope give the
    plain consecutive differences, with no warning. *)
Theorem demand_monotone_exact sub predicted m :
  Interp.nondecreasing predicted = true -> 0 <= m ->
  demand_for_subregion sub predicted m = (np_diff predicted, []).
Proof.
  intros Hmono Hm. rewrite demand_for_subregion_cases. cbv zeta.
  assert (existsb (fun v => Qltb v 0) (np_diff predicted) = false) as ->.
  { induction predicted as [|a l IH]; [reflexivity|].
    destruct l as [|b l]; [reflexivity|].
    unfold Interp.nondecreasing in Hmono. simpl in Hmono. apply andb_true_iff in Hmono as [Hab Hl].
    change (Qltb (b - a) 0 || existsb (fun v => Qltb v 0) (np_diff (b :: l)) = false).
    rewrite IH by exact Hl. apply Qle_bool_iff in Hab.
    assert (Qltb (b - a) 0 = false) as -> by (apply Qltb_false; lra). reflexivity. }
  assert (Qltb m 0 = false) as -> by now apply Qltb_false. reflexivity.
Qed.

(** C26. The negative-demand warning is emitted exactly when some raw
    difference is negative, and the inverse-relation warning exactly when
    the slope tested is negative. *)
Theorem demand_warnings sub predicted m :
  (In (NegativeDemand sub) (snd (demand_for_subregion sub predicted m)) <->
   exists v, In v (np_diff predicted) /\ v < 0) /\
  (In (InverseRelation sub) (snd (demand_for_subregion sub predicted m)) <-> m < 0).
Proof.
  rewrite demand_for_subregion_cases. cbv zeta.
  destruct (existsb (fun v => Qltb v 0) (np_diff predicted)) eqn:E;
    destruct (Qltb m 0) eqn:Em; qbool; simpl;
    (split; [split|split]);
    try (intros; lra); try tauto;
    try (intros [H'|[H'|[]]]; discriminate H');
    try (intros [H'|[]]; discriminate H').
  all: try (apply existsb_exists in E as [v [Hv Hvl]]; intros _; exists v; split;
            [exact Hv|now apply Qltb_true]).
  all: try (intros [v [Hv Hvl]]; exfalso; assert (Hx : existsb (fun v => Qltb v 0)
              (np_diff predicted) = true) by (apply existsb_exists; exists v;
              split; [exact Hv|now apply Qltb_true]); congruence).
  all: try (intros [H'|[]]; discriminate H'); try (intros _; now right; left).
  all: try (intros _; now left).
Qed.

(** C5. Line 180 tests the slope of the last method of the [method]
    option, not the slope of the selected method: if the last method's
    fit has a negative slope, the whole demand vector is zero, whichever
    method was selected. *)
Theorem subregion_demand_last_slope `{FloatLib} methods sub obs dev sim d w lf :
  subregion_demand methods sub obs dev sim = Ok (d, w) ->
  fit_method (last methods Linear) obs dev sim = Ok lf -> fit_m lf < 0 ->
  Forall (fun v => v == 0) d.
Proof.
  intros Hd Hlf Hneg. apply subregion_demand_inv in Hd as [s [Hs Hd]].
  destruct (select_last_slope _ _ _ _ _ Hs) as [lf' [Hlf' Hm]].
  rewrite Hlf in Hlf'. injection Hlf' as <-.
  rewrite <- Hm in Hneg. pose proof (demand_for_subregion_slope_neg sub (fit_predicted (sel_fit s)) _ Hneg) as Hz.
  rewrite <- Hd in Hz. exact Hz.
Qed.

(** ** Witnesses *)

(** Subregion 3 of the spec's scenario: development falls as the
    population falls, the slope is [-1/20]. *)
Lemma demand_zero_when_slope_negative_witness :
  Forall (fun v => v == 0) (fst (demand_for_subregion "3" [80; 70; 60] (-1 # 20))) /\
  In (InverseRelation "3") (snd (demand_for_subregion "3" [80; 70; 60] (-1 # 20))).
Proof. apply demand_zero_when_slope_negative. reflexivity. Defined.

Lemma demand_monotone_exact_witness :
  demand_for_subregion "1" [30; 40; 50] (1 # 50) = ([10; 10], []).
Proof.
  rewrite (demand_monotone_exact "1" [30; 40; 50] (1 # 50)); [reflexivity|reflexivity|].
  unfold Qle; simpl; lia.
Defined.

(** Population 1000 to 4000 and developed cells 5, 1, 100, 1: the linear
    method is selected with a positive slope, but the exponential method,
    fitted last, has a negative slope, and the growing demand is zeroed. *)
Lemma subregion_demand_last_slope_witness :
  exists d w s, subregion_demand [Linear; Exponential] "1" [1000; 2000; 3000; 4000] [5; 1; 100; 1]
                  [4000; 5000; 6000] = Ok (d, w) /\
    select_subregion [Linear; Exponential] [1000; 2000; 3000; 4000] [5; 1; 100; 1]
      [4000; 5000; 6000] = Ok s /\
    sel_method s = Linear /\ 0 < fit_m (sel_fit s) /\
    np_diff (fit_predicted (sel_fit s)) <> [0; 0] /\
    Forall (fun v => v == 0) d.
Proof.
  destruct (subregion_demand [Linear; Exponential] "1" [1000; 2000; 3000; 4000] [5; 1; 100; 1]
              [4000; 5000; 6000]) as [[d w]|e] eqn:E; [|vm_absurd E].
  destruct (select_subregion [Linear; Exponential] [1000; 2000; 3000; 4000] [5; 1; 100; 1]
              [4000; 5000; 6000]) as [s|e] eqn:Es; [|vm_absurd Es].
  destruct (fit_method Exponential [1000; 2000; 3000; 4000] [5; 1; 100; 1] [4000; 5000; 6000])
    as [lf|e] eqn:Ef; [|vm_absurd Ef].
  exists d, w, s. split; [reflexivity|]. split; [reflexivity|].
  assert (Hs : sel_method s = Linear /\ 0 < fit_m (sel_fit s) /\
               np_diff (fit_predicted (sel_fit s)) <> [0; 0])
    by (vm_in Es; injection Es as <-; split; [reflexivity|];
        split; [vm_compute; reflexivity|discriminate]).
  destruct Hs as (H1 & H2 & H3). split; [exact H1|]. split; [exact H2|]. split; [exact H3|].
  apply (subregion_demand_last_slope [Linear; Exponential] "1" _ _ _ d w lf E Ef).
  vm_in Ef. injection Ef as <-. vm_compute. reflexivity.
Defined.

End Demand.
