(* ===== verification/Table.v ===== *)
(** * TableAssembler: the demand table of [r.futures.demand.py]
    lines 217-236

    The script writes [Years_to_simulate: <len(simulation_times)>], then
    the header of the observed-population file joined by tabs, then one
    row per simulation time after the first: the time as an integer, a
    tab, and for every subregion of the header (after the time column)
    [0] when the subregion is not among the zonal-statistics ids, else
    [str(int(demand[sub][i]))], separated by tabs, where a tab is left out
    after a subregion whose name equals the last header name.  The text
    is modelled as its list of lines ([demand_lines]) written one by one
    ([concat_lines]).  [read_demand] reads such a file back (skip the
    two header lines, split the rows at tabs, [int] of every field); the round trip theorem relates
    it to [write_demand]. *)

From S2P Require Import Prelude.
From Stdlib Require Import String Ascii QArith ZArith Arith List Lia DecimalString DecimalZ.
Import ListNotations.
Open Scope Q_scope.
Open Scope futures_scope.

Module Table.

(** ** Definitions *)

(** [int(x)] on a float: truncation toward zero. *)
Definition py_int (q : Q) : Z := Z.quot (Qnum q) (Zpos (Qden q)).

(** [str(n)] on an integer. *)
Definition py_str_int (z : Z) : string := NilZero.string_of_int (Z.to_int z).

(** The [demand] dictionary: subregion id to demand vector. *)
Definition demand_dict : Type := list (string * list Q).

(** [demand[sub]]. *)
Definition dict_lookup (d : demand_dict) (k : string) : res (list Q) :=
  match find (fun kv => String.eqb (fst kv) k) d with
  | Some kv => Ok (snd kv)
  | None => Err (KeyError k)
  end.

(** Lines 229-232: the field of subregion [sub] in row [i]. *)
Definition cell (subregionIds : list string) (demand : demand_dict) (i : nat) (sub : string)
    : res string :=
  if existsb (String.eqb sub) subregionIds then
    v <- dict_lookup demand sub ;;
    match nth_error v i with
    | Some x => Ok (py_str_int (py_int x))
    | None => Err (IndexError "index out of bounds")
    end
  else Ok "0"%string.

(** Lines 228-234: the fields of a row; no tab after a subregion named
    like the last header name. *)
Fixpoint write_cells (last_name : string) (subregionIds : list string) (demand : demand_dict)
    (i : nat) (subs : list string) : res string :=
  match subs with
  | [] => Ok EmptyString
  | sub :: rest =>
      v <- cell subregionIds demand i sub ;;
      rest_text <- write_cells last_name subregionIds demand i rest ;;
      Ok (append v (append (if String.eqb sub last_name then EmptyString
                            else String tab EmptyString) rest_text))
  end.

(** Lines 225-234: the row of simulation time [time], the [i]-th row. *)
Definition write_row (header subregionIds : list string) (demand : demand_dict)
    (i : nat) (time : Q) : res string :=
  cells <- write_cells (last header EmptyString) subregionIds demand i (tl header) ;;
  Ok (append (py_str_int (py_int time)) (String tab cells)).

(** Lines 223-236: the rows, [i] counting from 0. *)
Fixpoint write_rows (header subregionIds : list string) (demand : demand_dict)
    (i : nat) (times : list Q) : res (list string) :=
  match times with
  | [] => Ok []
  | t :: ts =>
      r <- write_row header subregionIds demand i t ;;
      rs <- write_rows header subregionIds demand (S i) ts ;;
      Ok (r :: rs)
  end.

(** Lines 218-236: the lines of the demand file. *)
Definition demand_lines (simulation_times : list Q) (header subregionIds : list string)
    (demand : demand_dict) : res (list string) :=
  rows <- write_rows header subregionIds demand 0 (tl simulation_times) ;;
  Ok (append "Years_to_simulate: " (py_str_int (Z.of_nat (length simulation_times)))
      :: join tab header :: rows).

(** The text of the file. *)
Definition write_demand (simulation_times : list Q) (header subregionIds : list string)
    (demand : demand_dict) : res string :=
  ls <- demand_lines simulation_times header subregionIds demand ;;
  Ok (concat_lines ls).

(** ** Reading the file back

    The specification describes the file as two header lines followed by
    rows of tab-separated integers.  [read_demand] reads it that way and
    [cell_int] is the integer a field stands for; both belong to the
    specification of the writer, not to the script. *)

Definition cell_int (subregionIds : list string) (demand : demand_dict) (i : nat) (sub : string)
    : res Z :=
  if existsb (String.eqb sub) subregionIds then
    v <- dict_lookup demand sub ;;
    match nth_error v i with
    | Some x => Ok (py_int x)
    | None => Err (IndexError "index out of bounds")
    end
  else Ok 0%Z.

(** A field of the file: a decimal integer literal. *)
Definition int_field (f : string) : res Z :=
  match NilZero.int_of_string f with
  | Some d => Ok (Z.of_int d)
  | None => Err (ValueError f)
  end.

Definition read_row (row : string) : res (list Z) := mapM int_field (split_on tab row).

Definition read_demand (text : string) : res (list (list Z)) :=
  match split_on nl text with
  | _ :: _ :: rest => mapM read_row (removelast rest)
  | _ => Err (ValueError "no header")
  end.

(** ** Characters of the written numbers *)

Lemma no_char_uint u :
  no_char nl (NilEmpty.string_of_uint u) = true /\ no_char tab (NilEmpty.string_of_uint u) = true.
Proof.
  induction u; cbn [NilEmpty.string_of_uint no_char]; try (split; reflexivity);
    destruct IHu as [-> ->]; split; reflexivity.
Qed.

(** A written integer contains neither a newline nor a tab. *)
Lemma py_str_int_clean z :
  no_char nl (py_str_int z) = true /\ no_char tab (py_str_int z) = true.
Proof.
  unfold py_str_int, NilZero.string_of_int, NilZero.string_of_uint.
  destruct (Z.to_int z) as [u|u]; destruct u; cbn [no_char andb negb];
    try (split; reflexivity); apply no_char_uint.
Qed.

Lemma append_empty_r s : append s EmptyString = s.
Proof. induction s as [|a s IH]; simpl; [reflexivity|now rewrite IH]. Qed.

Lemma cell_clean ids demand i sub v :
  cell ids demand i sub = Ok v -> no_char nl v = true /\ no_char tab v = true.
Proof.
  unfold cell. destruct (existsb _ _).
  - intros H. apply bind_Ok in H as [d [_ H]].
    destruct (nth_error d i); [|discriminate]. apply Ok_inj in H as <-. apply py_str_int_clean.
  - intros H. apply Ok_inj in H as <-. split; reflexivity.
Qed.

(** With distinct subregion names the separator logic of the script is a
    plain [join] of the fields. *)
Lemma write_cells_join last_name ids demand i subs t :
  write_cells last_name ids demand i subs = Ok t -> NoDup subs -> subs <> [] ->
  last subs EmptyString = last_name ->
  exists vals, t = join tab vals /\ vals <> [] /\
    Forall2 (fun sub v => cell ids demand i sub = Ok v) subs vals.
Proof.
  revert t; induction subs as [|sub rest IH]; intros t H Hnd Hne Hlast; [congruence|].
  simpl in H. apply bind_Ok in H as [v [Hv H]]. apply bind_Ok in H as [rt [Hrt H]].
  apply Ok_inj in H as <-. apply NoDup_cons_iff in Hnd as [Hnin Hnd'].
  destruct rest as [|sub' rest].
  - simpl in Hlast. subst last_name. rewrite String.eqb_refl. simpl in Hrt.
    apply Ok_inj in Hrt as <-. exists [v]. split; [simpl; now rewrite append_empty_r|].
    split; [discriminate|]. now repeat constructor.
  - assert (Hl : last (sub' :: rest) EmptyString = last_name) by exact Hlast.
    destruct (IH rt Hrt Hnd' ltac:(discriminate) Hl) as (vals & -> & Hvne & Hvals).
    assert (String.eqb sub last_name = false) as ->.
    { apply String.eqb_neq. intros ->. apply Hnin. rewrite <- Hl. apply last_in_list. discriminate. }
    exists (v :: vals). split; [|split; [discriminate|constructor; auto]].
    destruct vals as [|w vals]; [congruence|]. reflexivity.
Qed.

Lemma write_cells_clean last_name ids demand i subs t :
  write_cells last_name ids demand i subs = Ok t -> no_char nl t = true.
Proof.
  revert t; induction subs as [|sub rest IH]; intros t H; simpl in H.
  - apply Ok_inj in H as <-. reflexivity.
  - apply bind_Ok in H as [v [Hv H]]. apply bind_Ok in H as [rt [Hrt H]].
    apply Ok_inj in H as <-. rewrite !no_char_append, (proj1 (cell_clean _ _ _ _ _ Hv)), (IH _ Hrt).
    destruct (String.eqb sub last_name); reflexivity.
Qed.

Lemma write_rows_spec header ids demand i times rows :
  write_rows header ids demand i times = Ok rows ->
  length rows = length times /\ Forall (fun r => no_char nl r = true) rows.
Proof.
  revert i rows; induction times as [|t ts IH]; intros i rows H; simpl in H.
  - apply Ok_inj in H as <-. split; constructor.
  - apply bind_Ok in H as [r [Hr H]]. apply bind_Ok in H as [rs [Hrs H]].
    apply Ok_inj in H as <-. destruct (IH _ _ Hrs) as [Hl Hc].
    split; [simpl; now rewrite Hl|]. constructor; [|exact Hc].
    unfold write_row in Hr. apply bind_Ok in Hr as [c [Hc' Hr]]. apply Ok_inj in Hr as <-.
    rewrite no_char_append, (proj1 (py_str_int_clean _)). simpl. exact (write_cells_clean _ _ _ _ _ _ Hc').
Qed.

(** ** Properties of the writer *)

(** C30. The demand file is the count line [Years_to_simulate: n] with
    [n = len(simulation_times)], the header line, and one line per
    simulation time after the first: splitting the text at newlines
    gives exactly these lines (and the empty rest after the last one). *)
Theorem write_demand_layout sim header ids demand out :
  write_demand sim header ids demand = Ok out ->
  Forall (fun h => no_char nl h = true) header ->
  exists rows,
    split_on nl out =
      append "Years_to_simulate: " (py_str_int (Z.of_nat (length sim)))
      :: join tab header :: rows ++ [EmptyString] /\
    length rows = (length sim - 1)%nat.
Proof.
  intros H Hh. unfold write_demand, demand_lines in H.
  apply bind_Ok in H as [ls [Hls H]]. apply Ok_inj in H as <-.
  apply bind_Ok in Hls as [rows [Hrows Hls]]. apply Ok_inj in Hls as <-.
  destruct (write_rows_spec _ _ _ _ _ _ Hrows) as [Hl Hc].
  exists rows. split.
  - rewrite split_concat_lines; [reflexivity|]. constructor; [|constructor; [|exact Hc]].
    + rewrite no_char_append, (proj1 (py_str_int_clean _)). reflexivity.
    + apply no_char_join; [discriminate|exact Hh].
  - rewrite Hl, length_tl. reflexivity.
Qed.

(** With distinct subregion names, a row splits at tabs into the
    integer time followed by one field per subregion of the header. *)
Lemma write_row_split header ids demand i time row :
  write_row header ids demand i time = Ok row -> NoDup (tl header) -> tl header <> [] ->
  exists vals, split_on tab row = py_str_int (py_int time) :: vals /\
    Forall2 (fun sub v => cell ids demand i sub = Ok v) (tl header) vals.
Proof.
  intros H Hnd Hne. unfold write_row in H.
  apply bind_Ok in H as [c [Hc H]]. apply Ok_inj in H as <-.
  assert (Hlast : last (tl header) EmptyString = last header EmptyString).
  { destruct header as [|h t]; [contradiction|]. destruct t; [contradiction|]. reflexivity. }
  destruct (write_cells_join _ _ _ _ _ _ Hc Hnd Hne Hlast) as (vals & -> & Hvne & Hvals).
  exists vals. split; [|exact Hvals].
  rewrite split_on_append by apply py_str_int_clean. f_equal.
  apply split_join; [exact Hvne|]. clear -Hvals. induction Hvals; constructor; auto.
  now apply (cell_clean ids demand i x).
Qed.

(** ** The file read back *)

Lemma int_field_str z : int_field (py_str_int z) = Ok z.
Proof.
  unfold int_field, py_str_int. rewrite NilZero.isi, DecimalZ.of_to; [reflexivity| |];
    intros Hz; pose proof (DecimalZ.of_to z) as H; rewrite Hz in H; simpl in H; subst z;
    discriminate Hz.
Qed.

Lemma cell_int_spec ids demand i sub v :
  cell ids demand i sub = Ok v -> exists z, cell_int ids demand i sub = Ok z /\ v = py_str_int z.
Proof.
  unfold cell, cell_int. destruct (existsb _ _).
  - destruct (dict_lookup demand sub); cbn [bind]; [|discriminate].
    destruct (nth_error _ i); intros H; [|discriminate]. apply Ok_inj in H as <-. eauto.
  - intros H. apply Ok_inj in H as <-. now exists 0%Z.
Qed.

Lemma write_rows_each header ids demand i times rows :
  write_rows header ids demand i times = Ok rows ->
  Forall2 (fun it r => write_row header ids demand (fst it) (snd it) = Ok r)
          (combine (seq i (length times)) times) rows.
Proof.
  revert i rows; induction times as [|t ts IH]; intros i rows H; simpl in H.
  - apply Ok_inj in H as <-. constructor.
  - apply bind_Ok in H as [r [Hr H]]. apply bind_Ok in H as [rs [Hrs H]].
    apply Ok_inj in H as <-. simpl. constructor; [exact Hr|exact (IH _ _ Hrs)].
Qed.

(** A written row reads back as the integer time and the integers of its
    fields. *)
Lemma read_written_row header ids demand i t row :
  write_row header ids demand i t = Ok row -> NoDup (tl header) -> tl header <> [] ->
  exists zs, read_row row = Ok (py_int t :: zs) /\
    Forall2 (fun sub z => cell_int ids demand i sub = Ok z) (tl header) zs.
Proof.
  intros Hr Hnd Hne. destruct (write_row_split _ _ _ _ _ _ Hr Hnd Hne) as [vals [Hs Hvals]].
  unfold read_row. rewrite Hs. cbn [mapM]. rewrite int_field_str. cbn [bind].
  assert (Hz : exists zs, mapM int_field vals = Ok zs /\
            Forall2 (fun sub z => cell_int ids demand i sub = Ok z) (tl header) zs).
  { clear -Hvals. induction Hvals as [|sub v subs vs Hv _ [zs [Hzs Hall]]]; [now exists []|].
    destruct (cell_int_spec _ _ _ _ _ Hv) as [z [Hz ->]]. exists (z :: zs).
    simpl. rewrite int_field_str, Hzs. split; [reflexivity|constructor; assumption]. }
  destruct Hz as [zs [-> Hall]]. now exists zs.
Qed.

(** Reading a written file back (the round trip below). *)
Lemma read_written_demand sim header ids demand text :
  write_demand sim header ids demand = Ok text ->
  NoDup (tl header) -> tl header <> [] -> Forall (fun h => no_char nl h = true) header ->
  exists rows, read_demand text = Ok rows /\
    Forall2 (fun it row => exists zs, row = py_int (snd it) :: zs /\
               Forall2 (fun sub z => cell_int ids demand (fst it) sub = Ok z) (tl header) zs)
            (combine (seq 0 (length (tl sim))) (tl sim)) rows.
Proof.
  intros H Hnd Hne Hh. unfold write_demand, demand_lines in H.
  apply bind_Ok in H as [ls [Hls H]]. apply Ok_inj in H as <-.
  apply bind_Ok in Hls as [rows [Hrows Hls]]. apply Ok_inj in Hls as <-.
  destruct (write_rows_spec _ _ _ _ _ _ Hrows) as [_ Hc].
  unfold read_demand. rewrite split_concat_lines.
  - cbn [app]. rewrite removelast_last.
    pose proof (write_rows_each _ _ _ _ _ _ Hrows) as Heach.
    assert (Hread : exists rs, Forall2 (fun r row => read_row r = Ok row) rows rs /\
              Forall2 (fun it row => exists zs, row = py_int (snd it) :: zs /\
                Forall2 (fun sub z => cell_int ids demand (fst it) sub = Ok z) (tl header) zs)
              (combine (seq 0 (length (tl sim))) (tl sim)) rs).
    { clear -Heach Hnd Hne. induction Heach as [|[i t] r its rs Hr _ [rs' [H1 H2]]]; [now exists []|].
      destruct (read_written_row _ _ _ _ _ _ Hr Hnd Hne) as [zs [Hz Hall]].
      exists ((py_int t :: zs) :: rs'). split; constructor; eauto. }
    destruct Hread as [rs [H1 H2]]. exists rs. split; [now apply Forall2_mapM|exact H2].
  - constructor; [|constructor; [|exact Hc]].
    + rewrite no_char_append, (proj1 (py_str_int_clean _)). reflexivity.
    + apply no_char_join; [discriminate|exact Hh].
Qed.

(** C9. Round trip of the demand file: reading the written file back
    at newlines and tabs with [int] gives, for every simulation time
    after the first, its integer time followed by the integer of each
    header subregion, in header order ([0] for a subregion without
    zonal statistics, else the truncated demand). *)
Theorem demand_file_roundtrip sim header ids demand text :
  write_demand sim header ids demand = Ok text ->
  NoDup (tl header) -> tl header <> [] -> Forall (fun h => no_char nl h = true) header ->
  exists rows, read_demand text = Ok rows /\
    Forall2 (fun it row => exists zs, row = py_int (snd it) :: zs /\
               Forall2 (fun sub z => cell_int ids demand (fst it) sub = Ok z) (tl header) zs)
            (combine (seq 0 (length (tl sim))) (tl sim)) rows.
Proof. exact (read_written_demand sim header ids demand text). Qed.

(** ** Witnesses *)

Local Open Scope string_scope.
Local Open Scope Q_scope.

Lemma write_demand_layout_witness :
  exists out rows, write_demand [2010; 2020; 2030] ["year"; "1"; "2"] ["1"]
                     [("1"%string, [10; 10])] = Ok out /\
    split_on nl out = append "Years_to_simulate: " (py_str_int 3)
                      :: join tab ["year"; "1"; "2"] :: rows ++ [EmptyString] /\
    length rows = 2%nat.
Proof.
  destruct (write_demand [2010; 2020; 2030] ["year"; "1"; "2"] ["1"] [("1"%string, [10; 10])])
    as [out|e] eqn:E; [|vm_absurd E].
  destruct (write_demand_layout _ _ _ _ _ E) as [rows [H1 H2]]; [repeat constructor|].
  exists out, rows. split; [reflexivity|]. split; [exact H1|exact H2].
Defined.

Lemma demand_file_roundtrip_witness :
  exists text rows, write_demand [2010; 2020; 2030] ["year"; "1"; "2"] ["1"]
                      [("1"%string, [10; 10])] = Ok text /\
    read_demand text = Ok rows /\
    Forall2 (fun it row => exists zs, row = py_int (snd it) :: zs /\
               Forall2 (fun sub z => cell_int ["1"] [("1"%string, [10; 10])] (fst it) sub = Ok z)
                       ["1"; "2"] zs)
            (combine (seq 0 2) [2020; 2030]) rows.
Proof.
  destruct (write_demand [2010; 2020; 2030] ["year"; "1"; "2"] ["1"] [("1"%string, [10; 10])])
    as [text|e] eqn:E; [|vm_absurd E].
  destruct (demand_file_roundtrip _ _ _ _ _ E) as [rows [H1 H2]];
    [repeat constructor; simpl; intuition discriminate|discriminate|repeat constructor|].
  exists text, rows. split; [reflexivity|]. split; [exact H1|exact H2].
Defined.

End Table.
