(* ===== verification/Plot.v ===== *)
(** * The plot of [r.futures.demand.py] (lines 136-139, 185-215)

    With the [plot] option the script makes a square grid of
    [n_plots = ceil(sqrt(len(subregionIds)))] subplots (line 138) and,
    for the [i]-th subregion in sorted order, draws into subplot [i]
    (line 187): the observed points (population, developed cells), the
    curve of the selected method over ten points [x_pred] from the
    smallest observed population to the largest simulated one
    (lines 196-207), and the predictions at the simulated populations
    (line 209); the title gives the RMSE and the legend the fitted
    formula.  [plot_subregion] computes what is drawn, with the check of
    [add_subplot] that the subplot number lies in the grid; [figure] is
    the figure of line 139 the subplots join ([add_axes]).  The layout
    [tight_layout] computes and the image [savefig] renders
    (lines 213-215) are matplotlib's and are not modelled.  [str] and ['{:.3f}'.format] of floats are the class
    [FloatFormat]. *)

From S2P Require Import Prelude Numerics Lstsq Select Table.
From Stdlib Require Import String Ascii QArith Qround Qminmax ZArith Arith List Lia Lqa DecimalString Sorted.
Import ListNotations.
Open Scope Q_scope.
Open Scope futures_scope.

Module Plot.

Import Lstsq Select Table.

(** ** Definitions *)

(** [str(x)] and ['{:.3f}'.format(x)] of a finite float. *)
Class FloatFormat : Type := {
  f_str : Q -> string;
  f_fmt3 : Q -> string
}.

Definition py_str_float `{FloatFormat} (v : pyfloat) : string :=
  match v with
  | PFin q => f_str q
  | PInf => "inf"
  | PNInf => "-inf"
  | PNaN => "nan"
  end.

(** [fig.add_subplot(nrows, ncols, num)] raises [ValueError] unless
    [1 <= num <= nrows * ncols]. *)
Definition add_subplot (nrows ncols num : Z) : res unit :=
  if (1 <=? num)%Z && (num <=? nrows * ncols)%Z then Ok tt
  else Err (ValueError "num must be 1 <= num <= nrows * ncols").

(** [np.linspace(a, b, k)]: [k] points, the last one exactly [b]. *)
Definition linspace (a b : Q) (k : nat) : list Q :=
  match k with
  | O => []
  | S O => [a]
  | S k' => map (fun j => a + inject_Z (Z.of_nat j) * ((b - a) / inject_Z (Z.of_nat k'))) (seq 0 k')
            ++ [b]
  end.

(** [np.min] and [np.max]; an empty array raises [ValueError]. *)
Definition np_min (l : list Q) : res Q :=
  match l with [] => Err (ValueError "zero-size array") | a :: r => Ok (fold_left Qmin r a) end.

Definition np_max (l : list Q) : res Q :=
  match l with [] => Err (ValueError "zero-size array") | a :: r => Ok (fold_left Qmax r a) end.

Section Draw.

Context `{FloatLib} `{FloatFormat}.

(** Line 138. *)
Definition n_plots (n : nat) : Z := Qceiling (f_sqrt (inject_Z (Z.of_nat n))).

(** Lines 199-206: the curve of the method. *)
Definition plot_curve (meth : method) (m c x : Q) : Q :=
  match meth with
  | Linear => x * m + c
  | Logarithmic => f_log x * m + c
  | Exponential => f_exp (x * m + c)
  end.

(** Lines 201, 204, 207: the legend. *)
Definition plot_label (meth : method) (m c : Q) : string :=
  match meth with
  | Linear => "$y = " ++ f_fmt3 c ++ " + " ++ f_fmt3 m ++ " x$"
  | Logarithmic => "$y = " ++ f_fmt3 c ++ " + " ++ f_fmt3 m ++ " \ln(x)$"
  | Exponential => "$y = " ++ f_fmt3 (f_exp c) ++ " e^{" ++ f_fmt3 m ++ "x}$"
  end%string.

(** What one subplot shows: its number, title and axis labels
    (lines 187-190), the known points (lines 192-194), the curve and its
    legend (lines 196-208), the simulated points (line 209), the legend
    location (line 210) and the rotation of the x tick labels
    (lines 211-212). *)
Record subplot : Type := {
  sp_num : Z;
  sp_title : string;
  sp_xlabel : string;
  sp_ylabel : string;
  sp_known : list (Q * Q);
  sp_x_pred : list Q;
  sp_line : list Q;
  sp_label : string;
  sp_simulated : list (Q * Q);
  sp_legend_loc : Z;
  sp_xtick_rotation : Z
}.

(** The figure of line 139, [plt.figure(figsize=(5 * n_plots,
    5 * n_plots))], with the subplots added to it in order. *)
Record figure : Type := {
  fig_size : Z * Z;
  fig_axes : list subplot
}.

Definition new_figure (nplots : Z) : figure := {| fig_size := (5 * nplots, 5 * nplots)%Z; fig_axes := [] |}.

(** [fig.add_subplot] followed by the drawing: the axes join the figure. *)
Definition add_axes (f : figure) (sp : subplot) : figure :=
  {| fig_size := fig_size f; fig_axes := fig_axes f ++ [sp] |}.

(** Lines 186-212 for the [i]-th subregion [sub], with its selection [s]
    ([method], [coeff[method]], [rmse[method]], [predicted[method]]). *)
Definition plot_subregion (nplots i : Z) (sub : string) (s : selection)
    (obs_pop developed simulated : list Q) : res subplot :=
  _ <- add_subplot nplots nplots i ;;
  lo <- np_min obs_pop ;;
  hi <- np_max simulated ;;
  let x_pred := linspace lo hi 10 in
  let m := fit_m (sel_fit s) in
  let c := fit_c (sel_fit s) in
  Ok {| sp_num := i;
        sp_title := (sub ++ ", RMSE: " ++ py_str_float (fit_rmse (sel_fit s)))%string;
        sp_xlabel := "population"; sp_ylabel := "developed cells";
        sp_known := combine obs_pop developed;
        sp_x_pred := x_pred;
        sp_line := map (plot_curve (sel_method s) m c) x_pred;
        sp_label := plot_label (sel_method s) m c;
        sp_simulated := combine simulated (fit_predicted (sel_fit s));
        sp_legend_loc := 0; sp_xtick_rotation := 30 |}.

End Draw.

(** A [FloatFormat] that prints the exact fraction, used by the examples
    below. *)
#[export] Instance fraction_format : FloatFormat := {|
  f_str := fun q => (NilZero.string_of_int (Z.to_int (Qnum q)) ++ "/"
                     ++ NilZero.string_of_int (Z.to_int (Zpos (Qden q))))%string;
  f_fmt3 := fun q => NilZero.string_of_int (Z.to_int (Qfloor q))
|}.

(** A selection used by the examples below. *)
Definition demo_selection : selection :=
  {| sel_method := Linear;
     sel_fit := {| fit_m := 1; fit_c := 0; fit_predicted := [3; 4]; fit_rmse := PFin 0 |};
     sel_last_m := 1 |}.

(** ** Properties *)

Lemma linspace_length a b k : length (linspace a b k) = k.
Proof.
  destruct k as [|[|k]]; [reflexivity|reflexivity|].
  cbn [linspace]. rewrite length_app, length_map, length_seq. cbn. lia.
Qed.

Lemma sorted_map_seq_app (g : nat -> Q) b s n :
  (forall j, g j <= g (S j)) -> (forall j, (j < s + n)%nat -> g j <= b) ->
  Sorted Qle (map g (seq s n) ++ [b]).
Proof.
  intros Hg. revert s. induction n as [|n IH]; intros s Hb; cbn [seq map app].
  - repeat constructor.
  - constructor; [apply IH; intros j Hj; apply Hb; lia|].
    destruct n; constructor; [apply Hb; lia|apply Hg].
Qed.

Lemma inject_Z_pos z : (0 < z)%Z -> 0 < inject_Z z.
Proof. intros Hz. unfold Qlt. cbn. lia. Qed.

Lemma inject_Z_nonneg z : (0 <= z)%Z -> 0 <= inject_Z z.
Proof. intros Hz. unfold Qle. cbn. lia. Qed.

Section Linspace.

Variables (a b : Q) (k : nat).
Hypothesis Hab : a <= b.

Let d := (b - a) / inject_Z (Z.of_nat (S k)).

Lemma linspace_step_nonneg : 0 <= d.
Proof.
  unfold d. apply Qle_shift_div_l; [apply inject_Z_pos; lia|]. rewrite Qmult_0_l. lra.
Qed.

Lemma linspace_point_bounds j :
  (j <= S k)%nat -> a <= a + inject_Z (Z.of_nat j) * d <= b.
Proof.
  intros Hj. pose proof linspace_step_nonneg as Hd.
  assert (Hk : inject_Z (Z.of_nat (S k)) * d == b - a).
  { unfold d. apply Qmult_div_r. intros E.
    pose proof (inject_Z_pos (Z.of_nat (S k)) ltac:(lia)) as Hp. lra. }
  assert (H0 : 0 <= inject_Z (Z.of_nat j)) by (apply inject_Z_nonneg; lia).
  assert (Hle : inject_Z (Z.of_nat j) * d <= inject_Z (Z.of_nat (S k)) * d).
  { apply Qmult_le_compat_r; [rewrite <- Zle_Qle; lia|exact Hd]. }
  split; [|lra]. pose proof (Qmult_le_0_compat _ _ H0 Hd). lra.
Qed.

Lemma linspace_sorted : Sorted Qle (linspace a b (S (S k))).
Proof.
  cbn [linspace]. fold d. apply sorted_map_seq_app.
  - intros j. rewrite Nat2Z.inj_succ, <- Z.add_1_r, inject_Z_plus, Qmult_plus_distr_l, Qmult_1_l.
    pose proof linspace_step_nonneg. lra.
  - intros j Hj. apply linspace_point_bounds. lia.
Qed.

Lemma linspace_bounds : Forall (fun x => a <= x <= b) (linspace a b (S (S k))).
Proof.
  cbn [linspace]. fold d. apply Forall_app. split.
  - apply Forall_forall. intros x Hx. apply in_map_iff in Hx as (j & <- & Hj).
    apply in_seq in Hj. apply linspace_point_bounds. lia.
  - constructor; [lra|constructor].
Qed.

End Linspace.

Lemma linspace_first a b k : nth 0 (linspace a b (S (S k))) 0 == a.
Proof. cbn. ring. Qed.

Lemma linspace_last a b k : last (linspace a b (S (S k))) 0 = b.
Proof. cbn [linspace]. apply last_last. Qed.

Lemma Qmult_comm_eq x y : x * y = y * x.
Proof. destruct x as [p q], y as [p' q']. unfold Qmult. cbn. rewrite Z.mul_comm, Pos.mul_comm. reflexivity. Qed.

Lemma combine_map_r {A B} (f : A -> B) l : combine l (map f l) = map (fun x => (x, f x)) l.
Proof. induction l as [|x l IH]; cbn; [reflexivity|now rewrite IH]. Qed.

Lemma n_plots_square `{FloatLib} n :
  inject_Z (Z.sqrt_up (Z.of_nat n) - 1) < f_sqrt (inject_Z (Z.of_nat n)) ->
  (Z.of_nat n <= n_plots n * n_plots n)%Z.
Proof.
  unfold n_plots. intros Hs.
  pose proof (Qlt_le_trans _ _ _ Hs (Qle_ceiling _)) as Hc. rewrite <- Zlt_Qlt in Hc.
  set (c := Qceiling _) in *. pose proof (Z.sqrt_up_nonneg (Z.of_nat n)).
  destruct (Nat.eq_dec n 0) as [->|Hn]; [cbn in *; nia|].
  destruct (Z.sqrt_up_spec (Z.of_nat n)) as [_ Hsq]; [lia|]. nia.
Qed.

(** [np.min] and [np.max] return an element that bounds all the others. *)
Lemma fold_left_select (f : Q -> Q -> Q) (R : Q -> Q -> Prop)
    (Htr : forall x y z, R x y -> R y z -> R x z) (Hrefl : forall x, R x x)
    (Hsel : forall x y, f x y = x \/ f x y = y)
    (Hl : forall x y, R (f x y) x) (Hr : forall x y, R (f x y) y) r a :
  In (fold_left f r a) (a :: r) /\ Forall (R (fold_left f r a)) (a :: r).
Proof.
  revert a. induction r as [|b r IH]; intros a; cbn [fold_left].
  - split; [now left|]. constructor; [apply Hrefl|constructor].
  - destruct (IH (f a b)) as [Hin Hall]. inversion Hall as [|? ? Hab Hrest]; subst.
    split.
    + destruct Hin as [Heq|Hin]; [|now right; right].
      rewrite <- Heq. destruct (Hsel a b) as [->| ->]; [now left|now right; left].
    + constructor; [eauto|constructor; eauto].
Qed.

Lemma Qmin_sel x y : Qmin x y = x \/ Qmin x y = y.
Proof. unfold Qmin, GenericMinMax.gmin. destruct (x ?= y); auto. Qed.

Lemma Qmax_sel x y : Qmax x y = x \/ Qmax x y = y.
Proof. unfold Qmax, GenericMinMax.gmax. destruct (x ?= y); auto. Qed.

Lemma np_min_spec l lo : np_min l = Ok lo -> In lo l /\ Forall (fun x => lo <= x) l.
Proof.
  destruct l as [|a r]; cbn; intros H; [discriminate|]. injection H as <-.
  apply fold_left_select; [exact Qle_trans|exact Qle_refl|exact Qmin_sel|
                           exact Q.le_min_l|exact Q.le_min_r].
Qed.

Lemma np_max_spec l hi : np_max l = Ok hi -> In hi l /\ Forall (fun x => x <= hi) l.
Proof.
  destruct l as [|a r]; cbn; intros H; [discriminate|]. injection H as <-.
  apply (fold_left_select Qmax (fun a b => b <= a));
    [intros x y z Hxy Hyz; exact (Qle_trans _ _ _ Hyz Hxy)|exact Qle_refl|exact Qmax_sel|
     exact Q.le_max_l|exact Q.le_max_r].
Qed.

Section Properties.

Context `{FloatLib} `{FloatFormat}.

Lemma plot_subregion_inv np i sub s obs dev sim sp :
  plot_subregion np i sub s obs dev sim = Ok sp ->
  (1 <= i <= np * np)%Z /\ exists lo hi, np_min obs = Ok lo /\ np_max sim = Ok hi /\
    sp_num sp = i /\ sp_x_pred sp = linspace lo hi 10 /\
    sp_line sp = map (plot_curve (sel_method s) (fit_m (sel_fit s)) (fit_c (sel_fit s))) (sp_x_pred sp) /\
    sp_simulated sp = combine sim (fit_predicted (sel_fit s)).
Proof.
  unfold plot_subregion, add_subplot. intros Hp.
  destruct ((1 <=? i)%Z && (i <=? np * np)%Z) eqn:Hi; cbn [bind] in Hp; [|discriminate].
  apply andb_true_iff in Hi as [Hi1 Hi2]. apply Z.leb_le in Hi1, Hi2. split; [lia|].
  destruct (np_min obs) as [lo|]; cbn [bind] in Hp; [|discriminate].
  destruct (np_max sim) as [hi|]; cbn [bind] in Hp; [|discriminate].
  injection Hp as <-. exists lo, hi. repeat split.
Qed.

Lemma plot_subregion_ok np i sub s obs dev sim :
  (1 <= i <= np * np)%Z -> obs <> [] -> sim <> [] ->
  exists sp, plot_subregion np i sub s obs dev sim = Ok sp /\ sp_num sp = i.
Proof.
  intros Hi Ho Hs. destruct obs as [|o0 obs]; [congruence|]. destruct sim as [|s0 sim]; [congruence|].
  unfold plot_subregion, add_subplot.
  replace ((1 <=? i)%Z && (i <=? np * np)%Z) with true
    by (symmetry; apply andb_true_iff; split; apply Z.leb_le; lia).
  cbn [bind np_min np_max]. eexists. split; reflexivity.
Qed.

(** C15. The hollow markers of the simulated populations (line 209) lie
    on the drawn curve of the selected method (lines 199-206): the
    predictions of [fit_method] and the formula of the plot agree for
    each of the three methods. *)
Theorem plot_simulated_on_curve methods np i sub s obs dev sim sp :
  select_subregion methods obs dev sim = Ok s ->
  plot_subregion np i sub s obs dev sim = Ok sp ->
  sp_simulated sp =
    map (fun x => (x, plot_curve (sel_method s) (fit_m (sel_fit s)) (fit_c (sel_fit s)) x)) sim.
Proof.
  intros Hs Hp.
  destruct (plot_subregion_inv _ _ _ _ _ _ _ _ Hp) as (_ & lo & hi & _ & _ & _ & _ & _ & ->).
  destruct (select_fit obs dev sim methods s Hs) as [_ Hf]. unfold fit_method in Hf.
  destruct (sel_method s); cbv beta iota zeta in Hf;
    match type of Hf with
    | bind (lstsq ?xs ?ys) _ = _ => destruct (lstsq xs ys) as [[m c]|e]
    end; cbn [bind] in Hf; try discriminate; injection Hf as <-;
    cbn [fit_m fit_c fit_predicted]; rewrite combine_map_r; apply map_ext; intros x;
    cbn [plot_curve]; try rewrite (Qmult_comm_eq m x); reflexivity.
Qed.

(** C38. The curve is drawn over [x_pred], ten points from the smallest
    observed population to the largest simulated one (line 196): the
    first is [np.min(x)], the last [np.max(...)] exactly, they are
    non-decreasing and stay in that range when the range is not empty,
    and the line is the method's formula at each of them. *)
Theorem plot_x_pred_range np i sub s obs dev sim sp :
  plot_subregion np i sub s obs dev sim = Ok sp ->
  exists lo hi, In lo obs /\ Forall (fun x => lo <= x) obs /\
    In hi sim /\ Forall (fun x => x <= hi) sim /\
    length (sp_x_pred sp) = 10%nat /\ nth 0 (sp_x_pred sp) 0 == lo /\
    last (sp_x_pred sp) 0 = hi /\
    (lo <= hi -> Sorted Qle (sp_x_pred sp) /\ Forall (fun x => lo <= x <= hi) (sp_x_pred sp)) /\
    sp_line sp = map (plot_curve (sel_method s) (fit_m (sel_fit s)) (fit_c (sel_fit s))) (sp_x_pred sp).
Proof.
  intros Hp.
  destruct (plot_subregion_inv _ _ _ _ _ _ _ _ Hp) as (_ & lo & hi & Hlo & Hhi & _ & Hx & Hline & _).
  destruct (np_min_spec _ _ Hlo), (np_max_spec _ _ Hhi).
  exists lo, hi. rewrite Hline, Hx.
  do 4 (split; [assumption|]).
  split; [apply linspace_length|]. split; [apply linspace_first|]. split; [apply linspace_last|].
  split; [|reflexivity]. intros Hle. split; [apply linspace_sorted|apply linspace_bounds]; exact Hle.
Qed.

End Properties.

(** ** Witnesses *)

Lemma plot_simulated_on_curve_witness :
  exists s sp,
    select_subregion [Linear; Logarithmic] [1000; 1500; 2000] [10; 20; 30] [2000; 2500; 3000] = Ok s /\
    plot_subregion 2 1 "1" s [1000; 1500; 2000] [10; 20; 30] [2000; 2500; 3000] = Ok sp /\
    sp_simulated sp = map (fun x => (x, plot_curve (sel_method s) (fit_m (sel_fit s)) (fit_c (sel_fit s)) x))
                          [2000; 2500; 3000].
Proof.
  destruct (select_subregion [Linear; Logarithmic] [1000; 1500; 2000] [10; 20; 30] [2000; 2500; 3000])
    as [s|e] eqn:Hs; [|vm_absurd Hs].
  destruct (plot_subregion 2 1 "1" s [1000; 1500; 2000] [10; 20; 30] [2000; 2500; 3000])
    as [sp|e] eqn:Hp; [|exfalso; revert Hp; unfold plot_subregion, add_subplot; cbn; discriminate].
  exists s, sp. split; [reflexivity|split; [exact Hp|]].
  eapply plot_simulated_on_curve; eassumption.
Defined.

Lemma plot_x_pred_range_witness :
  exists sp lo hi, plot_subregion 1 1 "3" demo_selection [5; 2] [5; 2] [6; 7] = Ok sp /\
    In lo [5; 2] /\ In hi [6; 7] /\ length (sp_x_pred sp) = 10%nat /\ last (sp_x_pred sp) 0 = hi.
Proof.
  destruct (plot_subregion 1 1 "3" demo_selection [5; 2] [5; 2] [6; 7]) as [sp|e] eqn:Hp;
    [|vm_absurd Hp].
  destruct (plot_x_pred_range _ _ _ _ _ _ _ _ Hp) as (lo & hi & Hlo & _ & Hhi & _ & Hl & _ & Hlast & _).
  exists sp, lo, hi. repeat split; assumption.
Defined.

End Plot.
