(* ===== verification/Developed.v ===== *)
(** * The developed-cell table of [r.futures.demand.py] lines 108-125

    For every observed time [i] the script runs
    [r.univar -gt zones=subregions map=developments[i]] and reads its
    output line by line: a line split at [|] whose first field is [zone]
    is the header and is skipped; otherwise the first field is the zone
    id and field 12 (the sum of the binary development map) is the
    number of developed cells.  The id is added to the set
    [subregionIds]; when [i == 0] the list [table_developed[id]] is
    created empty, and the count is appended to it.  A zone that first
    appears in a later raster has no list and [append] raises [KeyError];
    a zone missing from a later raster silently gets a shorter list.
    [subregionIds] is finally sorted.  The [r.univar] output is given as
    its list of lines ([data.splitlines()]).  [sorted] is an insertion
    sort, proved to return the sorted permutation of its input, and the
    table is well formed ([table_wf]: its keys are the ids, without
    duplicates) after every step of the loop. *)

From S2P Require Import Prelude.
From Stdlib Require Import String Ascii ZArith Arith List Lia DecimalString Sorted Permutation.
From Stdlib Require Import RelationClasses.
Import ListNotations.
Open Scope futures_scope.

Module Developed.

(** ** Definitions *)

Definition bar : ascii := "|"%char.

(** Lines 116-119 for one output line: [None] for the header line, else
    the zone id and its developed cells. *)
Definition parse_line (line : string) : res (option (string * Z)) :=
  let stats := split_on bar line in
  match stats with
  | [] => Err (IndexError "list index out of range")
  | s0 :: _ =>
      if String.eqb s0 "zone" then Ok None
      else match nth_error stats 12 with
           | None => Err (IndexError "list index out of range")
           | Some f => c <- py_int_of_string f ;; Ok (Some (s0, c))
           end
  end.

(** The dictionary [table_developed], insertion-ordered. *)
Definition sdict : Type := list (string * list Z).

Fixpoint sdict_set (k : string) (v : list Z) (d : sdict) : sdict :=
  match d with
  | [] => [(k, v)]
  | (k', v') :: d' => if String.eqb k k' then (k, v) :: d' else (k', v') :: sdict_set k v d'
  end.

Fixpoint sdict_get (k : string) (d : sdict) : option (list Z) :=
  match d with
  | [] => None
  | (k', v') :: d' => if String.eqb k k' then Some v' else sdict_get k d'
  end.

(** [subregionIds.add(id)] on the set kept as a list in insertion order. *)
Definition set_add (ids : list string) (sub : string) : list string :=
  if existsb (String.eqb sub) ids then ids else ids ++ [sub].

(** Lines 120-123 for one parsed record of raster [i]. *)
Definition record_step (i : nat) (st : sdict * list string) (sub : string) (cells : Z)
    : res (sdict * list string) :=
  let '(table, ids) := st in
  let ids' := set_add ids sub in
  let table' := if Nat.eqb i 0 then sdict_set sub [] table else table in
  match sdict_get sub table' with
  | None => Err (KeyError sub)
  | Some l => Ok (sdict_set sub (l ++ [cells]) table', ids')
  end.

(** Lines 115-123: the lines of the output for raster [i]. *)
Fixpoint raster_step (i : nat) (st : sdict * list string) (lines : list string)
    : res (sdict * list string) :=
  match lines with
  | [] => Ok st
  | line :: rest =>
      p <- parse_line line ;;
      st' <- match p with
             | None => Ok st
             | Some (sub, cells) => record_step i st sub cells
             end ;;
      raster_step i st' rest
  end.

(** Lines 112-124: every raster in turn, [i] counting from 0. *)
Fixpoint rasters_from (i : nat) (st : sdict * list string) (outputs : list (list string))
    : res (sdict * list string) :=
  match outputs with
  | [] => Ok st
  | lines :: rest => st' <- raster_step i st lines ;; rasters_from (S i) st' rest
  end.

(** [sorted(list(subregionIds))]: Python orders strings by code point. *)
Fixpoint insert_sorted (s : string) (l : list string) : list string :=
  match l with
  | [] => [s]
  | x :: l' => if String.leb s x then s :: l else x :: insert_sorted s l'
  end.

Definition sort_strings (l : list string) : list string := fold_right insert_sorted [] l.

(** Lines 110-125: the developed-cell table and the sorted ids. *)
Definition gather_developed (outputs : list (list string)) : res (sdict * list string) :=
  '(table, ids) <- rasters_from 0 ([], []) outputs ;;
  Ok (table, sort_strings ids).

(** The records of one output: its non-header lines, parsed. *)
Fixpoint records (lines : list string) : res (list (string * Z)) :=
  match lines with
  | [] => Ok []
  | line :: rest =>
      p <- parse_line line ;;
      rs <- records rest ;;
      Ok (match p with None => rs | Some r => r :: rs end)
  end.

Fixpoint apply_records (i : nat) (st : sdict * list string) (recs : list (string * Z))
    : res (sdict * list string) :=
  match recs with
  | [] => Ok st
  | (sub, c) :: rs => st' <- record_step i st sub c ;; apply_records i st' rs
  end.

(** The count of zone [z] in the records of one raster. *)
Definition count_of (z : string) (recs : list (string * Z)) : Z :=
  match find (fun r => String.eqb (fst r) z) recs with
  | Some r => snd r
  | None => 0%Z
  end.

(** ** Lemmas on the dictionary *)

Lemma sdict_get_set k k' v d :
  sdict_get k (sdict_set k' v d) = if String.eqb k k' then Some v else sdict_get k d.
Proof.
  induction d as [|[j w] d IH]; simpl; [reflexivity|].
  destruct (String.eqb_spec k' j) as [<-|Hne]; simpl.
  - destruct (String.eqb k k'); reflexivity.
  - destruct (String.eqb_spec k j) as [->|Hkj].
    + destruct (String.eqb_spec j k'); [congruence|reflexivity].
    + rewrite IH. reflexivity.
Qed.

Lemma sdict_get_None k d : sdict_get k d = None <-> ~ In k (map fst d).
Proof.
  induction d as [|[j w] d IH]; simpl; [tauto|].
  destruct (String.eqb_spec k j) as [->|Hne]; [split; [discriminate|tauto]|].
  rewrite IH. intuition congruence.
Qed.

Lemma sdict_set_new k v d : sdict_get k d = None -> sdict_set k v d = d ++ [(k, v)].
Proof.
  induction d as [|[j w] d IH]; simpl; [reflexivity|].
  destruct (String.eqb k j); [discriminate|]. intros H. now rewrite IH.
Qed.

Lemma keys_sdict_set_old k v d : sdict_get k d <> None -> map fst (sdict_set k v d) = map fst d.
Proof.
  induction d as [|[j w] d IH]; simpl; [congruence|].
  destruct (String.eqb_spec k j) as [->|_]; simpl; [reflexivity|]. intros H. now rewrite IH.
Qed.

Lemma raster_step_records i st lines recs :
  records lines = Ok recs -> raster_step i st lines = apply_records i st recs.
Proof.
  revert st recs; induction lines as [|l ls IH]; intros st recs H; simpl in H.
  - now apply Ok_inj in H as <-.
  - apply bind_Ok in H as [p [Hp H]]. apply bind_Ok in H as [rs [Hrs H]].
    apply Ok_inj in H as <-. simpl. rewrite Hp. cbn [bind].
    destruct p as [[sub c]|]; cbn [bind]; [|now apply IH].
    simpl. destruct (record_step i st sub c); cbn [bind]; [now apply IH|reflexivity].
Qed.

Lemma set_add_present ids z : In z ids -> set_add ids z = ids.
Proof.
  intros H. unfold set_add. replace (existsb (String.eqb z) ids) with true; [reflexivity|].
  symmetry. apply existsb_exists. exists z. split; [exact H|apply String.eqb_refl].
Qed.

Lemma sdict_set_last z v w T :
  sdict_get z T = None -> sdict_set z v (T ++ [(z, w)]) = T ++ [(z, v)].
Proof.
  induction T as [|[j u] T IH]; simpl; intros H.
  - now rewrite String.eqb_refl.
  - destruct (String.eqb z j); [discriminate|]. now rewrite IH.
Qed.

Lemma record_step_first T ids z c :
  sdict_get z T = None -> record_step 0 (T, ids) z c = Ok (T ++ [(z, [c])], set_add ids z).
Proof.
  intros H. unfold record_step. cbv beta iota zeta. change (Nat.eqb 0 0) with true.
  cbv iota. rewrite sdict_get_set, String.eqb_refl, (sdict_set_new _ _ _ H).
  cbn [app]. now rewrite sdict_set_last.
Qed.

Lemma record_step_later i T ids z c l :
  i <> 0%nat -> sdict_get z T = Some l ->
  record_step i (T, ids) z c = Ok (sdict_set z (l ++ [c]) T, set_add ids z).
Proof.
  intros Hi H. unfold record_step. cbv beta iota zeta. destruct i; [congruence|].
  change (Nat.eqb (S i) 0) with false. cbv iota. now rewrite H.
Qed.

(** The first raster creates one single-count list per zone. *)
Lemma apply_records_first T ids recs :
  NoDup (map fst recs) -> (forall r, In r recs -> sdict_get (fst r) T = None) ->
  apply_records 0 (T, ids) recs =
  Ok (T ++ map (fun r => (fst r, [snd r])) recs, fold_left set_add (map fst recs) ids).
Proof.
  revert T ids; induction recs as [|[z c] rs IH]; intros T ids Hnd Habs.
  - simpl. now rewrite app_nil_r.
  - simpl in Hnd. apply NoDup_cons_iff in Hnd as [Hz Hnd]. cbn [apply_records].
    rewrite record_step_first by exact (Habs (z, c) (or_introl eq_refl)). cbn [bind].
    rewrite IH; [now rewrite <- app_assoc|exact Hnd|].
    intros r Hr. rewrite sdict_get_None, map_app, in_app_iff. simpl.
    assert (fst r <> z) by (intros <-; apply Hz, in_map, Hr).
    specialize (Habs r (or_intror Hr)). apply sdict_get_None in Habs.
    intros [H1|[H2|[]]]; [tauto|congruence].
Qed.

(** A later raster appends one count to the list of each of its zones. *)
Lemma apply_records_later i T ids recs :
  i <> 0%nat -> NoDup (map fst recs) ->
  (forall r, In r recs -> sdict_get (fst r) T <> None) -> (forall r, In r recs -> In (fst r) ids) ->
  exists T', apply_records i (T, ids) recs = Ok (T', ids) /\ map fst T' = map fst T /\
    forall z, sdict_get z T' =
      match sdict_get z T with
      | Some l => Some (if existsb (String.eqb z) (map fst recs) then l ++ [count_of z recs] else l)
      | None => None
      end.
Proof.
  revert T; induction recs as [|[z c] rs IH]; intros T Hi Hnd Hpres Hids.
  - exists T. split; [reflexivity|]. split; [reflexivity|].
    intros z. simpl. destruct (sdict_get z T); reflexivity.
  - simpl in Hnd. apply NoDup_cons_iff in Hnd as [Hz Hnd].
    destruct (sdict_get z T) as [l|] eqn:Hl; [|exfalso; exact (Hpres (z, c) (or_introl eq_refl) Hl)].
    cbn [apply_records]. rewrite (record_step_later _ _ _ _ _ _ Hi Hl). cbn [bind].
    rewrite set_add_present by exact (Hids (z, c) (or_introl eq_refl)).
    destruct (IH (sdict_set z (l ++ [c]) T) Hi Hnd) as (T' & Happ & Hkeys & Hget).
    { intros r Hr. rewrite sdict_get_set. destruct (String.eqb (fst r) z); [discriminate|].
      now apply Hpres; right. }
    { intros r Hr. apply Hids. now right. }
    exists T'. split; [exact Happ|]. split.
    { rewrite Hkeys. apply keys_sdict_set_old. congruence. }
    intros z'. rewrite Hget, sdict_get_set. unfold count_of. cbn [map existsb find fst snd].
    destruct (String.eqb_spec z' z) as [->|Hne].
    + rewrite Hl, String.eqb_refl. simpl.
      replace (existsb (String.eqb z) (map fst rs)) with false; [reflexivity|].
      symmetry. apply Bool.not_true_iff_false. intros Hex. apply existsb_exists in Hex as [y [Hy Hyz]].
      apply String.eqb_eq in Hyz. subst y. contradiction.
    + assert (String.eqb z z' = false) as -> by (apply String.eqb_neq; congruence). reflexivity.
Qed.

Lemma fold_set_add ids l :
  NoDup (ids ++ l) -> fold_left set_add l ids = ids ++ l.
Proof.
  revert ids; induction l as [|x l IH]; intros ids Hnd; simpl; [now rewrite app_nil_r|].
  unfold set_add at 2. replace (existsb (String.eqb x) ids) with false.
  - rewrite IH; [now rewrite <- app_assoc|now rewrite <- app_assoc].
  - symmetry. apply Bool.not_true_iff_false. intros Hex.
    apply existsb_exists in Hex as [y [Hy Hxy]]. apply String.eqb_eq in Hxy. subst y.
    apply NoDup_remove_2 in Hnd. apply Hnd, in_or_app. now left.
Qed.

Lemma first_table_get recs z :
  NoDup (map fst recs) -> In z (map fst recs) ->
  sdict_get z (map (fun r => (fst r, [snd r])) recs) = Some [count_of z recs].
Proof.
  induction recs as [|[y c] rs IH]; simpl; [tauto|]. intros Hnd Hz.
  apply NoDup_cons_iff in Hnd as [Hy Hnd]. unfold count_of. simpl.
  destruct (String.eqb_spec z y) as [->|Hne].
  - now rewrite String.eqb_refl.
  - assert (String.eqb y z = false) as -> by (apply String.eqb_neq; congruence).
    destruct Hz as [->|Hz]; [congruence|]. now apply IH.
Qed.

Lemma rasters_later i (T : sdict) zs os rs :
  i <> 0%nat -> Forall2 (fun lines recs => records lines = Ok recs) os rs ->
  Forall (fun recs => map fst recs = zs) rs -> NoDup zs -> map fst T = zs ->
  exists T', rasters_from i (T, zs) os = Ok (T', zs) /\ map fst T' = zs /\
    forall z l, In z zs -> sdict_get z T = Some l ->
      sdict_get z T' = Some (l ++ map (count_of z) rs).
Proof.
  intros Hi Hrec. revert i T Hi. induction Hrec as [|lines recs os rs Hr _ IH];
    intros i T Hi Hz Hnd HT.
  - exists T. split; [reflexivity|]. split; [exact HT|]. intros z l _ H. now rewrite app_nil_r.
  - apply Forall_cons_iff in Hz as [Hk Hz'].
    assert (Hnd' : NoDup (map fst recs)) by now rewrite Hk.
    assert (Hpres : forall r, In r recs -> sdict_get (fst r) T <> None).
    { intros r Hin. apply (in_map fst) in Hin. rewrite Hk, <- HT in Hin.
      intros Hn. apply sdict_get_None in Hn. contradiction. }
    assert (Hids : forall r, In r recs -> In (fst r) zs).
    { intros r Hin. apply (in_map fst) in Hin. now rewrite <- Hk. }
    destruct (apply_records_later i T zs recs Hi Hnd' Hpres Hids) as (T1 & Happ & Hk1 & Hg1).
    destruct (IH (S i) T1 ltac:(discriminate) Hz' Hnd ltac:(congruence))
      as (T' & Hfrom & Hk' & Hg').
    exists T'. cbn [rasters_from]. rewrite (raster_step_records _ _ _ _ Hr). rewrite Happ. cbn [bind].
    split; [exact Hfrom|]. split; [exact Hk'|]. intros z l Hzin Hl.
    rewrite (Hg' z (l ++ [count_of z recs])); [now rewrite <- app_assoc|exact Hzin|].
    rewrite Hg1, Hl. replace (existsb (String.eqb z) (map fst recs)) with true; [reflexivity|].
    symmetry. apply existsb_exists. exists z. rewrite Hk. split; [exact Hzin|apply String.eqb_refl].
Qed.

(** ** The order of Python strings

    [sorted] compares Python 2 strings byte by byte; [String.leb] is that
    order.  The Standard Library proves it total and antisymmetric; it is
    also transitive. *)

Definition str_le (a b : string) : Prop := String.leb a b = true.

Lemma str_le_trans a b c : str_le a b -> str_le b c -> str_le a c.
Proof.
  unfold str_le, String.leb. revert b c.
  induction a as [|x a IH]; intros [|y b] [|z c]; simpl; try congruence; auto.
  unfold Ascii.compare.
  destruct (N.compare_spec (N_of_ascii x) (N_of_ascii y)),
           (N.compare_spec (N_of_ascii y) (N_of_ascii z)),
           (N.compare_spec (N_of_ascii x) (N_of_ascii z)); try lia; try congruence; eauto.
Qed.

Lemma str_le_total a b : str_le a b \/ str_le b a.
Proof. apply String.leb_total. Qed.

#[export] Instance str_le_Transitive : Transitive str_le.
Proof. intros a b c. apply str_le_trans. Qed.

(** ** [sorted] against the abstract specification of sorting *)

Lemma insert_sorted_perm s l : Permutation (insert_sorted s l) (s :: l).
Proof.
  induction l as [|x l IH]; simpl; [reflexivity|].
  destruct (String.leb s x); [reflexivity|].
  rewrite IH. apply perm_swap.
Qed.

Lemma HdRel_insert_sorted x s l :
  HdRel str_le x l -> str_le x s -> HdRel str_le x (insert_sorted s l).
Proof.
  destruct l as [|y l]; simpl; intros Hx Hs; [now constructor|].
  destruct (String.leb s y); constructor; [exact Hs|now inversion Hx].
Qed.

Lemma insert_sorted_sorted s l : Sorted str_le l -> Sorted str_le (insert_sorted s l).
Proof.
  induction 1 as [|x l Hl IH Hx]; simpl; [repeat constructor|].
  destruct (String.leb s x) eqn:E.
  - constructor; [now constructor|now constructor].
  - constructor; [exact IH|]. apply HdRel_insert_sorted; [exact Hx|].
    destruct (str_le_total x s) as [H|H]; [exact H|unfold str_le in H; congruence].
Qed.

Lemma sort_strings_perm l : Permutation (sort_strings l) l.
Proof.
  induction l as [|x l IH]; simpl; [reflexivity|].
  rewrite insert_sorted_perm. now apply perm_skip.
Qed.

Lemma sort_strings_sorted l : Sorted str_le (sort_strings l).
Proof. induction l as [|x l IH]; simpl; [constructor|now apply insert_sorted_sorted]. Qed.

(** Two sorted permutations of each other are equal. *)
Lemma sorted_unique l1 l2 :
  Sorted str_le l1 -> Sorted str_le l2 -> Permutation l1 l2 -> l1 = l2.
Proof.
  intros H1 H2. apply Sorted_StronglySorted in H1, H2; try exact str_le_trans.
  revert l2 H2. induction H1 as [|a l1 H1 IH Ha]; intros l2 H2 Hp.
  - symmetry. now apply Permutation_nil.
  - destruct H2 as [|b l2 H2 Hb]; [apply Permutation_sym, Permutation_nil in Hp; discriminate|].
    assert (a = b) as <-.
    { assert (Hab : In a (b :: l2)) by (eapply Permutation_in; [exact Hp|now left]).
      assert (Hba : In b (a :: l1)) by (eapply Permutation_in; [symmetry; exact Hp|now left]).
      destruct Hab as [->|Hab]; [reflexivity|]. destruct Hba as [->|Hba]; [reflexivity|].
      rewrite Forall_forall in Ha, Hb.
      apply String.leb_antisym; [exact (Ha b Hba)|exact (Hb a Hab)]. }
    f_equal. apply IH; [exact H2|]. exact (Permutation_cons_inv Hp).
Qed.

(** ** The shape of the gathered table *)

Lemma keys_sdict_set k v d : map fst (sdict_set k v d) = set_add (map fst d) k.
Proof.
  unfold set_add. induction d as [|[j w] d IH]; simpl; [reflexivity|].
  destruct (String.eqb_spec k j) as [->|Hne]; simpl; [reflexivity|].
  rewrite IH. destruct (existsb _ _); reflexivity.
Qed.

Lemma set_add_idem l x : set_add (set_add l x) x = set_add l x.
Proof.
  destruct (existsb (String.eqb x) l) eqn:E.
  - assert (set_add l x = l) as -> by (unfold set_add; now rewrite E).
    unfold set_add. now rewrite E.
  - assert (set_add l x = l ++ [x]) as -> by (unfold set_add; now rewrite E).
    apply set_add_present. apply in_or_app. right. now left.
Qed.

Lemma NoDup_set_add l x : NoDup l -> NoDup (set_add l x).
Proof.
  intros Hl. unfold set_add. destruct (existsb (String.eqb x) l) eqn:E; [exact Hl|].
  apply NoDup_app; [exact Hl|repeat constructor; simpl; tauto|].
  intros y Hy [Hxy|[]]. subst y. assert (existsb (String.eqb x) l = true) by
    (apply existsb_exists; exists x; split; [exact Hy|apply String.eqb_refl]). congruence.
Qed.

(** The invariant of the loop of lines 112-124: the set of ids is the
    list of keys of the table, without repetition. *)
Definition table_wf (st : sdict * list string) : Prop :=
  snd st = map fst (fst st) /\ NoDup (snd st).

Lemma record_step_wf i st sub c st' :
  table_wf st -> record_step i st sub c = Ok st' -> table_wf st'.
Proof.
  destruct st as [T ids]. unfold table_wf, record_step; simpl. intros [-> Hnd] Hr.
  set (T' := if Nat.eqb i 0 then sdict_set sub [] T else T) in Hr.
  destruct (sdict_get sub T') as [l|] eqn:Hg; [|discriminate]. injection Hr as <-. simpl.
  rewrite keys_sdict_set. split; [|now apply NoDup_set_add].
  subst T'. destruct (Nat.eqb i 0).
  - now rewrite keys_sdict_set, set_add_idem.
  - reflexivity.
Qed.

Lemma raster_step_wf i st lines st' :
  table_wf st -> raster_step i st lines = Ok st' -> table_wf st'.
Proof.
  revert st; induction lines as [|l ls IH]; intros st Hwf H; simpl in H.
  - now apply Ok_inj in H as <-.
  - apply bind_Ok in H as [p [_ H]]. apply bind_Ok in H as [st1 [H1 H]].
    apply (IH st1); [|exact H]. destruct p as [[sub c]|].
    + exact (record_step_wf _ _ _ _ _ Hwf H1).
    + now apply Ok_inj in H1 as <-.
Qed.

Lemma rasters_from_wf i st outputs st' :
  table_wf st -> rasters_from i st outputs = Ok st' -> table_wf st'.
Proof.
  revert i st; induction outputs as [|o os IH]; intros i st Hwf H; simpl in H.
  - now apply Ok_inj in H as <-.
  - apply bind_Ok in H as [st1 [H1 H]]. exact (IH _ _ (raster_step_wf _ _ _ _ Hwf H1) H).
Qed.

(** ** Properties of the developed-cell table *)

(** C28. When every raster's [r.univar] output lists the same zones, each
    once, the gathering succeeds and every zone's list holds exactly one
    count per raster, in raster order; the ids are the zones, sorted. *)
Theorem gather_uniform outputs recss zs :
  Forall2 (fun lines recs => records lines = Ok recs) outputs recss ->
  Forall (fun recs => map fst recs = zs) recss -> NoDup zs -> outputs <> [] ->
  exists table, gather_developed outputs = Ok (table, sort_strings zs) /\
    map fst table = zs /\
    forall z, In z zs -> sdict_get z table = Some (map (count_of z) recss).
Proof.
  intros Hrec Hz Hnd Hne. destruct Hrec as [|o0 r0 os rs Hr0 Hrec]; [congruence|].
  inversion Hz as [|? ? Hk0 Hz']; subst.
  assert (Hfirst : raster_step 0 ([], []) o0 = Ok ((map (fun r => (fst r, [snd r])) r0 : sdict), map fst r0)).
  { rewrite (raster_step_records _ _ _ _ Hr0), apply_records_first; auto.
    rewrite (fold_set_add [] (map fst r0)); auto. }
  assert (HT0 : map fst (map (fun r => (fst r, [snd r])) r0) = map fst r0)
    by (rewrite map_map; reflexivity).
  destruct (rasters_later 1 (map (fun r => (fst r, [snd r])) r0) (map fst r0) os rs)
    as (T' & Hfrom & Hk' & Hg'); auto.
  exists T'. unfold gather_developed. cbn [rasters_from]. rewrite Hfirst. cbn [bind].
  rewrite Hfrom. cbn [bind]. split; [reflexivity|]. split; [exact Hk'|].
  intros z Hzin. apply (Hg' z [count_of z r0] Hzin). now apply first_table_get.
Qed.

Lemma keys_sdict_set_sub k v d x :
  In x (map fst (sdict_set k v d)) -> In x (map fst d) \/ x = k.
Proof.
  induction d as [|[j w] d IH]; simpl; [intuition|].
  destruct (String.eqb_spec k j) as [->|_]; simpl; [tauto|].
  intros [->|Hx]; [tauto|]. destruct (IH Hx); tauto.
Qed.

Lemma apply_records_keys_first T ids recs st :
  apply_records 0 (T, ids) recs = Ok st ->
  forall k, In k (map fst (fst st)) -> In k (map fst T) \/ In k (map fst recs).
Proof.
  revert T ids; induction recs as [|[z c] rs IH]; intros T ids H k Hk; simpl in H.
  - apply Ok_inj in H as <-. now left.
  - apply bind_Ok in H as [[T1 ids1] [H1 H]]. specialize (IH _ _ H k Hk).
    unfold record_step in H1. cbv beta iota zeta in H1. change (Nat.eqb 0 0) with true in H1.
    cbv iota in H1. rewrite sdict_get_set, String.eqb_refl in H1.
    apply Ok_inj, pair_equal_spec in H1 as [<- _].
    destruct IH as [Hk1|Hk1]; [|simpl; tauto].
    apply keys_sdict_set_sub in Hk1 as [Hk1| ->]; [|simpl; tauto].
    apply keys_sdict_set_sub in Hk1 as [Hk1| ->]; simpl; tauto.
Qed.

Lemma apply_records_keys_later i T ids recs st :
  i <> 0%nat -> apply_records i (T, ids) recs = Ok st ->
  (forall r, In r recs -> In (fst r) (map fst T)) /\ map fst (fst st) = map fst T.
Proof.
  intros Hi. revert T ids; induction recs as [|[z c] rs IH]; intros T ids H; simpl in H.
  - apply Ok_inj in H as <-. split; [intros r []|reflexivity].
  - apply bind_Ok in H as [[T1 ids1] [H1 H]]. destruct (IH _ _ H) as [Hall Hk].
    unfold record_step in H1. cbv beta iota zeta in H1. destruct i; [congruence|].
    change (Nat.eqb (S i) 0) with false in H1. cbv iota in H1.
    destruct (sdict_get z T) as [l|] eqn:Hl; [|discriminate].
    apply Ok_inj, pair_equal_spec in H1 as [<- _].
    assert (Hkeys : map fst (sdict_set z (l ++ [c]) T) = map fst T)
      by (apply keys_sdict_set_old; congruence).
    rewrite Hkeys in Hall, Hk. split; [|exact Hk].
    intros r [<-|Hr]; [|now apply Hall].
    simpl. destruct (in_dec string_dec z (map fst T)) as [Hin|Hin]; [exact Hin|].
    apply sdict_get_None in Hin. congruence.
Qed.

Lemma rasters_keys i T ids os rs st :
  i <> 0%nat -> rasters_from i (T, ids) os = Ok st ->
  Forall2 (fun lines recs => records lines = Ok recs) os rs ->
  forall recs r, In recs rs -> In r recs -> In (fst r) (map fst T).
Proof.
  intros Hi H Hrec. revert i T ids Hi H. induction Hrec as [|lines recs' os rs Hr _ IH];
    intros i T ids Hi H recs r Hrecs Hin; [destruct Hrecs|].
  simpl in H. apply bind_Ok in H as [[T1 ids1] [H1 H]].
  rewrite (raster_step_records _ _ _ _ Hr) in H1.
  destruct (apply_records_keys_later _ _ _ _ _ Hi H1) as [Hall Hk]. simpl in Hk.
  destruct Hrecs as [<-|Hrecs]; [now apply Hall|].
  rewrite <- Hk. exact (IH (S i) T1 ids1 ltac:(discriminate) H recs r Hrecs Hin).
Qed.

(** C29. A zone that is absent from the first raster's statistics but
    present in a later raster's makes the gathering fail: its list was
    never created and [append] raises [KeyError]. *)
Theorem gather_new_zone_fails outputs r0 rs recs z :
  Forall2 (fun lines recs => records lines = Ok recs) outputs (r0 :: rs) ->
  In recs rs -> In z (map fst recs) -> ~ In z (map fst r0) ->
  exists e, gather_developed outputs = Err e.
Proof.
  intros Hrec Hrecs Hz Hz0.
  destruct (gather_developed outputs) as [st|e] eqn:H; [exfalso|eauto].
  inversion Hrec as [|o0 ? os ? Hr0 Hrest]; subst.
  unfold gather_developed in H. apply bind_Ok in H as [[T ids] [H _]].
  simpl in H. apply bind_Ok in H as [st0 [H0 H]].
  rewrite (raster_step_records _ _ _ _ Hr0) in H0. destruct st0 as [T0 ids0].
  apply in_map_iff in Hz as [r [<- Hr]].
  pose proof (rasters_keys 1 T0 ids0 os rs _ ltac:(discriminate) H Hrest recs r Hrecs Hr) as Hk.
  destruct (apply_records_keys_first _ _ _ _ H0 (fst r) Hk) as [[]|Hk0]. contradiction.
Qed.

(** The sorted ids do not depend on the order in which the set
    [subregionIds] is iterated: two lists give the same sorted list
    exactly when they are permutations of each other.  Python 2 iterates
    a set in hash order; the model keeps insertion order; both give the
    same ids. *)
Lemma sort_strings_order_independent l1 l2 :
  sort_strings l1 = sort_strings l2 <-> Permutation l1 l2.
Proof.
  split.
  - intros H. rewrite <- (sort_strings_perm l1), <- (sort_strings_perm l2). now rewrite H.
  - intros Hp. apply sorted_unique; [apply sort_strings_sorted|apply sort_strings_sorted|].
    rewrite !sort_strings_perm. exact Hp.
Qed.

(** C10. The gathered table is well formed: its keys are distinct, and
    the ids the loop over subregions uses are exactly these keys, sorted
    and without repetition. *)
Theorem gather_developed_wf outputs table ids :
  gather_developed outputs = Ok (table, ids) ->
  NoDup (map fst table) /\ ids = sort_strings (map fst table) /\
  Sorted str_le ids /\ NoDup ids.
Proof.
  unfold gather_developed. intros H. apply bind_Ok in H as [[T I] [Hr H]].
  apply Ok_inj in H. injection H as <- <-.
  assert (H0 : table_wf ([], [])) by (split; [reflexivity|constructor]).
  destruct (rasters_from_wf _ _ _ _ H0 Hr) as [HI Hnd].
  simpl in HI, Hnd. subst I. split; [exact Hnd|]. split; [reflexivity|].
  split; [apply sort_strings_sorted|]. exact (Permutation_NoDup (Permutation_sym (sort_strings_perm _)) Hnd).
Qed.

(** ** Witnesses *)

Local Open Scope string_scope.

(** Two rasters with zones 1 and 2 (13 fields: zone, label, non-null and
    null cells, min, max, range, mean, mean of abs, stddev, variance,
    coefficient of variation, sum). *)
Lemma gather_uniform_witness :
  exists table, gather_developed
    [["zone|label|non_null_cells|null_cells|min|max|range|mean|mean_of_abs|stddev|variance|coeff_var|sum";
      "1||100|0|0|1|1|0.1|0.1|0.3|0.09|300|10"; "2||100|0|0|1|1|0.05|0.05|0.2|0.05|400|5"];
     ["zone|label|non_null_cells|null_cells|min|max|range|mean|mean_of_abs|stddev|variance|coeff_var|sum";
      "1||100|0|0|1|1|0.2|0.2|0.4|0.16|200|20"; "2||100|0|0|1|1|0.05|0.05|0.2|0.05|400|5"]]
    = Ok (table, sort_strings ["1"; "2"]) /\ map fst table = ["1"; "2"] /\
    forall z, In z ["1"; "2"] -> sdict_get z table =
      Some (map (count_of z) [[("1", 10%Z); ("2", 5%Z)]; [("1", 20%Z); ("2", 5%Z)]]).
Proof.
  apply gather_uniform.
  - repeat constructor.
  - repeat constructor.
  - repeat constructor; simpl; intuition discriminate.
  - discriminate.
Defined.

Lemma gather_new_zone_fails_witness :
  exists e, gather_developed
    [["1||100|0|0|1|1|0.1|0.1|0.3|0.09|300|10"];
     ["1||100|0|0|1|1|0.2|0.2|0.4|0.16|200|20"; "3||100|0|0|1|1|0.1|0.1|0.3|0.09|300|7"]]
    = Err e.
Proof.
  apply (gather_new_zone_fails _ [("1", 10%Z)] [[("1", 20%Z); ("3", 7%Z)]]
           [("1", 20%Z); ("3", 7%Z)] "3").
  - repeat constructor.
  - left; reflexivity.
  - simpl; auto.
  - simpl; intuition discriminate.
Defined.

(** Zones listed as 2, 1 in the first raster and 1, 2 in the second. *)
Lemma gather_developed_wf_witness :
  exists table ids,
    gather_developed
      [["2||100|0|0|1|1|0.1|0.1|0.3|0.09|300|4"; "1||100|0|0|1|1|0.1|0.1|0.3|0.09|300|10"];
       ["1||100|0|0|1|1|0.2|0.2|0.4|0.16|200|20"; "2||100|0|0|1|1|0.05|0.05|0.2|0.05|400|5"]]
      = Ok (table, ids) /\
    NoDup (map fst table) /\ ids = sort_strings (map fst table) /\ Sorted str_le ids /\ NoDup ids.
Proof.
  destruct (gather_developed
      [["2||100|0|0|1|1|0.1|0.1|0.3|0.09|300|4"; "1||100|0|0|1|1|0.1|0.1|0.3|0.09|300|10"];
       ["1||100|0|0|1|1|0.2|0.2|0.4|0.16|200|20"; "2||100|0|0|1|1|0.05|0.05|0.2|0.05|400|5"]])
    as [[table ids]|e] eqn:E; [|vm_absurd E].
  exists table, ids. split; [reflexivity|]. exact (gather_developed_wf _ _ _ E).
Defined.

End Developed.
