(* ===== verification/Pipeline.v ===== *)
(** * The [main] function of [r.futures.demand.py] (lines 88-236)

    [demand_main] composes the components in the order of the script:
    it splits the [development], [method] and [simulation_times] options
    at commas (lines 89-96), reads the time columns of the population
    tables (lines 98-103), aborts with [gcore.fatal] when the number of
    development maps differs from the number of observed times
    (lines 105-106), gathers the developed cells from the [r.univar]
    outputs ([Developed], lines 108-125), interpolates the population
    ([Interp], lines 126-132), computes the demand of every subregion in
    sorted order ([Demand], lines 141-183) and writes the table ([Table],
    lines 217-236).  The external commands are parameters: [univar] gives
    the lines [r.univar] prints for a development map, and the population
    files are given as parsed tables.  The plot (lines 136-139, 185-215)
    is not modelled: it only draws. *)

From S2P Require Import Prelude Numerics Interp Lstsq Select Demand Table Developed.
From Stdlib Require Import String Ascii QArith ZArith Arith List Lia.
Import ListNotations.
Open Scope Q_scope.
Open Scope futures_scope.

Module Pipeline.

Import Interp Lstsq Select Demand Table Developed.

(** ** Definitions *)


(** The options of the module, as the GRASS parser hands them over. *)
Record demand_options : Type := {
  opt_development : string;
  opt_method : string;
  opt_simulation_times : string
}.

(** The method names the parser accepts; the regression treats every
    name other than [logarithmic] and [exponential] as linear
    (lines 150-168). *)
Definition method_of_string (s : string) : method :=
  if String.eqb s "logarithmic" then Logarithmic
  else if String.eqb s "exponential" then Exponential
  else Linear.

(** [float(each)] on the values of [simulation_times]. *)
Definition parse_time (s : string) : res Q := py_float_of_string s.

(** [population_for_simulated_times[sub]] and [table_developed[sub]]. *)
Definition assoc_get {V : Type} (d : list (string * V)) (k : string) : res V :=
  match find (fun kv => String.eqb (fst kv) k) d with
  | Some kv => Ok (snd kv)
  | None => Err (KeyError k)
  end.

Section Main.

Context `{FloatLib}.

(** Lines 141-183 for every subregion id, in order: its demand vector
    and its warnings. *)
Definition demand_loop (methods : list method) (observed_popul : pop_table)
    (table : sdict) (pops : list (string * list Q)) (ids : list string)
    : res (list (string * list Q * list warning)) :=
  mapM (fun sub =>
          obs <- pt_column observed_popul sub ;;
          dev <- assoc_get table sub ;;
          sim <- assoc_get pops sub ;;
          '(d, w) <- subregion_demand methods sub obs (map inject_Z dev) sim ;;
          Ok (sub, d, w)) ids.

(** Lines 88-236. *)
Definition demand_main (o : demand_options) (univar : string -> list string)
    (observed_popul projected_popul : pop_table) : res (string * list warning) :=
  let developments := split_on comma (opt_development o) in
  let methods := map method_of_string (split_on comma (opt_method o)) in
  simulation_times <- mapM parse_time (split_on comma (opt_simulation_times o)) ;;
  observed_times <- pt_times observed_popul ;;
  _ <- pt_times projected_popul ;;
  if negb (Nat.eqb (length developments) (length observed_times))
  then Err (Fatal "Number of development raster maps doesn't not correspond to the number of observed times")
  else
    '(table, ids) <- gather_developed (map univar developments) ;;
    pops <- population_for_simulated_times (map fst table) observed_popul projected_popul
              simulation_times ;;
    results <- demand_loop methods observed_popul table pops ids ;;
    text <- write_demand simulation_times (pt_names observed_popul) ids
              (map (fun r => (fst (fst r), snd (fst r))) results) ;;
    Ok (text, concat (map snd results)).

(** ** Decomposition of the run *)

Lemma demand_loop_spec methods observed_popul table pops ids results :
  demand_loop methods observed_popul table pops ids = Ok results ->
  Forall2 (fun sub r => fst (fst r) = sub /\
    exists o dv sm, pt_column observed_popul sub = Ok o /\ assoc_get table sub = Ok dv /\
      assoc_get pops sub = Ok sm /\
      subregion_demand methods sub o (map inject_Z dv) sm = Ok (snd (fst r), snd r)) ids results.
Proof.
  intros Hl. apply mapM_Forall2 in Hl. eapply Forall2_impl; [|exact Hl].
  intros sub r Hr. cbv beta in Hr.
  apply bind_Ok in Hr as [o [Ho Hr]]. apply bind_Ok in Hr as [dv [Hdv Hr]].
  apply bind_Ok in Hr as [sm [Hsm Hr]]. apply bind_Ok in Hr as [[d w] [Hd Hr]].
  apply Ok_inj in Hr as <-. split; [reflexivity|]. exists o, dv, sm. auto.
Qed.

(** A successful run went through every stage of [main]. *)
Lemma demand_main_inv o univar observed_popul projected_popul text ws :
  demand_main o univar observed_popul projected_popul = Ok (text, ws) ->
  exists sim table ids pops results,
    mapM parse_time (split_on comma (opt_simulation_times o)) = Ok sim /\
    gather_developed (map univar (split_on comma (opt_development o))) = Ok (table, ids) /\
    population_for_simulated_times (map fst table) observed_popul projected_popul sim = Ok pops /\
    demand_loop (map method_of_string (split_on comma (opt_method o)))
      observed_popul table pops ids = Ok results /\
    write_demand sim (pt_names observed_popul) ids
      (map (fun r => (fst (fst r), snd (fst r))) results) = Ok text /\
    ws = concat (map snd results).
Proof.
  unfold demand_main. intros Hm.
  apply bind_Ok in Hm as [sim [Hsim Hm]]. apply bind_Ok in Hm as [ts [Hts Hm]].
  apply bind_Ok in Hm as [ts' [Hts' Hm]].
  destruct (negb _); [discriminate|].
  apply bind_Ok in Hm as [[table ids] [Hg Hm]]. apply bind_Ok in Hm as [pops [Hp Hm]].
  apply bind_Ok in Hm as [results [Hr Hm]]. apply bind_Ok in Hm as [t [Ht Hm]].
  apply Ok_inj in Hm. injection Hm as <- <-.
  exists sim, table, ids, pops, results. auto 7.
Qed.

End Main.

(** ** The round-trip scenario of the specification

    Three subregions observed in 2000, 2005 and 2010, projected to 2020
    and 2030, simulated in 2010, 2020 and 2030, with the default methods
    [linear,logarithmic].  Subregion 3 falls from 2000 to 1600 people
    and from 100 to 80 developed cells; its projection continues the
    decline to 1400 and 1200. *)

Local Open Scope string_scope.

Definition scenario_options : demand_options :=
  {| opt_development := "d2000,d2005,d2010";
     opt_method := "linear,logarithmic";
     opt_simulation_times := "2010,2020,2030" |}.

(** A line of [r.univar -gt]: zone, label, non-null and null cells, min,
    max, range, mean, mean of abs, stddev, variance, coefficient of
    variation and sum. *)
Definition univar_line (zone cells : string) : string :=
  zone ++ "||100|0|0|1|1|0|0|0|0|0|" ++ cells.

Definition univar_header : string :=
  "zone|label|non_null_cells|null_cells|min|max|range|mean|mean_of_abs|stddev|variance|coeff_var|sum".

Definition scenario_univar (map_name : string) : list string :=
  if String.eqb map_name "d2000" then
    [univar_header; univar_line "1" "10"; univar_line "2" "5"; univar_line "3" "100"]
  else if String.eqb map_name "d2005" then
    [univar_header; univar_line "1" "20"; univar_line "2" "5"; univar_line "3" "90"]
  else
    [univar_header; univar_line "1" "30"; univar_line "2" "5"; univar_line "3" "80"].

Definition scenario_observed : pop_table :=
  {| pt_columns := [("year", [2000; 2005; 2010]); ("1", [1000; 1500; 2000]);
                    ("2", [500; 500; 500]); ("3", [2000; 1800; 1600])] |}.

Definition scenario_projected : pop_table :=
  {| pt_columns := [("year", [2020; 2030]); ("1", [2500; 3000]);
                    ("2", [500; 500]); ("3", [1400; 1200])] |}.

(** ** Properties of the run *)

(** C27. Lines 105-106: when the number of development maps differs from
    the number of observed times, [main] stops with the fatal error,
    before running [r.univar]. *)
Theorem demand_main_count_mismatch `{FloatLib} o univar observed_popul projected_popul
    sim ts ts' :
  mapM parse_time (split_on comma (opt_simulation_times o)) = Ok sim ->
  pt_times observed_popul = Ok ts -> pt_times projected_popul = Ok ts' ->
  length (split_on comma (opt_development o)) <> length ts ->
  demand_main o univar observed_popul projected_popul =
    Err (Fatal "Number of development raster maps doesn't not correspond to the number of observed times").
Proof.
  intros Hsim Hts Hts' Hne. unfold demand_main. rewrite Hsim, Hts, Hts'. cbn [bind].
  apply Nat.eqb_neq in Hne. now rewrite Hne.
Qed.

(** C3. A successful run writes the table of the sorted subregion ids
    gathered from [r.univar], with one demand vector per id, in that
    order, and no demand value written is negative. *)
Theorem demand_main_output `{FloatLib} o univar observed_popul projected_popul text ws :
  demand_main o univar observed_popul projected_popul = Ok (text, ws) ->
  exists sim table ids dem,
    mapM parse_time (split_on comma (opt_simulation_times o)) = Ok sim /\
    gather_developed (map univar (split_on comma (opt_development o))) = Ok (table, ids) /\
    map fst dem = ids /\
    Forall (fun kv => Forall (fun v => 0 <= v) (snd kv)) dem /\
    write_demand sim (pt_names observed_popul) ids dem = Ok text.
Proof.
  intros Hm. apply demand_main_inv in Hm as (sim & table & ids & pops & results & Hs & Hg & _ & Hr & Hw & _).
  exists sim, table, ids, (map (fun r => (fst (fst r), snd (fst r))) results).
  apply demand_loop_spec in Hr.
  split; [exact Hs|]. split; [exact Hg|]. split.
  - rewrite map_map. clear -Hr. induction Hr as [|sub r ids rs [<- _] _ IH]; [reflexivity|]. simpl. now f_equal.
  - split; [|exact Hw]. clear -Hr. induction Hr as [|sub r ids rs [_ Hx] _ IH]; constructor; auto.
    destruct Hx as (ob & dv & sm & _ & _ & _ & Hd). exact (subregion_demand_nonneg _ _ _ _ _ _ _ Hd).
Qed.

(** C14. The warnings of a successful run come subregion by subregion, in
    the sorted order of the ids gathered from [r.univar] (the order of the
    table of C3): for each subregion, at most the negative-demand warning
    then at most the inverse-relation warning, both naming it. *)
Theorem demand_main_warning_order `{FloatLib} o univar observed_popul projected_popul text ws :
  demand_main o univar observed_popul projected_popul = Ok (text, ws) ->
  exists table ids groups,
    gather_developed (map univar (split_on comma (opt_development o))) = Ok (table, ids) /\
    Forall2 (fun sub g => exists neg inv, g = warning_group sub neg inv) ids groups /\
    ws = concat groups.
Proof.
  intros Hm. apply demand_main_inv in Hm as (sim & table & ids & pops & results & _ & Hg & _ & Hr & _ & ->).
  exists table, ids, (map snd results). split; [exact Hg|]. split; [|reflexivity].
  apply demand_loop_spec in Hr. clear -Hr.
  induction Hr as [|sub r ids rs [_ Hx] _ IH]; constructor; [|exact IH].
  destruct Hx as (ob & dv & sm & _ & _ & _ & Hd). exact (subregion_demand_warnings _ _ _ _ _ _ _ Hd).
Qed.

(** The round-trip scenario of the specification, run through the
    whole of [main] with the computable numerics: subregion 1 gets the
    demand 10, 10; subregion 2 (flat) gets 0, 0; subregion 3 gets 0, 0
    because its falling predictions are clamped, with the negative-demand
    warning.  Its slope is [+1/20] (development falls with population),
    so the inverse-relation warning the specification expects is not
    emitted, and the demand of subregion 1 is constant, not increasing. *)
Example spec_scenario_run :
  demand_main scenario_options scenario_univar scenario_observed scenario_projected =
  Ok (concat_lines ["Years_to_simulate: 3"; join tab ["year"; "1"; "2"; "3"];
                    join tab ["2020"; "10"; "0"; "0"]; join tab ["2030"; "10"; "0"; "0"]],
      [NegativeDemand "3"]).
Proof. vm_compute. reflexivity. Qed.

(** ** Witnesses *)

Lemma demand_main_count_mismatch_witness :
  demand_main {| opt_development := "d2000,d2005"; opt_method := "linear";
                 opt_simulation_times := "2010,2020,2030" |}
    scenario_univar scenario_observed scenario_projected =
  Err (Fatal "Number of development raster maps doesn't not correspond to the number of observed times").
Proof.
  apply (demand_main_count_mismatch _ _ _ _ [2010; 2020; 2030] [2000; 2005; 2010] [2020; 2030]);
    reflexivity || discriminate.
Defined.

Lemma demand_main_output_witness :
  exists text ws sim table ids dem,
    demand_main scenario_options scenario_univar scenario_observed scenario_projected =
      Ok (text, ws) /\
    mapM parse_time (split_on comma "2010,2020,2030") = Ok sim /\
    gather_developed (map scenario_univar (split_on comma "d2000,d2005,d2010")) = Ok (table, ids) /\
    map fst dem = ids /\
    Forall (fun kv => Forall (fun v => 0 <= v) (snd kv)) dem /\
    write_demand sim (pt_names scenario_observed) ids dem = Ok text.
Proof.
  destruct (demand_main scenario_options scenario_univar scenario_observed scenario_projected)
    as [[text ws]|e] eqn:E; [|vm_absurd E].
  destruct (demand_main_output _ _ _ _ _ _ E) as (sim & table & ids & dem & H).
  exists text, ws, sim, table, ids, dem. split; [reflexivity|exact H].
Defined.

Lemma demand_main_warning_order_witness :
  exists text table ids groups,
    demand_main scenario_options scenario_univar scenario_observed scenario_projected =
      Ok (text, [NegativeDemand "3"]) /\
    gather_developed (map scenario_univar (split_on comma "d2000,d2005,d2010")) = Ok (table, ids) /\
    Forall2 (fun sub g => exists neg inv, g = warning_group sub neg inv) ids groups /\
    [NegativeDemand "3"] = concat groups.
Proof.
  destruct (demand_main scenario_options scenario_univar scenario_observed scenario_projected)
    as [[text ws]|e] eqn:E; [|vm_absurd E].
  destruct (demand_main_warning_order _ _ _ _ _ _ E) as (table & ids & groups & H).
  assert (Hw : ws = [NegativeDemand "3"]).
  { revert E. vm_compute. intros E. now injection E. }
  subst ws. exists text, table, ids, groups. split; [reflexivity|exact H].
Defined.

End Pipeline.
