(* ===== verification/Main.v ===== *)
(** * The demand [main] with its plot ([r.futures.demand.py] lines 88-215)

    With the [plot] option set, the loop over the sorted subregions
    (lines 141-212) draws the [i]-th subregion into subplot [i] right
    after computing its demand, on a grid of [n_plots] rows and columns
    (lines 136-139), and [fig.savefig(plot)] writes the figure
    (line 215); with [plot] empty it only computes the demand.
    [demand_main_plot] is this [main]; [Pipeline.demand_main] is its
    plot-free part.  The theorems show that drawing never changes the
    written file or the warnings, that it never makes a successful run
    fail when [sqrt] is not a whole unit below the exact root and the
    observed-population table is rectangular, as [np.genfromtxt] makes
    it, and that the written file refines the demand table of the
    specification ([demand_table_contract]). *)

From S2P Require Import Prelude Numerics Interp Lstsq Select Demand Table Plot Developed Pipeline.
From Stdlib Require Import String Ascii QArith Qround ZArith Arith List Lia.
Import ListNotations.
Open Scope futures_scope.

Module Main.

Import Interp Lstsq Select Demand Table Plot Developed Pipeline.

(** ** Definitions *)

Section Run.

Context `{FloatLib} `{FloatFormat}.

(** Lines 141-212 with [plot] set: for the [i]-th subregion, its fits,
    selection and demand (lines 142-183), then its subplot
    (lines 186-212). *)
Fixpoint demand_plot_loop (methods : list method) (observed_popul : pop_table) (table : sdict)
    (pops : list (string * list Q)) (nplots i : Z) (fig : figure) (ids : list string)
    : res (list (string * list Q * list warning) * figure) :=
  match ids with
  | [] => Ok ([], fig)
  | sub :: rest =>
      obs <- pt_column observed_popul sub ;;
      dev <- assoc_get table sub ;;
      sim <- assoc_get pops sub ;;
      s <- select_subregion methods obs (map inject_Z dev) sim ;;
      let '(d, w) := demand_for_subregion sub (fit_predicted (sel_fit s)) (sel_last_m s) in
      sp <- plot_subregion nplots i sub s obs (map inject_Z dev) sim ;;
      '(rs, fig') <- demand_plot_loop methods observed_popul table pops nplots (i + 1)
                        (add_axes fig sp) rest ;;
      Ok ((sub, d, w) :: rs, fig')
  end.

(** Lines 88-215: the demand file, the warnings and, with [plot] set,
    the figure [fig.savefig(plot)] writes to the file [plot]
    (lines 213-215; [tight_layout] only moves the axes). *)
Definition demand_main_plot (o : demand_options) (plot : string) (univar : string -> list string)
    (observed_popul projected_popul : pop_table)
    : res (string * list warning * option (string * figure)) :=
  let developments := split_on comma (opt_development o) in
  let methods := map method_of_string (split_on comma (opt_method o)) in
  simulation_times <- mapM parse_time (split_on comma (opt_simulation_times o)) ;;
  observed_times <- pt_times observed_popul ;;
  _ <- pt_times projected_popul ;;
  if negb (Nat.eqb (length developments) (length observed_times))
  then Err (Fatal "Number of development raster maps doesn't not correspond to the number of observed times")
  else
    '(table, ids) <- gather_developed (map univar developments) ;;
    pops <- population_for_simulated_times (map fst table) observed_popul projected_popul
              simulation_times ;;
    '(results, out) <-
      (if String.eqb plot EmptyString
       then rs <- demand_loop methods observed_popul table pops ids ;; Ok (rs, None)
       else let nplots := n_plots (length ids) in
            '(rs, fig) <- demand_plot_loop methods observed_popul table pops nplots 1
                            (new_figure nplots) ids ;;
            Ok (rs, Some (plot, fig))) ;;
    text <- write_demand simulation_times (pt_names observed_popul) ids
              (map (fun r => (fst (fst r), snd (fst r))) results) ;;
    Ok (text, concat (map snd results), out).

End Run.

(** Every column of the table has as many values as its first (time)
    column, as [np.genfromtxt] reads a table. *)
Definition pt_rect (t : pop_table) : bool :=
  match pt_columns t with
  | [] => true
  | (_, ts) :: cs => forallb (fun c => Nat.eqb (length (snd c)) (length ts)) cs
  end.

(** The demand table of the specification: every demand vector has one
    non-negative entry per simulation interval, and the file has one row
    per simulation time after the first, made of the integer time and,
    for each subregion of the header (after the time column), a
    non-negative integer: the truncated entry of its vector in the
    [demand] dictionary, or [0] when it has none. *)
Definition demand_table_contract (sim : list Q) (header : list string)
    (dem : list (string * list Q)) (rows : list (list Z)) : Prop :=
  Forall (fun kv => length (snd kv) = (length sim - 1)%nat /\ Forall (fun v => 0 <= v) (snd kv)) dem /\
  Forall2 (fun it row => exists zs, row = py_int (snd it) :: zs /\
             Forall2 (fun sub z => (0 <= z)%Z /\
                        z = match find (fun kv => String.eqb (fst kv) sub) dem with
                            | Some kv => py_int (nth (fst it) (snd kv) 0)
                            | None => 0%Z
                            end) (tl header) zs)
          (combine (seq 0 (length (tl sim))) (tl sim)) rows.

(** ** Lemmas *)

Section Props.

Context `{FloatLib} `{FloatFormat}.

(** The plotted loop computes the demand of the plain loop. *)
Lemma demand_plot_loop_demand methods ob table pops np i fig ids rs fig' :
  demand_plot_loop methods ob table pops np i fig ids = Ok (rs, fig') ->
  demand_loop methods ob table pops ids = Ok rs.
Proof.
  revert i fig rs fig'. induction ids as [|sub ids IH]; intros i fig rs fig' Hl;
    cbn [demand_plot_loop] in Hl.
  - injection Hl as <- _. reflexivity.
  - apply bind_Ok in Hl as [o [Ho Hl]]. apply bind_Ok in Hl as [dv [Hdv Hl]].
    apply bind_Ok in Hl as [sm [Hsm Hl]]. apply bind_Ok in Hl as [s [Hs Hl]].
    destruct (demand_for_subregion _ _ _) as [d w] eqn:Hdw.
    apply bind_Ok in Hl as [sp [_ Hl]]. apply bind_Ok in Hl as [[rs' f'] [Hrec Hl]].
    injection Hl as <- _. pose proof (IH _ _ _ _ Hrec) as Hr. unfold demand_loop in Hr |- *.
    cbn [mapM]. rewrite Hr, Ho, Hdv, Hsm. cbn [bind]. unfold subregion_demand at 1. rewrite Hs.
    cbn [bind]. now rewrite Hdw.
Qed.

(** When every subregion has observed and simulated populations and
    its subplot number lies in the grid, the plotted loop succeeds
    wherever the plain loop does: it keeps the size of the figure and
    adds one subplot per subregion, numbered from [i]. *)
Lemma demand_plot_loop_ok methods ob table pops np i fig ids rs :
  demand_loop methods ob table pops ids = Ok rs ->
  (1 <= i)%Z -> (i - 1 + Z.of_nat (length ids) <= np * np)%Z ->
  (forall sub o sm, In sub ids -> pt_column ob sub = Ok o -> assoc_get pops sub = Ok sm ->
     o <> [] /\ sm <> []) ->
  exists fig', demand_plot_loop methods ob table pops np i fig ids = Ok (rs, fig') /\
    fig_size fig' = fig_size fig /\
    map sp_num (fig_axes fig') = map sp_num (fig_axes fig) ++ map Z.of_nat (seq (Z.to_nat i) (length ids)).
Proof.
  revert i fig rs. induction ids as [|sub ids IH]; intros i fig rs Hl Hi Hn Hne.
  - injection Hl as <-. exists fig. rewrite app_nil_r. split; [reflexivity|split; reflexivity].
  - unfold demand_loop in Hl. cbn [mapM] in Hl. cbn [length] in Hn.
    apply bind_Ok in Hl as [[[sub' d] w] [Hr Hl]]. apply bind_Ok in Hl as [rs' [Hrs Hl]].
    injection Hl as <-.
    apply bind_Ok in Hr as [o [Ho Hr]]. apply bind_Ok in Hr as [dv [Hdv Hr]].
    apply bind_Ok in Hr as [sm [Hsm Hr]]. apply bind_Ok in Hr as [[d' w'] [Hd Hr]].
    injection Hr as <- <- <-. unfold subregion_demand in Hd.
    apply bind_Ok in Hd as [s [Hs Hd]]. injection Hd as Hd.
    destruct (Hne sub o sm (or_introl eq_refl) Ho Hsm) as [Hon Hsmn].
    destruct (plot_subregion_ok np i sub s o (map inject_Z dv) sm) as [sp [Hsp Hnum]]; [lia|auto|auto|].
    destruct (IH (i + 1)%Z (add_axes fig sp) rs') as (fig' & Hrec & Hsize & Hnums);
      [exact Hrs|lia|lia|intros; apply (Hne sub0 o0 sm0); auto using in_cons|].
    exists fig'. cbn [demand_plot_loop]. rewrite Ho, Hdv, Hsm. cbn [bind]. rewrite Hs.
    cbn [bind]. rewrite Hd. cbn [bind]. rewrite Hsp. cbn [bind]. rewrite Hrec. cbn [bind].
    split; [reflexivity|]. split; [exact Hsize|]. rewrite Hnums. cbn [add_axes fig_axes].
    rewrite map_app, <- app_assoc. cbn [map seq length]. rewrite Hnum.
    replace (Z.to_nat (i + 1)) with (S (Z.to_nat i)) by lia. cbn [app]. rewrite Z2Nat.id by lia. reflexivity.
Qed.

(** What a successful plain run checked before gathering. *)
Lemma demand_main_times o univar ob pr r :
  demand_main o univar ob pr = Ok r ->
  exists ot pt, pt_times ob = Ok ot /\ pt_times pr = Ok pt /\
    length (split_on comma (opt_development o)) = length ot.
Proof.
  unfold demand_main. intros Hm. apply bind_Ok in Hm as [sim [_ Hm]].
  apply bind_Ok in Hm as [ot [Hot Hm]]. apply bind_Ok in Hm as [pt [Hpt Hm]].
  exists ot, pt. split; [exact Hot|]. split; [exact Hpt|].
  destruct (Nat.eqb_spec (length (split_on comma (opt_development o))) (length ot)); [assumption|discriminate].
Qed.

End Props.

Lemma split_on_nonempty c s : split_on c s <> [].
Proof.
  destruct s as [|a s]; cbn; [discriminate|]. destruct (Ascii.eqb a c); [discriminate|].
  destruct (split_on c s); discriminate.
Qed.

Lemma pt_rect_column t ts sub o :
  pt_rect t = true -> pt_times t = Ok ts -> pt_column t sub = Ok o -> length o = length ts.
Proof.
  unfold pt_rect, pt_times, pt_column. destruct (pt_columns t) as [|[n0 ts0] cs]; [discriminate|].
  intros Hr Hts. injection Hts as <-. destruct (find _ _) as [c|] eqn:Hf; [|discriminate].
  intros Ho. injection Ho as <-. apply find_some in Hf as [Hin _].
  destruct Hin as [<-|Hin]; [reflexivity|]. rewrite forallb_forall in Hr.
  now apply Nat.eqb_eq, Hr.
Qed.

Lemma assoc_get_in {V} (d : list (string * V)) k v : assoc_get d k = Ok v -> In (k, v) d.
Proof.
  unfold assoc_get. destruct (find _ d) as [[k' v']|] eqn:Hf; [|discriminate].
  intros Hv. injection Hv as <-. apply find_some in Hf as [Hin Hk].
  apply String.eqb_eq in Hk. cbn in Hk. now subst.
Qed.

Lemma py_int_nonneg q : 0 <= q -> (0 <= py_int q)%Z.
Proof.
  unfold py_int, Qle. cbn. intros Hq. apply Z.quot_pos; lia.
Qed.

(** A field of the written table, read back, as the contract states it. *)
Lemma cell_int_contract ids dem i sub z n :
  map fst dem = ids ->
  Forall (fun kv => length (snd kv) = n /\ Forall (fun v => 0 <= v) (snd kv)) dem -> (i < n)%nat ->
  cell_int ids dem i sub = Ok z ->
  (0 <= z)%Z /\
  z = match find (fun kv => String.eqb (fst kv) sub) dem with
      | Some kv => py_int (nth i (snd kv) 0)
      | None => 0%Z
      end.
Proof.
  intros Hk Hall Hi. unfold cell_int, dict_lookup. rewrite Forall_forall in Hall.
  destruct (existsb (String.eqb sub) ids) eqn:E.
  - destruct (find _ dem) as [kv|] eqn:Hf; cbn [bind]; [|discriminate].
    destruct (nth_error (snd kv) i) as [x|] eqn:Hx; [|discriminate]. intros Hz. injection Hz as <-.
    apply find_some in Hf as [Hin _]. destruct (Hall kv Hin) as [_ Hnn].
    rewrite Forall_forall in Hnn. split.
    + apply py_int_nonneg, Hnn. eapply nth_error_In; eassumption.
    + now rewrite (nth_error_nth _ _ _ Hx).
  - intros Hz. injection Hz as <-. split; [lia|].
    destruct (find _ dem) as [kv|] eqn:Hf; [|reflexivity]. exfalso.
    apply find_some in Hf as [Hin Heq]. apply String.eqb_eq in Heq.
    assert (Hs : In sub ids) by (rewrite <- Hk, <- Heq; now apply in_map).
    assert (Htrue : existsb (String.eqb sub) ids = true)
      by (apply existsb_exists; exists sub; split; [exact Hs|apply String.eqb_refl]).
    congruence.
Qed.

(** The demand dictionary a successful loop builds: its keys are the
    ids, and every vector has one non-negative entry per interval. *)
Lemma demand_loop_dem `{FloatLib} methods keys ob pr sim pops table ids results :
  population_for_simulated_times keys ob pr sim = Ok pops ->
  demand_loop methods ob table pops ids = Ok results ->
  let dem := map (fun r => (fst (fst r), snd (fst r))) results in
  map fst dem = ids /\
  Forall (fun kv => length (snd kv) = (length sim - 1)%nat /\ Forall (fun v => 0 <= v) (snd kv)) dem.
Proof.
  intros Hp Hr. apply demand_loop_spec in Hr. cbv zeta.
  destruct (population_shape _ _ _ _ _ Hp) as [_ Hlen]. rewrite Forall_forall in Hlen.
  split.
  - rewrite map_map. clear -Hr. induction Hr as [|sub r ids rs [<- _] _ IH]; [reflexivity|]. simpl. now f_equal.
  - clear -Hr Hlen. induction Hr as [|sub r ids rs [_ Hx] _ IH]; constructor; auto.
    destruct Hx as (o & dv & sm & _ & _ & Hsm & Hd). cbn [snd]. split.
    + rewrite (subregion_demand_entries _ _ _ _ _ _ _ Hd). f_equal. exact (Hlen _ (assoc_get_in _ _ _ Hsm)).
    + exact (subregion_demand_nonneg _ _ _ _ _ _ _ Hd).
Qed.

(** A successful run with the plot passed every stage of the plain run. *)
Lemma demand_main_plot_plain `{FloatLib} `{FloatFormat} o plot univar ob pr text ws out :
  demand_main_plot o plot univar ob pr = Ok (text, ws, out) ->
  demand_main o univar ob pr = Ok (text, ws).
Proof.
  unfold demand_main_plot, demand_main. cbv zeta. intros Hm.
  destruct (mapM parse_time _) as [sim|e]; cbn [bind] in *; [|discriminate].
  destruct (pt_times ob) as [ot|e]; cbn [bind] in *; [|discriminate].
  destruct (pt_times pr) as [pt|e]; cbn [bind] in *; [|discriminate].
  destruct (negb _); [discriminate|].
  destruct (gather_developed _) as [[table ids]|e]; cbn [bind] in *; [|discriminate].
  destruct (population_for_simulated_times _ _ _ _) as [pops|e]; cbn [bind] in *; [|discriminate].
  apply bind_Ok in Hm as [[rs out'] [Hl Hm]].
  assert (Hd : demand_loop (map method_of_string (split_on comma (opt_method o))) ob table pops ids = Ok rs).
  { destruct (String.eqb plot EmptyString).
    - apply bind_Ok in Hl as [rs' [Hl Hrs]]. now injection Hrs as <- _.
    - apply bind_Ok in Hl as [[rs' f] [Hl Hrs]]. injection Hrs as <- _.
      exact (demand_plot_loop_demand _ _ _ _ _ _ _ _ _ _ Hl). }
  rewrite Hd. cbn [bind]. apply bind_Ok in Hm as [t [Ht Hm]]. rewrite Ht. cbn [bind].
  now injection Hm as <- <- _.
Qed.

(** ** Properties of the run with the plot *)

Section Claims.

Context `{FloatLib} `{FloatFormat}.

(** C12. Drawing never changes what the run writes: without [plot] the
    run is the plain [main] and saves no figure, and a run with [plot]
    that succeeds writes the same demand file and emits the same
    warnings as the plain [main]. *)
Theorem demand_main_plot_same_output o plot univar ob pr :
  (plot = EmptyString ->
   demand_main_plot o plot univar ob pr =
   (r <- demand_main o univar ob pr ;; Ok (fst r, snd r, None))) /\
  (forall text ws out, demand_main_plot o plot univar ob pr = Ok (text, ws, out) ->
   demand_main o univar ob pr = Ok (text, ws)).
Proof.
  split; [|intros text ws out; apply demand_main_plot_plain].
  unfold demand_main_plot, demand_main. cbv zeta. intros ->. cbn [String.eqb].
  destruct (mapM parse_time _) as [sim|e]; cbn [bind]; [|reflexivity].
  destruct (pt_times ob) as [ot|e]; cbn [bind]; [|reflexivity].
  destruct (pt_times pr) as [pt|e]; cbn [bind]; [|reflexivity].
  destruct (negb _); [reflexivity|].
  destruct (gather_developed _) as [[table ids]|e]; cbn [bind]; [|reflexivity].
  destruct (population_for_simulated_times _ _ _ _) as [pops|e]; cbn [bind]; [|reflexivity].
  destruct (demand_loop _ _ _ _ _) as [rs|e]; cbn [bind]; [|reflexivity].
  destruct (write_demand _ _ _ _) as [text|e]; reflexivity.
Qed.

(** C4. Refinement of the demand table of the specification: the file
    a successful run writes (with or without [plot]) reads back as the
    table of the contract, for the simulation times of the options and
    the [demand] dictionary of the sorted subregion ids, provided the
    header names of the observed-population table are distinct, contain
    no newline, and include at least one subregion. *)
Theorem demand_main_plot_table o plot univar ob pr text ws out :
  demand_main_plot o plot univar ob pr = Ok (text, ws, out) ->
  NoDup (tl (pt_names ob)) -> tl (pt_names ob) <> [] ->
  Forall (fun h => no_char nl h = true) (pt_names ob) ->
  exists sim table ids dem rows,
    mapM parse_time (split_on comma (opt_simulation_times o)) = Ok sim /\
    gather_developed (map univar (split_on comma (opt_development o))) = Ok (table, ids) /\
    map fst dem = ids /\ read_demand text = Ok rows /\
    demand_table_contract sim (pt_names ob) dem rows.
Proof.
  intros Hm Hnd Hne Hh. apply demand_main_plot_plain in Hm.
  apply demand_main_inv in Hm as (sim & table & ids & pops & results & Hs & Hg & Hp & Hr & Hw & _).
  destruct (demand_loop_dem _ _ _ _ _ _ _ _ _ Hp Hr) as [Hk Hdem].
  destruct (read_written_demand _ _ _ _ _ Hw Hnd Hne Hh) as [rows [Hread Hrows]].
  exists sim, table, ids, (map (fun r => (fst (fst r), snd (fst r))) results), rows.
  do 4 (split; [assumption|]). split; [exact Hdem|].
  revert Hrows. apply Forall2_impl_in. intros [i t] row Hin [zs [Hrow Hzs]].
  exists zs. split; [exact Hrow|]. revert Hzs. apply Forall2_impl. intros sub z Hz.
  apply (cell_int_contract ids _ i sub z (length sim - 1) Hk Hdem); [|exact Hz].
  apply in_combine_l, in_seq in Hin. rewrite length_tl in Hin. lia.
Qed.

(** C13. Drawing never makes a successful run fail: when the plain
    [main] succeeds, [sqrt] is not a whole unit below the exact root of
    the number of subregions, and the observed-population table is
    rectangular, the run with the plot writes the same file and saves a
    figure of size [5 * n_plots] square with one subplot per subregion,
    numbered [1] to [len(subregionIds)] in the sorted order
    ([fig.add_subplot] never rejects the number, and [np.min] and
    [np.max] never see an empty array). *)
Theorem demand_main_plot_succeeds o plot univar ob pr text ws table ids :
  demand_main o univar ob pr = Ok (text, ws) ->
  gather_developed (map univar (split_on comma (opt_development o))) = Ok (table, ids) ->
  inject_Z (Z.sqrt_up (Z.of_nat (length ids)) - 1) < f_sqrt (inject_Z (Z.of_nat (length ids))) ->
  pt_rect ob = true ->
  exists out, demand_main_plot o plot univar ob pr = Ok (text, ws, out) /\
    (if String.eqb plot EmptyString then out = None
     else exists fig, out = Some (plot, fig) /\
       fig_size fig = (5 * n_plots (length ids), 5 * n_plots (length ids))%Z /\
       map sp_num (fig_axes fig) = map Z.of_nat (seq 1 (length ids))).
Proof.
  intros Hm Hg Hs Hr.
  destruct (demand_main_times _ _ _ _ _ Hm) as (ot & pt & Hot & Hpt & Hcnt).
  apply demand_main_inv in Hm as (sim & table' & ids' & pops & results & Hsim & Hg' & Hp & Hl & Hw & Hws).
  rewrite Hg in Hg'. injection Hg' as <- <-.
  assert (Hne : forall sub o' sm, In sub ids -> pt_column ob sub = Ok o' -> assoc_get pops sub = Ok sm ->
                  o' <> [] /\ sm <> []).
  { intros sub o' sm _ Ho Hsm. split.
    - rewrite <- length_zero_iff_nil, (pt_rect_column _ _ _ _ Hr Hot Ho), <- Hcnt, length_zero_iff_nil.
      apply split_on_nonempty.
    - destruct (population_shape _ _ _ _ _ Hp) as [_ Hlen].
      rewrite Forall_forall in Hlen. pose proof (Hlen _ (assoc_get_in _ _ _ Hsm)) as Hl'. cbn [snd] in Hl'.
      rewrite <- length_zero_iff_nil, Hl', (mapM_length _ _ _ Hsim), length_zero_iff_nil.
      apply split_on_nonempty. }
  unfold demand_main_plot. cbv zeta. rewrite Hsim, Hot, Hpt. cbn [bind]. rewrite Hcnt, Nat.eqb_refl.
  cbn [negb]. rewrite Hg. cbn [bind]. rewrite Hp. cbn [bind].
  destruct (String.eqb plot EmptyString).
  - rewrite Hl. cbn [bind]. rewrite Hw. cbn [bind]. exists None. rewrite Hws. split; reflexivity.
  - pose proof (n_plots_square _ Hs) as Hsq.
    destruct (demand_plot_loop_ok _ _ _ _ (n_plots (length ids)) 1 (new_figure (n_plots (length ids))) _ _ Hl)
      as (fig & Hloop & Hsize & Hnums); [lia|lia|exact Hne|].
    rewrite Hloop. cbn [bind]. rewrite Hw. cbn [bind]. exists (Some (plot, fig)). rewrite Hws.
    split; [reflexivity|]. exists fig. split; [reflexivity|]. split; [exact Hsize|exact Hnums].
Qed.

End Claims.

(** ** Witnesses *)

Lemma demand_main_plot_same_output_witness :
  exists text ws out,
    demand_main_plot scenario_options "demand.png" scenario_univar scenario_observed scenario_projected
      = Ok (text, ws, out) /\
    demand_main scenario_options scenario_univar scenario_observed scenario_projected = Ok (text, ws).
Proof.
  destruct (demand_main_plot scenario_options "demand.png" scenario_univar scenario_observed
              scenario_projected) as [[[text ws] out]|e] eqn:E; [|vm_absurd E].
  exists text, ws, out. split; [reflexivity|].
  exact (proj2 (demand_main_plot_same_output _ _ _ _ _) text ws out E).
Defined.

Lemma demand_main_plot_succeeds_witness :
  exists text ws table ids fig,
    demand_main scenario_options scenario_univar scenario_observed scenario_projected = Ok (text, ws) /\
    gather_developed (map scenario_univar (split_on comma (opt_development scenario_options)))
      = Ok (table, ids) /\
    demand_main_plot scenario_options "demand.png" scenario_univar scenario_observed scenario_projected
      = Ok (text, ws, Some ("demand.png"%string, fig)) /\
    fig_size fig = (10, 10)%Z /\ map sp_num (fig_axes fig) = [1; 2; 3]%Z.
Proof.
  destruct (demand_main scenario_options scenario_univar scenario_observed scenario_projected)
    as [[text ws]|e] eqn:Hm; [|vm_absurd Hm].
  destruct (gather_developed (map scenario_univar (split_on comma (opt_development scenario_options))))
    as [[table ids]|e] eqn:Hg; [|vm_absurd Hg].
  assert (Hn : length ids = 3%nat) by (revert Hg; vm_compute; intros Hg; now injection Hg as _ <-).
  destruct (demand_main_plot_succeeds scenario_options "demand.png" _ _ _ _ _ _ _ Hm Hg)
    as [out [Hp Hfig]]; [rewrite Hn; vm_compute; reflexivity|reflexivity|].
  destruct Hfig as (fig & -> & Hsize & Hnums).
  exists text, ws, table, ids, fig. split; [reflexivity|]. split; [reflexivity|]. split; [exact Hp|].
  rewrite Hsize, Hnums, Hn. split; reflexivity.
Defined.

Lemma demand_main_plot_table_witness :
  exists text ws out sim table ids dem rows,
    demand_main_plot scenario_options "demand.png" scenario_univar scenario_observed scenario_projected
      = Ok (text, ws, out) /\
    mapM parse_time (split_on comma (opt_simulation_times scenario_options)) = Ok sim /\
    gather_developed (map scenario_univar (split_on comma (opt_development scenario_options)))
      = Ok (table, ids) /\
    map fst dem = ids /\ read_demand text = Ok rows /\
    demand_table_contract sim (pt_names scenario_observed) dem rows.
Proof.
  destruct (demand_main_plot scenario_options "demand.png" scenario_univar scenario_observed
              scenario_projected) as [[[text ws] out]|e] eqn:E; [|vm_absurd E].
  destruct (demand_main_plot_table _ _ _ _ _ _ _ _ E) as (sim & table & ids & dem & rows & H);
    [repeat constructor; simpl; intuition discriminate|discriminate|repeat constructor|].
  exists text, ws, out, sim, table, ids, dem, rows. split; [reflexivity|exact H].
Defined.

End Main.
