(* ===== verification/Potential.v ===== *)
(** * [r.futures.potential.py]

    The script exports the attribute table of a vector map with
    [v.db.select], writes an R script to a temporary file, runs it with
    [Rscript] to fit a mixed-effects logistic model (optionally with
    [dredge] model selection), and rewrites the coefficient table that R
    writes into the output file.  Its temporary files are module globals
    removed by the [atexit] hook [cleanup].

    [world] is the state the script acts on: the files, the counter of
    [g.tempfile] names, the trace of messages and commands, and the three
    globals [TMP_CSV], [TMP_POT], [TMP_RSCRIPT].  [potential_main] is
    [main] (lines 126-176) in a state-and-error monad [io] whose failures
    keep the state reached (an exception leaves the files written so far);
    [run_potential] is the process: [main], then [cleanup] (lines 120-123)
    on every exit path, as [atexit] does.  The GRASS library and R are the
    class [GrassEnv]: the [n]-th temporary name, the table text
    [v.db.select] writes, and what [Rscript] returns and writes. *)

From S2P Require Import Prelude Developed Table.
From Stdlib Require Import String Ascii ZArith Arith List Lia Bool.
Import ListNotations.

Module Potential.

Import Developed Table.

Local Open Scope string_scope.

(** ** Python values and strings *)

(** [maxv] is an [int] when computed (line 136) and the option's [str]
    when given (line 134). *)
Inductive pyval : Type :=
| PyInt (z : Z)
| PyStr (s : string).

(** Python 2 ordering: an [int] is smaller than every [str]; two [str]s
    compare lexicographically. *)
Definition py2_gt (a b : pyval) : bool :=
  match a, b with
  | PyInt x, PyInt y => Z.gtb x y
  | PyInt _, PyStr _ => false
  | PyStr _, PyInt _ => true
  | PyStr x, PyStr y => String.ltb y x
  end.

(** [str(v)]. *)
Definition py_str (v : pyval) : string :=
  match v with PyInt z => py_str_int z | PyStr s => s end.

Definition space : ascii := " "%char.
Definition quote : ascii := ascii_of_nat 34.

Definition is_quote (c : ascii) : bool := Ascii.eqb c quote.

(** [fin.readlines()]: each line keeps its newline; a last line without
    one is kept as it is, an empty rest is dropped. *)
Definition readlines (text : string) : list string :=
  let pieces := split_on nl text in
  map (fun l => append l (String nl EmptyString)) (removelast pieces) ++
  (if String.eqb (last pieces EmptyString) EmptyString then [] else [last pieces EmptyString]).

(** ** The R script (lines 70-113)

    [rscript_src] is the text of the Python string with each double quote
    written as a backquote and the [\t] escape written as a caret (Rocq
    string literals cannot hold a lone quote, and the text has neither
    backquotes nor carets); [rscript] restores them. *)
Fixpoint decode_script (s : string) : string :=
  match s with
  | EmptyString => EmptyString
  | String c s' =>
      String (if Ascii.eqb c "`"%char then quote else if Ascii.eqb c "^"%char then tab else c)
             (decode_script s')
  end.

Definition rscript_src : string := "
# load required libraries
for (package in c(`MuMIn`, `lme4`, `optparse`)) {
    if (!(is.element(package, installed.packages()[,1]) ))
        stop(paste(`Package`, package, ` not found`))
    }
suppressPackageStartupMessages(library(MuMIn))
suppressPackageStartupMessages(library(lme4))
suppressPackageStartupMessages(library(optparse))
option_list = list(
  make_option(c(`-i`,`--input`), action=`store`, default=NA, type='character', help=`input CSV file`),
  make_option(c(`-o`,`--output`), action=`store`, default=NA, type='character', help=`output CSV file`),
  make_option(c(`-l`,`--level`), action=`store`, default=NA, type='character', help=`level variable name`),
  make_option(c(`-r`,`--response`), action=`store`, default=NA, type='character', help=`binary response variable name`),
  make_option(c(`-d`,`--usedredge`), action=`store`, default=NA, type='logical', help=`use dredge to find best model`),
  make_option(c(`-m`,`--minimum`), action=`store`, default=NA, type='integer', help=`minimum number of variables for dredge`),
  make_option(c(`-x`,`--maximum`), action=`store`, default=NA, type='integer', help=`maximum number of variables for dredge`)
)

opt = parse_args(OptionParser(option_list=option_list))

# import data
input_data = read.csv(opt$input)
# create global model with all variables
predictors <- names(input_data)
predictors <- predictors[predictors != opt$level]
predictors <- predictors[predictors != opt$response]

interc <- paste(`(1|`, opt$level, `)`)
fmla <- as.formula(paste(opt$response, ` ~ `, paste(c(predictors, interc), collapse= `+`)))
model = glmer(formula=fmla, family = binomial, data=input_data, na.action = `na.fail`)

if(opt$usedredge) {
    #create all possible models, always include county as the level
    select.model <- dredge(model, evaluate=TRUE, rank=`AIC`, fixed=~(1|opt$level), m.lim=c(opt$minimum, opt$maximum), trace=FALSE)

    # save the best model
    model.best <- get.models(select.model, 1)
    model = glmer(formula(model.best[[1]]), family = binomial, data=input_data, na.action = `na.fail`)
}
print(summary(model))
coefs <- as.data.frame(coef(model)[[1]])
write.table(cbind(rownames(coefs), coefs), opt$output, row.names=FALSE, sep=`^`)
".

Definition rscript : string := decode_script rscript_src.

(** ** The options (lines 25-62) *)

Record pot_options : Type := {
  p_input : string;
  p_output : string;
  p_columns : string;
  p_developed_column : string;
  p_subregions_column : string;
  p_min_variables : string;
  p_max_variables : string;  (** empty when not given *)
  p_dredge : bool            (** flag [-d] *)
}.

(** ** The world *)

Inductive event : Type :=
| Info (msg : string)
| Print (text : string)
| RunCommand (argv : list string)
| Spawn (argv : list string).

Definition files : Type := list (string * string).

Fixpoint fs_get (p : string) (fs : files) : option string :=
  match fs with
  | [] => None
  | (q, c) :: r => if String.eqb p q then Some c else fs_get p r
  end.

Fixpoint fs_set (p c : string) (fs : files) : files :=
  match fs with
  | [] => [(p, c)]
  | (q, d) :: r => if String.eqb p q then (p, c) :: r else (q, d) :: fs_set p c r
  end.

Definition fs_remove (p : string) (fs : files) : files :=
  filter (fun e => negb (String.eqb (fst e) p)) fs.

Record world : Type := {
  w_files : files;
  w_tmp : nat;
  w_trace : list event;
  w_tmp_csv : option string;
  w_tmp_pot : option string;
  w_tmp_rscript : option string
}.

(** The GRASS library and R, as the script uses them. *)
Class GrassEnv : Type := {
  (** the [n]-th name [gscript.tempfile] returns *)
  tmp_name : nat -> string;
  (** the CSV text [v.db.select map=... columns=... separator=comma]
      writes, from the files and the map and columns *)
  v_db_select : files -> string -> list string -> string;
  (** [Rscript] run on the files with its arguments: its return code,
      standard output and error, and the text it writes to its [-o]
      file, if any *)
  run_rscript : files -> list string -> Z * string * string * option string
}.

(** ** A state and error monad

    A failure keeps the world it was raised in: the files written before
    an exception stay written. *)

Definition io (A : Type) : Type := world -> res A * world.

Definition io_ret {A} (a : A) : io A := fun w => (Ok a, w).

Definition io_bind {A B} (c : io A) (k : A -> io B) : io B :=
  fun w => match c w with
           | (Ok a, w') => k a w'
           | (Err e, w') => (Err e, w')
           end.

Definition io_fail {A} (e : exc) : io A := fun w => (Err e, w).

Definition io_lift {A} (r : res A) : io A := fun w => (r, w).

Declare Scope io_scope.
Delimit Scope io_scope with io.
Notation "'let!' x ':=' c 'in' k" := (io_bind c (fun x => k))
  (at level 10, x name, c at level 100, k at level 200) : io_scope.
Local Open Scope io_scope.

(** ** Operations on the world *)

Definition emit (ev : event) : io unit :=
  fun w => (Ok tt, {| w_files := w_files w; w_tmp := w_tmp w; w_trace := w_trace w ++ [ev];
                     w_tmp_csv := w_tmp_csv w; w_tmp_pot := w_tmp_pot w;
                     w_tmp_rscript := w_tmp_rscript w |}).

(** [open(p, 'w').write(c)]. *)
Definition write_file (p c : string) : io unit :=
  fun w => (Ok tt, {| w_files := fs_set p c (w_files w); w_tmp := w_tmp w; w_trace := w_trace w;
                     w_tmp_csv := w_tmp_csv w; w_tmp_pot := w_tmp_pot w;
                     w_tmp_rscript := w_tmp_rscript w |}).

(** [open(p, 'r').read()]: [IOError] when there is no such file. *)
Definition read_file (p : string) : io string :=
  fun w => match fs_get p (w_files w) with
           | Some c => (Ok c, w)
           | None => (Err (IOError p), w)
           end.

(** [gscript.tempfile(create)]: a fresh name, an empty file when [create]. *)
Definition gtempfile `{GrassEnv} (create : bool) : io string :=
  fun w => let n := tmp_name (w_tmp w) in
    (Ok n, {| w_files := if create then fs_set n EmptyString (w_files w) else w_files w;
              w_tmp := S (w_tmp w); w_trace := w_trace w;
              w_tmp_csv := w_tmp_csv w; w_tmp_pot := w_tmp_pot w;
              w_tmp_rscript := w_tmp_rscript w |}).

Definition set_tmp_csv (p : string) : io unit :=
  fun w => (Ok tt, {| w_files := w_files w; w_tmp := w_tmp w; w_trace := w_trace w;
                     w_tmp_csv := Some p; w_tmp_pot := w_tmp_pot w;
                     w_tmp_rscript := w_tmp_rscript w |}).

Definition set_tmp_rscript (p : string) : io unit :=
  fun w => (Ok tt, {| w_files := w_files w; w_tmp := w_tmp w; w_trace := w_trace w;
                     w_tmp_csv := w_tmp_csv w; w_tmp_pot := w_tmp_pot w;
                     w_tmp_rscript := Some p |}).

Definition set_tmp_pot (p : string) : io unit :=
  fun w => (Ok tt, {| w_files := w_files w; w_tmp := w_tmp w; w_trace := w_trace w;
                     w_tmp_csv := w_tmp_csv w; w_tmp_pot := Some p;
                     w_tmp_rscript := w_tmp_rscript w |}).

(** [gscript.run_command('v.db.select', ...)]: the command, then its
    output file. *)
Definition v_db_select_cmd `{GrassEnv} (vinput : string) (columns : list string) (file : string)
    : io unit :=
  let! _ := emit (RunCommand ["v.db.select"; append "map=" vinput;
                              append "columns=" (join comma columns);
                              "separator=comma"; append "file=" file]) in
  fun w => write_file file (v_db_select (w_files w) vinput columns) w.

(** [subprocess.Popen(argv).communicate()] on [Rscript]: the return code
    and the two outputs, and the file R writes. *)
Definition spawn_rscript `{GrassEnv} (argv : list string) (out_file : string)
    : io (Z * string * string) :=
  let! _ := emit (Spawn argv) in
  fun w => let '(rc, out, err, written) := run_rscript (w_files w) argv in
    match written with
    | Some c => (Ok (rc, out, err), snd (write_file out_file c w))
    | None => (Ok (rc, out, err), w)
    end.

(** ** Lines 127-138: the options and the fatal check *)

Definition parse_options (o : pot_options) : res (list string * Z * pyval) :=
  let columns := split_on comma (p_columns o) in
  minim <- py_int_of_string (p_min_variables o) ;;
  let maxv := if String.eqb (p_max_variables o) EmptyString
              then PyInt (Z.of_nat (length columns) - 2)
              else PyStr (p_max_variables o) in
  if p_dredge o && py2_gt (PyInt minim) maxv
  then Err (Fatal "Minimum number of predictor variables is larger than maximum number")
  else Ok (columns, minim, maxv).

(** ** Lines 166-176: rewriting R's coefficient table *)

(** One line: strip it, split it at tabs, strip the quotes of each field;
    in the first line rename the first two fields. *)
Definition rewrite_row (i : nat) (line : string) : res (list string) :=
  let row := map (strip is_quote) (split_on tab (strip is_space line)) in
  if Nat.eqb i 0 then
    match row with
    | _ :: _ :: rest => Ok ("ID" :: "Intercept" :: rest)
    | _ => Err (IndexError "list assignment index out of range")
    end
  else Ok row.

(** The loop of lines 168-176, with the text written so far. *)
Fixpoint rewrite_lines (i : nat) (lines : list string) (out : string) : string * res unit :=
  match lines with
  | [] => (out, Ok tt)
  | l :: ls =>
      match rewrite_row i l with
      | Err e => (out, Err e)
      | Ok row => rewrite_lines (S i) ls (append out (append (join space row) (String nl EmptyString)))
      end
  end.

(** Lines 166-176: [fin] is opened first, then [fout], which the [with]
    statement closes (and flushes) on every exit. *)
Definition rewrite_potential (pot output : string) : io unit :=
  let! text := read_file pot in
  fun w => let '(out, r) := rewrite_lines 0 (readlines text) EmptyString in
    (r, snd (write_file output out w)).

(** ** [main] (lines 126-176) *)

Definition rscript_argv (rscript_file csv level binary : string) (minim : Z) (maxv : pyval)
    (pot : string) (dredge : bool) : list string :=
  ["Rscript"; rscript_file; "-i"; csv; "-l"; level; "-r"; binary; "-m"; py_str_int minim;
   "-x"; py_str maxv; "-o"; pot; "-d"; if dredge then "TRUE" else "FALSE"].

Definition potential_main `{GrassEnv} (o : pot_options) : io unit :=
  let! opts := io_lift (parse_options o) in
  let '(columns, minim, maxv) := opts in
  let! csv := gtempfile false in
  let! _ := set_tmp_csv (append csv ".csv") in
  let! r := gtempfile true in
  let! _ := set_tmp_rscript r in
  let! _ := write_file r rscript in
  let! pot := gtempfile false in
  let! _ := set_tmp_pot (append pot "_potential.csv") in
  let columns' := (columns ++ [p_developed_column o; p_subregions_column o])%list in
  let! _ := v_db_select_cmd (p_input o) columns' (append csv ".csv") in
  let! _ := emit (Info (if p_dredge o then "Running automatic model selection ..."
                        else "Computing model...")) in
  let! ros := spawn_rscript (rscript_argv r (append csv ".csv") (p_subregions_column o)
                               (p_developed_column o) minim maxv
                               (append pot "_potential.csv") (p_dredge o))
                            (append pot "_potential.csv") in
  let '(rc, out, err) := ros in
  let! _ := emit (Print err) in
  if negb (Z.eqb rc 0) then
    let! _ := emit (Print err) in
    io_fail (Fatal "Running R script failed, check messages above")
  else
    let! _ := emit (Info "Best model summary:") in
    let! _ := emit (Info "-------------------------") in
    let! _ := emit (Print out) in
    rewrite_potential (append pot "_potential.csv") (p_output o).

(** [gscript.try_remove(path)]: removes the file if there is one; the
    global is still [None] when [main] stopped before setting it, and
    the removal error is ignored. *)
Definition try_remove (p : option string) (fs : files) : files :=
  match p with Some q => fs_remove q fs | None => fs end.

(** Lines 120-123. *)
Definition cleanup (w : world) : world :=
  {| w_files := try_remove (w_tmp_rscript w) (try_remove (w_tmp_pot w)
                  (try_remove (w_tmp_csv w) (w_files w)));
     w_tmp := w_tmp w; w_trace := w_trace w;
     w_tmp_csv := w_tmp_csv w; w_tmp_pot := w_tmp_pot w; w_tmp_rscript := w_tmp_rscript w |}.

(** Lines 179-181: the process registers [cleanup] with [atexit] and runs
    [main]; [cleanup] runs on every exit, [gscript.fatal] included. *)
Definition run_potential `{GrassEnv} (o : pot_options) (w : world) : res unit * world :=
  let '(r, w') := potential_main o w in (r, cleanup w').

(** ** A run of [main], in direct style *)

(** The three temporary paths of a run that starts with the [g.tempfile]
    counter at [n] (lines 141, 142, 145). *)
Definition tmp_paths `{GrassEnv} (n : nat) : string * string * string :=
  (append (tmp_name n) ".csv", tmp_name (S n), append (tmp_name (S (S n))) "_potential.csv").

(** The world and result of [main] once the options are parsed, written
    as one straight-line computation on the files. *)
Definition main_outcome `{GrassEnv} (o : pot_options) (columns : list string) (minim : Z)
    (maxv : pyval) (w : world) : res unit * world :=
  let '(csv, rf, pot) := tmp_paths (w_tmp w) in
  let fs_r := fs_set rf rscript (fs_set rf EmptyString (w_files w)) in
  let cols := (columns ++ [p_developed_column o; p_subregions_column o])%list in
  let fs_c := fs_set csv (v_db_select fs_r (p_input o) cols) fs_r in
  let argv := rscript_argv rf csv (p_subregions_column o) (p_developed_column o) minim maxv
                pot (p_dredge o) in
  let '(rc, out, err, written) := run_rscript fs_c argv in
  let fs_p := match written with Some c => fs_set pot c fs_c | None => fs_c end in
  let trace := (w_trace w ++ [RunCommand ["v.db.select"; append "map=" (p_input o);
                                          append "columns=" (join comma cols);
                                          "separator=comma"; append "file=" csv];
                Info (if p_dredge o then "Running automatic model selection ..."
                      else "Computing model..."); Spawn argv; Print err])%list in
  let mk fs tr := {| w_files := fs; w_tmp := S (S (S (w_tmp w))); w_trace := tr;
                     w_tmp_csv := Some csv; w_tmp_pot := Some pot; w_tmp_rscript := Some rf |} in
  if negb (Z.eqb rc 0) then
    (Err (Fatal "Running R script failed, check messages above"), mk fs_p (trace ++ [Print err])%list)
  else
    let trace' := (trace ++ [Info "Best model summary:"; Info "-------------------------";
                             Print out])%list in
    match fs_get pot fs_p with
    | None => (Err (IOError pot), mk fs_p trace')
    | Some text =>
        let '(text_out, r) := rewrite_lines 0 (readlines text) EmptyString in
        (r, mk (fs_set (p_output o) text_out fs_p) trace')
    end.

(** A field with neither whitespace nor double quotes. *)
Definition clean_field (s : string) : bool :=
  all_chars (fun c => negb (is_space c) && negb (is_quote c)) s.

(** ** The table R writes (lines 111-112)

    [write.table(cbind(rownames(coefs), coefs), sep="\t", row.names=FALSE)]
    writes a header of quoted column names, then per row the quoted row
    name and the unquoted numbers, separated by tabs, each line ended by a
    newline. *)
Definition quoted (s : string) : string := String quote (append s (String quote EmptyString)).

Definition r_write_table (header : list string) (rows : list (string * list string)) : string :=
  concat_lines (join tab (map quoted header) ::
                map (fun r => join tab (quoted (fst r) :: snd r)) rows).

(** What the script writes for such a table. *)
Definition rewritten_table (header : list string) (rows : list (string * list string)) : string :=
  concat_lines (join space ("ID" :: "Intercept" :: skipn 2 header) ::
                map (fun r => join space (fst r :: snd r)) rows).

(** ** A concrete environment for the examples

    Temporary names [/tmp/grass/0], [/tmp/grass/1], ...; [v.db.select]
    writes the column names; R succeeds and writes a two-county
    coefficient table ([demo_env]) or fails ([failing_env]). *)

Definition demo_table : string :=
  r_write_table ["rownames(coefs)"; "(Intercept)"; "road_dens"; "slope"]
    [("1", ["-2.5"; "0.3"; "-0.1"]); ("2", ["-1.75"; "0.3"; "-0.1"])].

Definition demo_env : GrassEnv := {|
  tmp_name n := append "/tmp/grass/" (py_str_int (Z.of_nat n));
  v_db_select _ _ cols := join comma cols;
  run_rscript _ _ := (0%Z, "Generalized linear mixed model fit", EmptyString, Some demo_table)
|}.

Definition failing_env : GrassEnv := {|
  tmp_name n := append "/tmp/grass/" (py_str_int (Z.of_nat n));
  v_db_select _ _ cols := join comma cols;
  run_rscript _ _ := (1%Z, EmptyString, "Error: package MuMIn not found", None)
|}.

Definition demo_options (dredge : bool) (minv maxv : string) : pot_options := {|
  p_input := "samples"; p_output := "potential.txt"; p_columns := "road_dens,slope";
  p_developed_column := "developed"; p_subregions_column := "county";
  p_min_variables := minv; p_max_variables := maxv; p_dredge := dredge
|}.

Definition demo_world : world := {|
  w_files := []; w_tmp := 0; w_trace := [];
  w_tmp_csv := None; w_tmp_pot := None; w_tmp_rscript := None
|}.

(** ** Lemmas on the file store *)

Lemma fs_get_set p q c fs :
  fs_get p (fs_set q c fs) = if String.eqb p q then Some c else fs_get p fs.
Proof.
  induction fs as [|[k d] fs IH]; simpl.
  - reflexivity.
  - destruct (String.eqb_spec q k) as [->|Hne]; simpl.
    + destruct (String.eqb p k); reflexivity.
    + rewrite IH. destruct (String.eqb_spec p q), (String.eqb_spec p k); congruence.
Qed.

Lemma fs_get_remove p q fs :
  fs_get p (fs_remove q fs) = if String.eqb p q then None else fs_get p fs.
Proof.
  induction fs as [|[k d] fs IH]; simpl.
  - destruct (String.eqb p q); reflexivity.
  - destruct (String.eqb_spec k q) as [->|Hne]; simpl.
    + rewrite IH. destruct (String.eqb p q); reflexivity.
    + destruct (String.eqb_spec p k) as [->|Hpk]; [|exact IH].
      apply String.eqb_neq in Hne. now rewrite Hne.
Qed.

Lemma fs_get_try_remove_same p fs : fs_get p (try_remove (Some p) fs) = None.
Proof. simpl. rewrite fs_get_remove, String.eqb_refl. reflexivity. Qed.

Lemma fs_get_try_remove_keep p q fs : fs_get p fs = None -> fs_get p (try_remove q fs) = None.
Proof.
  destruct q as [q|]; simpl; [|auto]. rewrite fs_get_remove. intros ->.
  destruct (String.eqb p q); reflexivity.
Qed.

(** After [cleanup] no file of the three globals is left. *)
Lemma cleanup_removes w p :
  In (Some p) [w_tmp_csv w; w_tmp_pot w; w_tmp_rscript w] -> fs_get p (w_files (cleanup w)) = None.
Proof.
  unfold cleanup; simpl. intros [H|[H|[H|[]]]]; rewrite H;
    repeat first [apply fs_get_try_remove_same | apply fs_get_try_remove_keep].
Qed.


(** ** Lemmas on stripping *)

Lemma append_assoc_str (a b c : string) : append (append a b) c = append a (append b c).
Proof. induction a as [|x a IH]; simpl; congruence. Qed.

Lemma all_chars_append p a b : all_chars p (append a b) = all_chars p a && all_chars p b.
Proof. induction a as [|x a IH]; simpl; [reflexivity|]. rewrite IH. apply andb_assoc. Qed.

Lemma all_chars_impl (p q : ascii -> bool) s :
  (forall c, p c = true -> q c = true) -> all_chars p s = true -> all_chars q s = true.
Proof.
  intros Hpq. induction s as [|c s IH]; simpl; [auto|].
  intros H. apply andb_true_iff in H as [Hc Hs]. now rewrite Hpq, IH.
Qed.

Lemma all_chars_no_char p c s : p c = false -> all_chars p s = true -> no_char c s = true.
Proof.
  intros Hc. induction s as [|a s IH]; simpl; [auto|].
  intros H. apply andb_true_iff in H as [Ha Hs]. rewrite IH by exact Hs.
  destruct (Ascii.eqb_spec a c) as [->|]; [congruence|reflexivity].
Qed.

Lemma rstrip_all p s : all_chars p s = true -> rstrip p s = EmptyString.
Proof.
  induction s as [|c s IH]; simpl; [auto|].
  intros H. apply andb_true_iff in H as [Hc Hs]. now rewrite IH, Hc.
Qed.

Lemma rstrip_app_all p s t : all_chars p t = true -> rstrip p (append s t) = rstrip p s.
Proof.
  intros Ht. induction s as [|c s IH]; simpl; [now apply rstrip_all|]. now rewrite IH.
Qed.

Lemma rstrip_snoc p s c : p c = false -> rstrip p (append s (String c EmptyString)) = append s (String c EmptyString).
Proof.
  intros Hc. induction s as [|d s IH]; simpl; [now rewrite Hc|].
  rewrite IH. destruct s; reflexivity.
Qed.

Lemma lstrip_head p c s : p c = false -> lstrip p (String c s) = String c s.
Proof. intros H. simpl. now rewrite H. Qed.

(** A line whose first and last characters are not whitespace loses
    only its trailing newline to [strip()]. *)
Lemma strip_quoted s : all_chars (fun c => negb (is_quote c)) s = true -> strip is_quote (quoted s) = s.
Proof.
  intros H. unfold strip, quoted.
  change (lstrip is_quote (String quote ?x)) with (lstrip is_quote x).
  destruct s as [|c s']; [reflexivity|].
  assert (Hc : is_quote c = false) by (simpl in H; now destruct (is_quote c)).
  change (append (String c s') ?t) with (String c (append s' t)).
  rewrite lstrip_head by exact Hc.
  change (String c (append s' ?t)) with (append (String c s') t).
  rewrite rstrip_app_all by reflexivity. now apply rstrip_none.
Qed.

Lemma strip_line p c0 r y cl t :
  p c0 = false -> p cl = false -> all_chars p t = true ->
  String c0 r = append y (String cl EmptyString) ->
  strip p (append (String c0 r) t) = String c0 r.
Proof.
  intros H0 Hl Ht Hy. unfold strip.
  change (append (String c0 r) t) with (String c0 (append r t)).
  rewrite lstrip_head by exact H0.
  change (String c0 (append r t)) with (append (String c0 r) t).
  rewrite rstrip_app_all by exact Ht. rewrite Hy. now apply rstrip_snoc.
Qed.

Lemma join_last c l : l <> [] -> exists pre, join c l = append pre (last l EmptyString).
Proof.
  induction l as [|a l IH]; intros Hne; [congruence|].
  destruct l as [|b l]; [now exists EmptyString|].
  destruct (IH ltac:(discriminate)) as [pre Hpre].
  exists (append a (String c pre)). rewrite append_assoc_str.
  change (join c (a :: b :: l)) with (append a (String c (join c (b :: l)))). now rewrite Hpre.
Qed.

Lemma clean_no_quote s : clean_field s = true -> all_chars (fun c => negb (is_quote c)) s = true.
Proof. apply all_chars_impl. intros c Hc. now apply andb_true_iff in Hc as [_ Hc]. Qed.

Lemma clean_no_space s : clean_field s = true -> all_chars (fun c => negb (is_space c)) s = true.
Proof. apply all_chars_impl. intros c Hc. now apply andb_true_iff in Hc as [Hc _]. Qed.

Lemma clean_no_char c s : is_space c = true -> clean_field s = true -> no_char c s = true.
Proof.
  intros Hc Hs. apply (all_chars_no_char (fun c => negb (is_space c))); [now rewrite Hc|].
  now apply clean_no_space.
Qed.

Lemma quoted_no_char c s : is_space c = true -> clean_field s = true -> no_char c (quoted s) = true.
Proof.
  intros Hc Hs. unfold quoted.
  assert (Hq : Ascii.eqb quote c = false)
    by (destruct (Ascii.eqb_spec quote c) as [<-|]; [discriminate Hc|reflexivity]).
  cbn [no_char]. rewrite Hq, no_char_append, (clean_no_char c s Hc Hs). cbn [no_char].
  now rewrite Hq.
Qed.

(** A clean, non-empty field ends with a character that is not
    whitespace. *)
Lemma clean_snoc s : clean_field s = true -> s <> EmptyString ->
  exists y cl, s = append y (String cl EmptyString) /\ is_space cl = false.
Proof.
  induction s as [|c s IH]; intros Hs Hne; [congruence|].
  unfold clean_field in Hs. simpl in Hs. apply andb_true_iff in Hs as [Hc Hs].
  destruct s as [|c' s'].
  - exists EmptyString, c. split; [reflexivity|]. apply andb_true_iff in Hc as [Hc _].
    now apply negb_true_iff in Hc.
  - destruct (IH Hs ltac:(discriminate)) as (y & cl & Hy & Hcl).
    exists (String c y), cl. split; [simpl; now rewrite <- Hy|exact Hcl].
Qed.

Lemma readlines_concat ls :
  Forall (fun l => no_char nl l = true) ls ->
  readlines (concat_lines ls) = map (fun l => append l (String nl EmptyString)) ls.
Proof.
  intros H. unfold readlines. rewrite split_concat_lines by exact H.
  rewrite removelast_last, last_last. simpl. apply app_nil_r.
Qed.

Lemma join_cons_head c d r rest : exists r', join c (String d r :: rest) = String d r'.
Proof. destruct rest; simpl; eauto. Qed.

(** A tab-separated line whose first and last characters are not
    whitespace, read back with its newline and stripped. *)
Lemma strip_join_line fs d r :
  is_space d = false -> hd EmptyString fs = String d r ->
  (exists y cl, last fs EmptyString = append y (String cl EmptyString) /\ is_space cl = false) ->
  strip is_space (append (join tab fs) (String nl EmptyString)) = join tab fs.
Proof.
  intros Hd Hhd (y & cl & Hy & Hcl).
  destruct fs as [|f fs]; [discriminate|]. simpl in Hhd. subst f.
  destruct (join_last tab (String d r :: fs) ltac:(discriminate)) as [pre Hpre].
  destruct (join_cons_head tab d r fs) as [r' Hr']. rewrite Hr'.
  apply (strip_line _ _ _ (append pre y) cl); [exact Hd|exact Hcl|reflexivity|].
  now rewrite <- Hr', Hpre, Hy, append_assoc_str.
Qed.

Lemma last_map_cons {A B} (f : A -> B) a l d d' : last (map f (a :: l)) d = f (last (a :: l) d').
Proof.
  revert a; induction l as [|b l IH]; intros a; [reflexivity|].
  change (last (map f (b :: l)) d = f (last (b :: l) d')). apply IH.
Qed.

Lemma quoted_snoc s : quoted s = append (String quote s) (String quote EmptyString).
Proof. reflexivity. Qed.

Lemma quoted_lines_no_char c fs :
  is_space c = true -> c <> tab -> Forall (fun f => clean_field f = true) fs ->
  no_char c (join tab (map quoted fs)) = true.
Proof.
  intros Hc Ht Hfs. apply no_char_join; [exact Ht|]. apply Forall_map.
  eapply Forall_impl; [|exact Hfs]. intros f Hf. now apply quoted_no_char.
Qed.

Lemma data_line_no_char c name nums :
  is_space c = true -> c <> tab -> clean_field name = true ->
  Forall (fun v => clean_field v = true /\ v <> EmptyString) nums ->
  no_char c (join tab (quoted name :: nums)) = true.
Proof.
  intros Hc Ht Hn Hnums. apply no_char_join; [exact Ht|]. constructor; [now apply quoted_no_char|].
  eapply Forall_impl; [|exact Hnums]. intros v [Hv _]. now apply clean_no_char.
Qed.

(** The header line R writes becomes [ID Intercept ...]. *)
Lemma rewrite_header h0 h1 hs :
  Forall (fun h => clean_field h = true) (h0 :: h1 :: hs) ->
  rewrite_row 0 (append (join tab (map quoted (h0 :: h1 :: hs))) (String nl EmptyString)) =
  Ok ("ID" :: "Intercept" :: hs).
Proof.
  intros Hc. unfold rewrite_row.
  rewrite (strip_join_line _ quote (append h0 (String quote EmptyString))); [| reflexivity | reflexivity |].
  - rewrite split_join.
    + rewrite map_map, (map_ext_in _ (fun x => x)), map_id; [reflexivity|].
      intros h Hh. apply strip_quoted, clean_no_quote. rewrite Forall_forall in Hc. auto.
    + discriminate.
    + apply Forall_map. eapply Forall_impl; [|exact Hc]. intros h Hh. now apply quoted_no_char.
  - rewrite (last_map_cons _ _ _ _ EmptyString), quoted_snoc. eauto.
Qed.

(** A data line becomes its row name and numbers, space-separated. *)
Lemma rewrite_data_row i name nums :
  clean_field name = true -> Forall (fun v => clean_field v = true /\ v <> EmptyString) nums ->
  rewrite_row (S i) (append (join tab (quoted name :: nums)) (String nl EmptyString)) =
  Ok (name :: nums).
Proof.
  intros Hn Hnums. unfold rewrite_row.
  rewrite (strip_join_line _ quote (append name (String quote EmptyString))); [| reflexivity | reflexivity |].
  - rewrite split_join; [|discriminate|].
    + simpl. rewrite strip_quoted by now apply clean_no_quote. f_equal. f_equal.
      rewrite (map_ext_in _ (fun x => x)), map_id; [reflexivity|].
      intros v Hv. rewrite Forall_forall in Hnums. apply strip_none, clean_no_quote, (Hnums v Hv).
    + constructor; [now apply quoted_no_char|]. eapply Forall_impl; [|exact Hnums].
      intros v [Hv _]. now apply clean_no_char.
  - destruct nums as [|v nums]; [exists (String quote name), quote; split; reflexivity|].
    change (last (quoted name :: v :: nums) EmptyString) with (last (v :: nums) EmptyString).
    assert (Hl : In (last (v :: nums) EmptyString) (v :: nums)) by (apply last_in_list; discriminate).
    rewrite Forall_forall in Hnums. destruct (Hnums _ Hl) as [Hc Hne].
    destruct (clean_snoc _ Hc Hne) as (y & cl & Hy & Hcl). eauto.
Qed.

Lemma rewrite_lines_rows i rows out :
  Forall (fun r => clean_field (fst r) = true /\
            Forall (fun v => clean_field v = true /\ v <> EmptyString) (snd r)) rows ->
  rewrite_lines (S i) (map (fun r => append (join tab (quoted (fst r) :: snd r))
                                    (String nl EmptyString)) rows) out =
  (append out (concat_lines (map (fun r => join space (fst r :: snd r)) rows)), Ok tt).
Proof.
  intros Hrows. revert i out. induction Hrows as [|[name nums] rows [Hn Hnums] _ IH]; intros i out.
  - simpl. now rewrite append_empty_r.
  - cbn [map rewrite_lines fst snd]. rewrite rewrite_data_row by assumption. rewrite IH.
    f_equal. rewrite !append_assoc_str. reflexivity.
Qed.

(** The round trip of the coefficient table: what R writes, read back
    by lines 166-176, is the space-separated table with the first two
    header fields renamed. *)
Lemma rewrite_r_table header rows :
  (2 <= length header)%nat -> Forall (fun h => clean_field h = true) header ->
  Forall (fun r => clean_field (fst r) = true /\
            Forall (fun v => clean_field v = true /\ v <> EmptyString) (snd r)) rows ->
  rewrite_lines 0 (readlines (r_write_table header rows)) EmptyString =
  (rewritten_table header rows, Ok tt).
Proof.
  intros Hlen Hh Hrows. destruct header as [|h0 [|h1 hs]]; simpl in Hlen; [lia|lia|].
  unfold r_write_table, rewritten_table. rewrite readlines_concat.
  - rewrite map_cons. cbn [rewrite_lines]. rewrite rewrite_header by exact Hh.
    rewrite map_map. cbv beta. rewrite rewrite_lines_rows by exact Hrows.
    f_equal. change (append EmptyString ?x) with x. now rewrite append_assoc_str.
  - constructor; [apply quoted_lines_no_char; [reflexivity|discriminate|exact Hh]|].
    apply Forall_map. eapply Forall_impl; [|exact Hrows]. intros [name nums] [Hn Hnums].
    now apply data_line_no_char.
Qed.

Lemma fs_get_try_remove_other p q fs : q <> Some p -> fs_get p (try_remove q fs) = fs_get p fs.
Proof.
  destruct q as [q|]; simpl; [|auto]. intros Hq. rewrite fs_get_remove.
  destruct (String.eqb_spec p q) as [->|]; [congruence|reflexivity].
Qed.

(** [cleanup] leaves every other file as it is. *)
Lemma cleanup_keeps w p :
  ~ In (Some p) [w_tmp_csv w; w_tmp_pot w; w_tmp_rscript w] ->
  fs_get p (w_files (cleanup w)) = fs_get p (w_files w).
Proof.
  intros Hp. unfold cleanup; simpl.
  rewrite !fs_get_try_remove_other; [reflexivity|..]; intros Heq; apply Hp; simpl; tauto.
Qed.

Lemma fs_get_set_other p q c fs : p <> q -> fs_get p (fs_set q c fs) = fs_get p fs.
Proof. intros Hpq. rewrite fs_get_set. now destruct (String.eqb_spec p q). Qed.

Lemma fs_get_set_same p c fs : fs_get p (fs_set p c fs) = Some c.
Proof. now rewrite fs_get_set, String.eqb_refl. Qed.

Section Run.

Context `{GrassEnv}.

(** Once the options are parsed, [main] is the straight-line run. *)
Lemma potential_main_outcome o columns minim maxv w :
  parse_options o = Ok (columns, minim, maxv) ->
  potential_main o w = main_outcome o columns minim maxv w.
Proof.
  intros Hp. unfold potential_main, main_outcome, tmp_paths. rewrite Hp.
  cbv beta iota zeta delta [io_bind io_lift io_fail gtempfile set_tmp_csv set_tmp_rscript
    set_tmp_pot write_file emit v_db_select_cmd spawn_rscript rewrite_potential read_file
    w_files w_tmp w_trace w_tmp_csv w_tmp_pot w_tmp_rscript snd].
  destruct (run_rscript _ _) as [[[rc out] err] [c|]];
    (destruct (negb (Z.eqb rc 0)); [rewrite <- !app_assoc; reflexivity|]);
    (destruct (fs_get _ _) as [text|]; [|rewrite <- !app_assoc; reflexivity]);
    destruct (rewrite_lines _ _ _); rewrite <- !app_assoc; reflexivity.
Qed.


(** A run stopped by the options leaves the world untouched. *)
Lemma potential_main_parse_error o e w :
  parse_options o = Err e -> potential_main o w = (Err e, w).
Proof. intros Hp. unfold potential_main, io_bind, io_lift. now rewrite Hp. Qed.

(** Every run past the options sets the three globals to the three
    temporary paths and has spawned R with the argument list of line 154. *)
Lemma main_outcome_state o columns minim maxv w :
  let '(csv, rf, pot) := tmp_paths (w_tmp w) in
  let w' := snd (main_outcome o columns minim maxv w) in
  w_tmp_csv w' = Some csv /\ w_tmp_pot w' = Some pot /\ w_tmp_rscript w' = Some rf /\
  In (Spawn (rscript_argv rf csv (p_subregions_column o) (p_developed_column o) minim maxv pot
               (p_dredge o))) (w_trace w').
Proof.
  unfold main_outcome, tmp_paths.
  destruct (run_rscript _ _) as [[[rc out] err] written].
  set (fs_p := match written with Some c => _ | None => _ end).
  destruct (negb (Z.eqb rc 0)); [|destruct (fs_get _ fs_p) as [text|];
    [destruct (rewrite_lines _ _ _)|]]; cbn [snd w_tmp_csv w_tmp_pot w_tmp_rscript w_trace];
    (split; [reflexivity|split; [reflexivity|split; [reflexivity|]]]);
    rewrite <- ?app_assoc; apply in_or_app; right; simpl; auto.
Qed.

End Run.

(** ** Properties of [r.futures.potential] *)

(** When [max_variables] is given, [maxv] is the option's string
    (line 134) and Python 2 orders every [int] below every [str], so the
    check of line 137 never fires, whatever the two numbers. *)
Lemma max_given_check_disabled o minim :
  p_max_variables o <> EmptyString -> py_int_of_string (p_min_variables o) = Ok minim ->
  parse_options o = Ok (split_on comma (p_columns o), minim, PyStr (p_max_variables o)).
Proof.
  intros Hmax Hmin. unfold parse_options. rewrite Hmin. cbn [bind].
  apply String.eqb_neq in Hmax. rewrite Hmax. simpl. now rewrite andb_false_r.
Qed.

(** C33. Without [max_variables], [maxv] is the number of predictor
    columns minus two (line 136), although [columns] does not yet hold
    the development and subregion columns (they are added at line 147):
    with [-d], [main] stops exactly when [min_variables] exceeds that. *)
Theorem default_max_check o minim :
  p_dredge o = true -> p_max_variables o = EmptyString ->
  py_int_of_string (p_min_variables o) = Ok minim ->
  (parse_options o = Err (Fatal "Minimum number of predictor variables is larger than maximum number")
   <-> (Z.of_nat (length (split_on comma (p_columns o))) - 2 < minim)%Z).
Proof.
  intros Hd Hmax Hmin. unfold parse_options. rewrite Hmin, Hmax, Hd. cbn [bind andb py2_gt].
  simpl String.eqb. cbv iota. destruct (Z.gtb_spec minim (Z.of_nat (length (split_on comma (p_columns o))) - 2));
    split; intros; try lia; try reflexivity; discriminate.
Qed.

(** The [atexit] hook leaves none of the run's three temporary files,
    on every exit path of [main]: a file that did not exist before the
    run does not exist after it. *)
Lemma run_potential_no_temp_left `{GrassEnv} o w0 r w p :
  w_tmp_csv w0 = None -> w_tmp_pot w0 = None -> w_tmp_rscript w0 = None ->
  (let '(csv, rf, pot) := tmp_paths (w_tmp w0) in In p [csv; rf; pot]) ->
  fs_get p (w_files w0) = None ->
  run_potential o w0 = (r, w) -> fs_get p (w_files w) = None.
Proof.
  intros Hc Hp Hr Hin Hnone. unfold run_potential.
  destruct (parse_options o) as [[[cols m] maxv]|e] eqn:Hopt.
  - rewrite (potential_main_outcome _ _ _ _ _ Hopt).
    pose proof (main_outcome_state o cols m maxv w0) as Hs.
    destruct (tmp_paths (w_tmp w0)) as [[csv rf] pot].
    destruct (main_outcome o cols m maxv w0) as [r' w']. intros [= <- <-].
    simpl in Hs. destruct Hs as (H1 & H2 & H3 & _). apply cleanup_removes. rewrite H1, H2, H3.
    simpl in Hin |- *. intuition congruence.
  - rewrite (potential_main_parse_error _ _ _ Hopt). intros [= <- <-].
    rewrite cleanup_keeps; [exact Hnone|]. rewrite Hc, Hp, Hr. simpl. intuition discriminate.
Qed.

(** C34. Once the options pass, the first events of the run are, in
    this order: [v.db.select] of line 148 on the input map, with the
    predictor columns followed by the developed and subregion columns,
    into the CSV file; the message of lines 150-153; and the start of R
    with the argument list of line 154 written out: the R script file,
    [-i] the CSV file, [-l] the subregion column, [-r] the developed
    column, [-m str(minim)], [-x str(maxv)] (the option's text when
    given), [-o] the output file of R and [-d TRUE] or [-d FALSE]. *)
Theorem run_potential_spawns_rscript `{GrassEnv} o columns minim maxv w0 :
  parse_options o = Ok (columns, minim, maxv) ->
  let '(csv, rf, pot) := tmp_paths (w_tmp w0) in
  exists msg rest,
    w_trace (snd (run_potential o w0)) =
      (w_trace w0 ++
       RunCommand ["v.db.select"; append "map=" (p_input o);
                   append "columns=" (join comma (columns ++ [p_developed_column o;
                                                                p_subregions_column o]));
                   "separator=comma"; append "file=" csv] ::
       Info msg ::
       Spawn ["Rscript"; rf; "-i"; csv; "-l"; p_subregions_column o; "-r"; p_developed_column o;
              "-m"; py_str_int minim; "-x"; py_str maxv; "-o"; pot;
              "-d"; if p_dredge o then "TRUE" else "FALSE"] :: rest)%list.
Proof.
  intros Hopt. unfold run_potential. rewrite (potential_main_outcome _ _ _ _ _ Hopt).
  unfold main_outcome, tmp_paths.
  destruct (run_rscript _ _) as [[[rc out] err] written].
  destruct (negb _); [|destruct (fs_get _ _) as [text|]; [destruct (rewrite_lines _ _ _)|]];
    cbn [snd cleanup w_trace]; rewrite <- ?app_assoc; cbn [app]; eexists _, _; reflexivity.
Qed.

(** C35. When R fails, the run stops with the fatal error of line 160
    and the output file is left as it was (when it is not one of the
    temporary files). *)
Theorem rscript_failure_fatal `{GrassEnv} o columns minim maxv w0 r w :
  parse_options o = Ok (columns, minim, maxv) ->
  (forall fs argv, fst (fst (fst (run_rscript fs argv))) <> 0%Z) ->
  (let '(csv, rf, pot) := tmp_paths (w_tmp w0) in ~ In (p_output o) [csv; rf; pot]) ->
  run_potential o w0 = (r, w) ->
  r = Err (Fatal "Running R script failed, check messages above") /\
  fs_get (p_output o) (w_files w) = fs_get (p_output o) (w_files w0).
Proof.
  intros Hopt Hfail Hout. unfold run_potential. rewrite (potential_main_outcome _ _ _ _ _ Hopt).
  unfold main_outcome. destruct (tmp_paths (w_tmp w0)) as [[csv rf] pot].
  simpl in Hout. match goal with |- context [run_rscript ?fs ?argv] => specialize (Hfail fs argv);
    destruct (run_rscript fs argv) as [[[rc out] err] written] end.
  simpl in Hfail. apply Z.eqb_neq in Hfail. rewrite Hfail. cbn [negb]. intros [= <- <-].
  split; [reflexivity|]. rewrite cleanup_keeps by (simpl; intuition congruence). cbn [w_files].
  destruct written; rewrite ?fs_get_set_other by intuition; reflexivity.
Qed.

(** C7. When R succeeds and writes its coefficient table (clean names
    and numbers, at least the row-name and intercept columns), the run
    succeeds and the output file holds the space-separated table whose
    header starts with [ID Intercept]. *)
Theorem run_potential_output `{GrassEnv} o columns minim maxv w0 r w header rows :
  parse_options o = Ok (columns, minim, maxv) ->
  (forall fs argv, exists out err, run_rscript fs argv = (0%Z, out, err, Some (r_write_table header rows))) ->
  (2 <= length header)%nat -> Forall (fun h => clean_field h = true) header ->
  Forall (fun r => clean_field (fst r) = true /\
            Forall (fun v => clean_field v = true /\ v <> EmptyString) (snd r)) rows ->
  (let '(csv, rf, pot) := tmp_paths (w_tmp w0) in ~ In (p_output o) [csv; rf; pot]) ->
  run_potential o w0 = (r, w) ->
  r = Ok tt /\ fs_get (p_output o) (w_files w) = Some (rewritten_table header rows).
Proof.
  intros Hopt HR Hlen Hh Hrows Hout. unfold run_potential. rewrite (potential_main_outcome _ _ _ _ _ Hopt).
  unfold main_outcome. destruct (tmp_paths (w_tmp w0)) as [[csv rf] pot].
  simpl in Hout. match goal with |- context [run_rscript ?fs ?argv] =>
    destruct (HR fs argv) as (out & err & ->) end.
  cbn [negb Z.eqb]. rewrite fs_get_set_same, rewrite_r_table by assumption.
  intros [= <- <-]. split; [reflexivity|].
  rewrite cleanup_keeps by (simpl; intuition congruence). apply fs_get_set_same.
Qed.

(** C36. A first line of R's table without a tab has one field: the
    renaming of line 173 raises [IndexError] before anything is written. *)
Theorem rewrite_first_line_one_field l ls out :
  no_char tab (strip is_space l) = true ->
  rewrite_lines 0 (l :: ls) out = (out, Err (IndexError "list assignment index out of range")).
Proof.
  intros Hl. simpl. unfold rewrite_row. rewrite split_on_no_char by exact Hl. reflexivity.
Qed.

(** ** Witnesses *)

(** Two predictors, [min_variables=1], [-d]: the default maximum is 0
    and the run stops. *)
Lemma default_max_check_witness :
  parse_options (demo_options true "1" EmptyString) =
  Err (Fatal "Minimum number of predictor variables is larger than maximum number").
Proof.
  apply (proj2 (default_max_check (demo_options true "1" EmptyString) 1 eq_refl eq_refl eq_refl)).
  vm_compute. reflexivity.
Defined.

(** With [min_variables=5 max_variables=2 -d] the table is exported and
    R is asked for models of at least 5 and at most 2 predictors. *)
Lemma run_potential_spawns_rscript_witness :
  exists msg rest,
    w_trace (snd (@run_potential demo_env (demo_options true "5" "2") demo_world)) =
      RunCommand ["v.db.select"; "map=samples"; "columns=road_dens,slope,developed,county";
                  "separator=comma"; "file=/tmp/grass/0.csv"] ::
      Info msg ::
      Spawn ["Rscript"; "/tmp/grass/1"; "-i"; "/tmp/grass/0.csv"; "-l"; "county"; "-r"; "developed";
             "-m"; "5"; "-x"; "2"; "-o"; "/tmp/grass/2_potential.csv"; "-d"; "TRUE"] :: rest.
Proof.
  exact (@run_potential_spawns_rscript demo_env (demo_options true "5" "2") ["road_dens"; "slope"]
           5%Z (PyStr "2") demo_world eq_refl).
Defined.

Lemma rscript_failure_fatal_witness :
  exists r w, @run_potential failing_env (demo_options false "1" EmptyString) demo_world = (r, w) /\
    r = Err (Fatal "Running R script failed, check messages above") /\
    fs_get "potential.txt" (w_files w) = fs_get "potential.txt" (w_files demo_world).
Proof.
  destruct (@run_potential failing_env (demo_options false "1" EmptyString) demo_world)
    as [r w] eqn:E.
  exists r, w. split; [reflexivity|].
  apply (@rscript_failure_fatal failing_env (demo_options false "1" EmptyString)
           ["road_dens"; "slope"] 1%Z (PyInt 0) demo_world r w eq_refl).
  - intros fs argv. discriminate.
  - simpl. intuition discriminate.
  - exact E.
Defined.

Lemma run_potential_output_witness :
  exists r w, @run_potential demo_env (demo_options false "1" EmptyString) demo_world = (r, w) /\
    r = Ok tt /\
    fs_get "potential.txt" (w_files w) =
      Some (rewritten_table ["rownames(coefs)"; "(Intercept)"; "road_dens"; "slope"]
              [("1", ["-2.5"; "0.3"; "-0.1"]); ("2", ["-1.75"; "0.3"; "-0.1"])]).
Proof.
  destruct (@run_potential demo_env (demo_options false "1" EmptyString) demo_world)
    as [r w] eqn:E.
  exists r, w. split; [reflexivity|].
  apply (@run_potential_output demo_env (demo_options false "1" EmptyString)
           ["road_dens"; "slope"] 1%Z (PyInt 0) demo_world r w); [reflexivity| |simpl; lia| | | |exact E].
  - intros fs argv. do 2 eexists. reflexivity.
  - repeat constructor.
  - repeat (apply Forall_cons || apply Forall_nil || split); try reflexivity; discriminate.
  - simpl. intuition discriminate.
Defined.

Lemma rewrite_first_line_one_field_witness :
  rewrite_lines 0 ["Intercept"; "1	-2.5"] EmptyString =
  (EmptyString, Err (IndexError "list assignment index out of range")).
Proof. apply rewrite_first_line_one_field. reflexivity. Defined.

End Potential.
