(* ===== verification/Options.v ===== *)
(** * The module interfaces and the GRASS parser

    Both scripts declare their options in [#%option] comment blocks
    ([r.futures.demand.py] lines 20-78, [r.futures.potential.py] lines
    20-62) that [gcore.parser()] reads before [main] runs (demand lines
    239-242, potential lines 179-181).  [demand_interface] and
    [potential_interface] are these blocks, one [opt_spec] per option,
    with the properties the standard options [G_OPT_*] give (key, type,
    required, multiple) and the ones the blocks set ([options], [answer],
    [required]).

    [grass_parser] is the part of the GRASS parser the scripts rely on:
    every [key=value] must name an option; a value of a [multiple]
    option is a comma-separated list; an [integer] value must be [-] or
    start with an integer as [sscanf("%d")] reads it, within the range
    when [options] is a range (the rest of the value is not looked at);
    a [string] option with [options] accepts those values; an option
    not given takes its [answer], is an error when it is [required] and
    has none, and is the empty string otherwise.  The GRASS parser also
    accepts unambiguous abbreviations of keys and of [string] values,
    which the model rejects: the theorem on a rejected [method] assumes
    a value that abbreviates no declared option.  [main] then converts
    the values with Python's [int()] and [float()] ([py_int_of_string],
    [py_float_of_string] of [Prelude]), which are stricter than the
    parser's check. *)

From S2P Require Import Prelude Numerics Interp Lstsq Demand Plot Pipeline Main Potential.
From Stdlib Require Import String Ascii QArith ZArith Arith List Lia Bool.
Import ListNotations.
Open Scope futures_scope.

Module Options.

Import Interp Lstsq Plot Pipeline Main Potential.

Local Open Scope string_scope.

(** ** Option declarations *)

Inductive opt_type : Type := TInteger | TString.

Record opt_spec : Type := mk_opt {
  o_key : string;
  o_type : opt_type;
  o_required : bool;
  o_multiple : bool;
  o_values : list string;        (** [options:] of a string option *)
  o_range : option (Z * Z);      (** [options: lo-hi] of an integer option *)
  o_answer : string              (** [answer:], empty when there is none *)
}.

(** The standard options, with the key the block gives. *)
Definition g_opt_r_inputs (key : string) : opt_spec := mk_opt key TString true true [] None EmptyString.
Definition g_opt_r_input (key : string) : opt_spec := mk_opt key TString true false [] None EmptyString.
Definition g_opt_f_input (key : string) : opt_spec := mk_opt key TString true false [] None EmptyString.
Definition g_opt_f_output (key : string) (required : bool) : opt_spec :=
  mk_opt key TString required false [] None EmptyString.
Definition g_opt_f_sep : opt_spec := mk_opt "separator" TString false false [] None "pipe".
Definition g_opt_v_input : opt_spec := mk_opt "input" TString true false [] None EmptyString.
Definition g_opt_db_columns (key : string) (required : bool) : opt_spec :=
  mk_opt key TString required true [] None EmptyString.
Definition g_opt_db_column (key : string) (required : bool) : opt_spec :=
  mk_opt key TString required false [] None EmptyString.

(** [r.futures.demand.py] lines 20-78. *)
Definition demand_interface : list opt_spec :=
  [g_opt_r_inputs "development"; g_opt_r_input "subregions";
   g_opt_f_input "observed_population"; g_opt_f_input "projected_population";
   mk_opt "simulation_times" TInteger true true [] None EmptyString;
   mk_opt "method" TString true true ["linear"; "logarithmic"; "exponential"] None
     "linear,logarithmic";
   g_opt_f_output "plot" false; g_opt_f_output "demand" true; g_opt_f_sep].

(** [r.futures.potential.py] lines 20-62; the flag [-d] is the only flag. *)
Definition potential_interface : list opt_spec :=
  [g_opt_v_input; g_opt_f_output "output" true; g_opt_db_columns "columns" true;
   g_opt_db_column "developed_column" true; g_opt_db_column "subregions_column" true;
   mk_opt "min_variables" TInteger false false [] (Some (1%Z, 20%Z)) "1";
   mk_opt "max_variables" TInteger false false [] (Some (1%Z, 20%Z)) EmptyString].

Definition potential_flags : list string := ["d"].

(** ** The parser *)

Definition bad_value (o : opt_spec) (v : string) : exc :=
  Fatal ("value <" ++ v ++ "> out of range for parameter <" ++ o_key o ++ ">").

(** One value of an option. *)
(** The check of an [integer] value ([check_int] of the GRASS parser)
    reads it with [sscanf(ans, "%d", &d)]: leading whitespace, an
    optional sign and at least one digit; whatever follows is ignored. *)
Definition c_sscanf_int (s : string) : option Z :=
  let '(neg, t1) := read_sign (lstrip is_space s) in
  let '(v, n, _) := read_digits t1 0 0 in
  if Nat.eqb n 0 then None else Some (if neg then - v else v)%Z.

(** One value of an option: [-] (reserved for the standard input) passes
    the integer check; a range [lo-hi] bounds the integer read; a string
    must be one of the [options]. *)
Definition check_value (o : opt_spec) (v : string) : res unit :=
  match o_type o with
  | TInteger =>
      if String.eqb v "-" then Ok tt else
      match c_sscanf_int v with
      | Some z =>
          match o_range o with
          | Some (lo, hi) => if (lo <=? z)%Z && (z <=? hi)%Z then Ok tt else Err (bad_value o v)
          | None => Ok tt
          end
      | None => Err (bad_value o v)
      end
  | TString =>
      match o_values o with
      | [] => Ok tt
      | vs => if existsb (String.eqb v) vs then Ok tt else Err (bad_value o v)
      end
  end.

Definition option_values (o : opt_spec) (v : string) : list string :=
  if o_multiple o then split_on comma v else [v].

Definition lookup_arg (args : list (string * string)) (k : string) : option string :=
  option_map snd (find (fun kv => String.eqb (fst kv) k) args).

Definition parse_option (args : list (string * string)) (o : opt_spec) : res (string * string) :=
  match lookup_arg args (o_key o) with
  | Some v => _ <- mapM (check_value o) (option_values o v) ;; Ok (o_key o, v)
  | None =>
      if negb (String.eqb (o_answer o) EmptyString) then Ok (o_key o, o_answer o)
      else if o_required o then Err (Fatal ("Required parameter <" ++ o_key o ++ "> not set"))
      else Ok (o_key o, EmptyString)
  end.

(** [gcore.parser()]: the [options] dictionary, or the error the parser
    prints before exiting. *)
Definition grass_parser (specs : list opt_spec) (args : list (string * string))
    : res (list (string * string)) :=
  if forallb (fun kv => existsb (fun o => String.eqb (o_key o) (fst kv)) specs) args
  then mapM (parse_option args) specs
  else Err (Fatal "Sorry, a parameter is not valid").

(** [flags[...]]: every given flag must be declared. *)
Definition grass_flags (declared given : list string) : res (string -> bool) :=
  if forallb (fun f => existsb (String.eqb f) declared) given
  then Ok (fun f => existsb (String.eqb f) given)
  else Err (Fatal "Sorry, a flag is not valid").

(** [options[k]]. *)
Definition get (d : list (string * string)) (k : string) : string :=
  match find (fun kv => String.eqb (fst kv) k) d with Some kv => snd kv | None => EmptyString end.

(** ** The options as [main] reads them *)

Definition demand_options_of (d : list (string * string)) : demand_options :=
  {| opt_development := get d "development"; opt_method := get d "method";
     opt_simulation_times := get d "simulation_times" |}.

Definition pot_options_of (d : list (string * string)) (flag : string -> bool) : pot_options :=
  {| p_input := get d "input"; p_output := get d "output"; p_columns := get d "columns";
     p_developed_column := get d "developed_column";
     p_subregions_column := get d "subregions_column";
     p_min_variables := get d "min_variables"; p_max_variables := get d "max_variables";
     p_dredge := flag "d" |}.

Section Processes.

Context `{FloatLib} `{FloatFormat}.

(** [r.futures.demand.py] lines 239-242: parse, then [main], which
    draws when [plot] is given. *)
Definition run_demand (args : list (string * string)) (univar : string -> list string)
    (observed_popul projected_popul : pop_table) : res (string * list Demand.warning * option (string * figure)) :=
  d <- grass_parser demand_interface args ;;
  demand_main_plot (demand_options_of d) (get d "plot") univar observed_popul projected_popul.

End Processes.

(** [r.futures.potential.py] lines 179-181: parse, then [main] and the
    [atexit] hook. *)
Definition run_potential_process `{GrassEnv} (args : list (string * string)) (flags : list string)
    (w : world) : res unit * world :=
  match grass_parser potential_interface args, grass_flags potential_flags flags with
  | Ok d, Ok flag => run_potential (pot_options_of d flag) w
  | Err e, _ | _, Err e => (Err e, w)
  end.

(** The command line of the examples below: the required options, then
    [extra]. *)
Definition demand_args (times : string) (extra : list (string * string)) : list (string * string) :=
  [("development", "d2000,d2005,d2010"); ("subregions", "zones");
   ("observed_population", "observed.csv"); ("projected_population", "projected.csv");
   ("simulation_times", times); ("demand", "demand.txt")] ++ extra.

(** ** Lemmas on the parser *)

Lemma parse_option_key args o kv : parse_option args o = Ok kv -> fst kv = o_key o.
Proof.
  unfold parse_option. destruct (lookup_arg args (o_key o)).
  - intros H. apply bind_Ok in H as [_ [_ H]]. now apply Ok_inj in H as <-.
  - destruct (negb _); [intros H; now apply Ok_inj in H as <-|].
    destruct (o_required o); [discriminate|intros H; now apply Ok_inj in H as <-].
Qed.

(** The value [main] reads for an option is the one [parse_option]
    produced for its declaration. *)
Lemma get_parsed specs args d o :
  grass_parser specs args = Ok d -> NoDup (map o_key specs) -> In o specs ->
  exists kv, parse_option args o = Ok kv /\ get d (o_key o) = snd kv.
Proof.
  unfold grass_parser. destruct (forallb _ _); [|discriminate]. intros Hd. apply mapM_Forall2 in Hd.
  unfold get. induction Hd as [|o' kv' specs d' Hkv _ IH]; intros Hnd Hin; [destruct Hin|].
  destruct Hin as [<-|Hin].
  - exists kv'. split; [exact Hkv|]. simpl. now rewrite (parse_option_key _ _ _ Hkv), String.eqb_refl.
  - simpl in Hnd. apply NoDup_cons_iff in Hnd as [Hnot Hnd].
    destruct (IH Hnd Hin) as [kv [Hp Hg]]. exists kv. split; [exact Hp|]. simpl.
    rewrite (parse_option_key _ _ _ Hkv). destruct (String.eqb_spec (o_key o') (o_key o)) as [Heq|_];
      [|exact Hg].
    exfalso. apply Hnot. rewrite Heq. now apply in_map.
Qed.

Lemma demand_keys_nodup : NoDup (map o_key demand_interface).
Proof. repeat constructor; simpl; intuition discriminate. Qed.

Lemma potential_keys_nodup : NoDup (map o_key potential_interface).
Proof. repeat constructor; simpl; intuition discriminate. Qed.

(** A given value passed the checks of its declaration. *)
Lemma parse_option_given args o v kv :
  parse_option args o = Ok kv -> lookup_arg args (o_key o) = Some v ->
  snd kv = v /\ Forall (fun x => check_value o x = Ok tt) (option_values o v).
Proof.
  unfold parse_option. intros H L. rewrite L in H.
  apply bind_Ok in H as [us [Hus H]]. apply Ok_inj in H as <-.
  split; [reflexivity|]. apply mapM_Forall2 in Hus. clear -Hus.
  induction Hus as [|x u xs us Hx _ IH]; constructor; [|exact IH]. now destruct u.
Qed.

(** A value not given is the answer, or the empty string. *)
Lemma parse_option_default args o kv :
  parse_option args o = Ok kv -> lookup_arg args (o_key o) = None ->
  (o_answer o <> EmptyString /\ snd kv = o_answer o) \/
  (o_answer o = EmptyString /\ o_required o = false /\ snd kv = EmptyString).
Proof.
  unfold parse_option. intros H L. rewrite L in H. destruct (String.eqb_spec (o_answer o) EmptyString) as [He|Hne].
  - right. destruct (o_required o); [discriminate|]. apply Ok_inj in H as <-. auto.
  - left. apply Ok_inj in H as <-. auto.
Qed.

(** A value [int()] reads is read the same by [sscanf]. *)
Lemma py_int_sscanf s z : py_int_of_string s = Ok z -> c_sscanf_int s = Some z.
Proof.
  unfold py_int_of_string, c_sscanf_int, strip.
  destruct (rstrip_split is_space (lstrip is_space s)) as [w [Hsplit Hw]].
  set (t := rstrip is_space (lstrip is_space s)) in *. rewrite Hsplit. clearbody t.
  destruct (py_int_literal t) as [z'|] eqn:Hl; [intros H; apply Ok_inj in H as <-|discriminate].
  unfold py_int_literal in Hl. destruct t as [|c r]; [discriminate|].
  rewrite read_sign_app by discriminate.
  destruct (read_sign (String c r)) as [neg t1]. cbn [fst snd].
  destruct (read_digits t1 0 0) as [[v n] rest] eqn:Hd. destruct rest; [|discriminate].
  rewrite (read_digits_app _ _ _ _ _ _ Hd).
  - destruct (Nat.eqb n 0); [discriminate|exact Hl].
  - intros c' r' ->. apply space_not_digit. cbn in Hw. now destruct (is_space c').
Qed.

Lemma check_value_int o x :
  check_value o x = Ok tt -> o_type o = TInteger -> x = "-" \/ exists z, c_sscanf_int x = Some z.
Proof.
  unfold check_value. intros H Ht. rewrite Ht in H. destruct (String.eqb_spec x "-"); [now left|right].
  revert H. destruct (c_sscanf_int x) as [z|]; [eauto|discriminate].
Qed.

Lemma check_value_range o x lo hi :
  check_value o x = Ok tt -> o_type o = TInteger -> o_range o = Some (lo, hi) ->
  x = "-" \/ exists z, c_sscanf_int x = Some z /\ (lo <= z <= hi)%Z.
Proof.
  unfold check_value. intros H Ht Hr. rewrite Ht, Hr in H. destruct (String.eqb_spec x "-"); [now left|right].
  revert H. destruct (c_sscanf_int x) as [z|]; [|discriminate].
  destruct (Z.leb_spec lo z), (Z.leb_spec z hi); simpl; try discriminate.
  intros _. exists z. split; [reflexivity|lia].
Qed.

Lemma check_value_values o x :
  check_value o x = Ok tt -> o_type o = TString -> o_values o <> [] -> In x (o_values o).
Proof.
  unfold check_value. intros H Ht Hne. rewrite Ht in H. revert H. destruct (o_values o) as [|v vs]; [congruence|].
  destruct (existsb (String.eqb x) (v :: vs)) eqn:E; [|discriminate]. intros _.
  apply existsb_exists in E as [y [Hy Hxy]]. apply String.eqb_eq in Hxy. now subst.
Qed.

(** [float()] raises [ValueError] only. *)
Lemma parse_time_error x e : parse_time x = Err e -> exists msg, e = ValueError msg.
Proof.
  unfold parse_time, py_float_of_string. destruct (py_float_literal _); [discriminate|].
  intros H. injection H as <-. eauto.
Qed.

Lemma prefix_refl s : String.prefix s s = true.
Proof. induction s as [|c s IH]; [reflexivity|]. cbn. destruct (ascii_dec c c); [exact IH|congruence]. Qed.

(** A declaration of the interface, by its position. *)
Ltac in_spec := simpl; repeat (first [left; reflexivity | right]).

(** ** Properties of the interfaces *)

(** C11. The parser's check of [simulation_times] only asks that every
    value be [-] or start with an integer ([sscanf %d]), while [main]
    converts the values with [float()] (line 96): a value that passes
    the check and that [float()] rejects, such as [2020x], makes the run
    raise [ValueError] after the parser accepted the command line. *)
Theorem demand_parser_time_gap `{FloatLib} `{FloatFormat} args d univar obs proj :
  grass_parser demand_interface args = Ok d ->
  Forall (fun v => v = "-" \/ exists z, c_sscanf_int v = Some z)
         (split_on comma (get d "simulation_times")) /\
  (Exists (fun v => exists e, parse_time v = Err e) (split_on comma (get d "simulation_times")) ->
   exists msg, run_demand args univar obs proj = Err (ValueError msg)).
Proof.
  intros Hd. split.
  - destruct (get_parsed _ _ _ (mk_opt "simulation_times" TInteger true true [] None EmptyString)
      Hd demand_keys_nodup) as [kv [Hp Hg]]; [in_spec|].
    simpl in Hg. rewrite Hg. destruct (lookup_arg args "simulation_times") as [v|] eqn:L.
    + destruct (parse_option_given _ _ _ _ Hp L) as [-> Hall].
      cbv beta iota delta [option_values o_multiple] in Hall.
      eapply Forall_impl; [|exact Hall]. intros x Hx. exact (check_value_int _ x Hx eq_refl).
    + apply parse_option_default in Hp as [[Ha _]|[_ [Hr _]]]; [now exfalso; apply Ha|discriminate Hr|exact L].
  - intros Hex. unfold run_demand. rewrite Hd. cbn [bind]. unfold demand_main_plot.
    cbn [opt_simulation_times demand_options_of].
    destruct (mapM_Exists_Err parse_time (fun e => exists msg, e = ValueError msg) _
                (fun x e He => parse_time_error x e He) Hex) as [e [He [msg ->]]].
    rewrite He. now exists msg.
Qed.

(** C37. A [method] value that abbreviates none of the declared options
    is rejected by the parser before [main] runs. *)
Theorem demand_parser_rejects_method args v m :
  lookup_arg args "method" = Some v -> In m (split_on comma v) ->
  (forall a, In a ["linear"; "logarithmic"; "exponential"] -> String.prefix m a = false) ->
  exists e, grass_parser demand_interface args = Err e.
Proof.
  intros L Hm Hnot. destruct (grass_parser demand_interface args) as [d|e] eqn:Hd; [|eauto].
  exfalso. destruct (get_parsed _ _ _ (mk_opt "method" TString true true
      ["linear"; "logarithmic"; "exponential"] None "linear,logarithmic") Hd demand_keys_nodup)
    as [kv [Hp _]]; [in_spec|].
  destruct (parse_option_given _ _ _ _ Hp L) as [_ Hall]. rewrite Forall_forall in Hall.
  pose proof (Hnot m (check_value_values _ _ (Hall m Hm) eq_refl ltac:(discriminate))) as Hp'.
  now rewrite prefix_refl in Hp'.
Qed.

(** C6. Whatever the command line, no temporary file of the run is left
    behind, on every exit path, the fatal ones included: when the parser
    rejects the command line nothing has happened yet (the [atexit]
    hook is registered after the parser, line 180), and otherwise
    [main] runs and the hook removes the three files it may have
    created.  A file that did not exist before does not exist after. *)
Theorem run_potential_process_no_temp_left `{GrassEnv} args flags w0 r w p :
  w_tmp_csv w0 = None -> w_tmp_pot w0 = None -> w_tmp_rscript w0 = None ->
  (let '(csv, rf, pot) := tmp_paths (w_tmp w0) in In p [csv; rf; pot]) ->
  fs_get p (w_files w0) = None ->
  run_potential_process args flags w0 = (r, w) ->
  fs_get p (w_files w) = None /\ ((exists e, grass_parser potential_interface args = Err e) -> w = w0).
Proof.
  intros Hc Hp Hr Hin Hnone. unfold run_potential_process.
  destruct (grass_parser potential_interface args) as [d|e] eqn:Hd.
  - destruct (grass_flags potential_flags flags) as [flag|e].
    + intros Hrun. split; [exact (run_potential_no_temp_left _ _ _ _ _ Hc Hp Hr Hin Hnone Hrun)|].
      intros [e He]. discriminate He.
    + intros Hrun. injection Hrun as <- <-. split; [exact Hnone|reflexivity].
  - intros Hrun. injection Hrun as <- <-. split; [exact Hnone|reflexivity].
Qed.

(** C32. For every command line the parser accepts with [max_variables]
    given, the check of line 137 never stops [main], whatever the flag
    and however [min_variables] compares with [max_variables]: [maxv]
    stays a [str].  Either [int(min_variables)] succeeds, with the value
    the parser bounded in 1-20, or it raises [ValueError] (for a value
    such as [5x] that the parser's [sscanf] lets through). *)
Theorem potential_parser_max_unchecked args d flag :
  grass_parser potential_interface args = Ok d -> get d "max_variables" <> EmptyString ->
  (exists minim, (1 <= minim <= 20)%Z /\
     parse_options (pot_options_of d flag) =
     Ok (split_on comma (get d "columns"), minim, PyStr (get d "max_variables"))) \/
  (exists msg, parse_options (pot_options_of d flag) = Err (ValueError msg)).
Proof.
  intros Hd Hmax.
  destruct (py_int_of_string (get d "min_variables")) as [minim|e] eqn:Hmin.
  - left. exists minim. split; [|exact (max_given_check_disabled (pot_options_of d flag) minim Hmax Hmin)].
    destruct (get_parsed _ _ _ (mk_opt "min_variables" TInteger false false [] (Some (1%Z, 20%Z)) "1")
      Hd potential_keys_nodup) as [kv [Hp Hg]]; [in_spec|].
    simpl in Hg. pose proof (py_int_sscanf _ _ Hmin) as Hs. rewrite Hg in Hmin, Hs.
    destruct (lookup_arg args "min_variables") as [v|] eqn:L.
    + destruct (parse_option_given _ _ _ _ Hp L) as [Hkv Hall]. rewrite Hkv in Hmin, Hs.
      cbv beta iota delta [option_values o_multiple] in Hall. inversion Hall as [|? ? Hv _]; subst.
      destruct (check_value_range _ _ _ _ Hv eq_refl eq_refl) as [Hx|[z [Hz Hb]]];
        [rewrite Hx in Hmin; vm_absurd Hmin|congruence].
    + apply parse_option_default in Hp as [[_ Hv]|[Ha _]]; [|discriminate Ha|exact L].
      rewrite Hv in Hmin. cbn [o_answer] in Hmin.
      assert (H1 : py_int_of_string "1" = Ok 1%Z) by reflexivity.
      rewrite H1 in Hmin. injection Hmin as <-. lia.
  - right. unfold parse_options. cbn [p_min_variables pot_options_of]. rewrite Hmin. cbn [bind].
    revert Hmin. unfold py_int_of_string. destruct (py_int_literal _); [discriminate|].
    intros H. injection H as <-. eauto.
Qed.

(** ** Witnesses *)

(** [simulation_times=2010,2020x] passes the parser and [main] fails. *)
Lemma demand_parser_time_gap_witness :
  exists d msg, grass_parser demand_interface (demand_args "2010,2020x" []) = Ok d /\
    run_demand (demand_args "2010,2020x" []) scenario_univar scenario_observed scenario_projected
    = Err (ValueError msg).
Proof.
  destruct (grass_parser demand_interface (demand_args "2010,2020x" [])) as [d|e] eqn:E;
    [|vm_absurd E].
  assert (Hex : Exists (fun v => exists e, parse_time v = Err e) (split_on comma (get d "simulation_times"))).
  { revert E. vm_compute. intros E. injection E as <-. vm_compute.
    apply Exists_cons_tl, Exists_cons_hd. eexists. reflexivity. }
  destruct (demand_parser_time_gap _ _ scenario_univar scenario_observed scenario_projected E)
    as [_ Hgap].
  destruct (Hgap Hex) as [msg Hmsg]. exists d, msg. split; [reflexivity|exact Hmsg].
Defined.

Lemma demand_parser_rejects_method_witness :
  exists e, grass_parser demand_interface (demand_args "2010,2020,2030" [("method", "linear,quadratic")])
            = Err e.
Proof.
  apply (demand_parser_rejects_method _ "linear,quadratic" "quadratic");
    [reflexivity|simpl; tauto|intros a Ha; simpl in Ha; intuition (subst; reflexivity)].
Defined.

(** [min_variables=5 max_variables=2 -d] passes the parser and the check. *)
Lemma potential_parser_max_unchecked_witness :
  exists d,
    grass_parser potential_interface
      [("input", "samples"); ("output", "potential.txt"); ("columns", "road_dens,slope");
       ("developed_column", "developed"); ("subregions_column", "county");
       ("min_variables", "5"); ("max_variables", "2")] = Ok d /\
    ((exists minim, (1 <= minim <= 20)%Z /\
       parse_options (pot_options_of d (fun f => String.eqb f "d")) =
       Ok (split_on comma (get d "columns"), minim, PyStr (get d "max_variables"))) \/
     (exists msg, parse_options (pot_options_of d (fun f => String.eqb f "d")) = Err (ValueError msg))).
Proof.
  destruct (grass_parser potential_interface
      [("input", "samples"); ("output", "potential.txt"); ("columns", "road_dens,slope");
       ("developed_column", "developed"); ("subregions_column", "county");
       ("min_variables", "5"); ("max_variables", "2")]) as [d|e] eqn:E; [|vm_absurd E].
  exists d. split; [reflexivity|].
  apply (potential_parser_max_unchecked _ d (fun f => String.eqb f "d") E).
  revert E; vm_compute; intros E; injection E as <-; discriminate.
Defined.

Lemma run_potential_process_no_temp_left_witness :
  exists r w,
    @run_potential_process demo_env
      [("input", "samples"); ("output", "potential.txt"); ("columns", "road_dens,slope");
       ("developed_column", "developed"); ("subregions_column", "county")] [] demo_world = (r, w) /\
    fs_get "/tmp/grass/0.csv" (w_files w) = None.
Proof.
  destruct (@run_potential_process demo_env
      [("input", "samples"); ("output", "potential.txt"); ("columns", "road_dens,slope");
       ("developed_column", "developed"); ("subregions_column", "county")] [] demo_world)
    as [r w] eqn:E.
  exists r, w. split; [reflexivity|].
  refine (proj1 (@run_potential_process_no_temp_left demo_env _ [] demo_world r w "/tmp/grass/0.csv"
                  eq_refl eq_refl eq_refl _ eq_refl E)).
  simpl. left. reflexivity.
Defined.

End Options.
